(** * Cetus liquidity rebalance bot: decision and execution engine

    A shallow embedding of the TypeScript sources
    ([utils.ts], [strategy.ts], [persistence.ts], [riskChecks.ts],
    [suiWallet.ts], [index.ts]) together with the properties the
    specification states about them.

    Conventions of the embedding.
    - A JavaScript [number] that holds a tick, a tick spacing, a retry
      count or a delay is an integer and is modelled by [Z]; a [bigint]
      is [Z] as well.
    - A JavaScript [number] that holds a price, a percentage or a token
      amount is modelled by a real number [R]: IEEE-754 rounding,
      overflow and NaN are outside the model, so every statement below is
      about the arithmetic the code writes down, read exactly.
      [Math.log], [Math.pow] and [Math.sqrt] are [ln], [Rpower] and [sqrt].
      The swap sizing of strategy.ts, whose outcome can turn on one
      rounding, is embedded a second time in binary64 (module [Doubles]).
    - A function that can [throw] returns a [result]; code that talks to
      the file system, the chain or the clock is a function on an explicit
      state that also records the calls it makes. *)

From Stdlib Require Import ZArith Reals Lra Lia List DecimalString.
From stdpp Require Import base option list gmap strings pretty.

Local Open Scope Z_scope.

(** ** Exceptions and results *)

(** The values the code throws, or receives from a collaborator that throws. *)
Inductive error : Type :=
  | RangeError (msg : string)
      (* utils.ts: new RangeError("price must be positive") *)
  | InvalidTickRange (lower upper : Z)
      (* utils.ts: new Error(`Invalid tick range: lower=.. >= upper=..`) *)
  | TransactionFailed (reason : string)
      (* suiWallet.ts: new Error(`Transaction failed: ..`) *)
  | AnotherProcessRunning (pid : Z) (lockPath : string)
      (* riskChecks.ts: new Error(`Another rebalance process is running ..`) *)
  | ErrnoException (code : string)
      (* a Node.js system error carrying a [code], e.g. "ESRCH", "EPERM" *)
  | ExternalError (msg : string)
      (* anything thrown by the RPC node or the SDK *)
  | UndefinedThrown.
      (* [throw lastErr] with [lastErr] never assigned *)

Inductive result (A : Type) : Type :=
  | Ok (a : A)
  | Throw (e : error).
Arguments Ok {A} a.
Arguments Throw {A} e.

Definition rbind {A B : Type} (r : result A) (k : A -> result B) : result B :=
  match r with
  | Ok a => k a
  | Throw e => Throw e
  end.

Declare Scope result_scope.
Delimit Scope result_scope with result.
Notation "x <- r ;;; k" := (rbind r (fun x => k))
  (at level 100, r at next level, right associativity) : result_scope.

(** ** utils.ts: tick math *)

Module Utils.

Local Open Scope R_scope.

Definition TICK_BASE : R := 10001 / 10000.
Definition LOG_TICK_BASE : R := ln TICK_BASE.
Definition MIN_TICK : Z := -443636.
Definition MAX_TICK : Z := 443636.

(** [Math.floor], [Math.ceil] and [Math.round] (which rounds a half up). *)
Definition Math_floor (x : R) : Z := Int_part x.
Definition Math_ceil (x : R) : Z := (- Int_part (- x))%Z.
Definition Math_round (x : R) : Z := Int_part (x + 1 / 2).

Inductive Rounding : Type := RoundFloor | RoundCeil | RoundNearest.

(** [Math.max(minAligned, Math.min(maxAligned, tick))], the two bounds being
    [Math.ceil(MIN_TICK / tickSpacing) * tickSpacing] and
    [Math.floor(MAX_TICK / tickSpacing) * tickSpacing]. *)
Definition minAligned (tickSpacing : Z) : Z :=
  (Math_ceil (IZR MIN_TICK / IZR tickSpacing) * tickSpacing)%Z.
Definition maxAligned (tickSpacing : Z) : Z :=
  (Math_floor (IZR MAX_TICK / IZR tickSpacing) * tickSpacing)%Z.

Definition clampTick (tick tickSpacing : Z) : Z :=
  Z.max (minAligned tickSpacing) (Z.min (maxAligned tickSpacing) tick).

(** The same bounds by integer division, which is how they evaluate. *)
Definition minAlignedZ (tickSpacing : Z) : Z :=
  (- ((- MIN_TICK) / tickSpacing) * tickSpacing)%Z.
Definition maxAlignedZ (tickSpacing : Z) : Z :=
  (MAX_TICK / tickSpacing * tickSpacing)%Z.
Definition clampTickZ (tick tickSpacing : Z) : Z :=
  Z.max (minAlignedZ tickSpacing) (Z.min (maxAlignedZ tickSpacing) tick).

Definition priceToTick (price : R) (tickSpacing : Z) (round : Rounding)
  : result Z :=
  if Rle_dec price 0 then Throw (RangeError "price must be positive")
  else
    let rawTick := ln price / LOG_TICK_BASE in
    let tick :=
      match round with
      | RoundFloor => (Math_floor (rawTick / IZR tickSpacing) * tickSpacing)%Z
      | RoundCeil => (Math_ceil (rawTick / IZR tickSpacing) * tickSpacing)%Z
      | RoundNearest => (Math_round (rawTick / IZR tickSpacing) * tickSpacing)%Z
      end in
    Ok (clampTick tick tickSpacing).

Definition tickToPrice (tick : Z) : R := Rpower TICK_BASE (IZR tick).

Record TickRange : Type := mkTickRange { tickLower : Z; tickUpper : Z }.

Definition computeNewTickRange (currentPrice priceBandPct : R) (tickSpacing : Z)
  : result TickRange :=
  let factor := priceBandPct / 100 in
  let lowerPrice := currentPrice * (1 - factor) in
  let upperPrice := currentPrice * (1 + factor) in
  (tickLower <- priceToTick lowerPrice tickSpacing RoundFloor ;;;
   tickUpper <- priceToTick upperPrice tickSpacing RoundCeil ;;;
   if (tickLower >=? tickUpper)%Z
   then Throw (InvalidTickRange tickLower tickUpper)
   else Ok (mkTickRange tickLower tickUpper))%result.

Definition centerTick (tickLower tickUpper : Z) : Z :=
  Math_round (IZR (tickLower + tickUpper) / 2).

Definition driftPct (currentPrice : R) (tickLower tickUpper : Z) : R :=
  let centerPrice := tickToPrice (centerTick tickLower tickUpper) in
  (currentPrice - centerPrice) / centerPrice * 100.

Definition isTickInRange (tick tickLower tickUpper : Z) : bool :=
  (tick >=? tickLower)%Z && (tick <=? tickUpper)%Z.

(** [Math.min(baseMs * Math.pow(2, attempt), maxMs)], [attempt] counted from 0. *)
Definition backoffMs_with (attempt baseMs maxMs : Z) : Z :=
  Z.min (baseMs * 2 ^ attempt) maxMs.
Definition backoffMs (attempt : Z) : Z := backoffMs_with attempt 1000 30000.

End Utils.

(** ** config.ts: the fields of [BotConfig] the engine reads *)

Module Config.

Inductive RebalanceMode : Type := mode_price_band | mode_drift.

Record BotConfig : Type := mkBotConfig {
  rebalanceMode : RebalanceMode;
  priceBandPct : R;
  driftTriggerPct : R;
  minIntervalSeconds : Z;
  slippageBps : Z;
  gasBudget : Z;
  maxRetries : Z;
  dryRun : bool;
  confirm : bool
}.

End Config.

(** ** strategy.ts: decision logic *)

Module Strategy.

Import Utils Config.
Local Open Scope R_scope.

Record PositionState : Type := mkPositionState {
  pos_tickLower : Z;
  pos_tickUpper : Z;
  liquidity : Z;
  unclaimedFeeA : Z;
  unclaimedFeeB : Z
}.

Record PoolState : Type := mkPoolState {
  currentTick : Z;
  currentPrice : R;
  tickSpacing : Z;
  sqrtPrice : Z
}.

Inductive RebalanceTrigger : Type :=
  | price_out_of_range
  | drift_exceeded
  | none.

(** The [details] text of the source is a log line built from the same
    values; it is not read by any code and is left out. *)
Record StrategyDecision : Type := mkStrategyDecision {
  shouldRebalance : bool;
  trigger : RebalanceTrigger;
  currentDriftPct : R;
  newTickLower : option Z;
  newTickUpper : option Z
}.

Definition evaluateStrategy (pool : PoolState) (position : PositionState)
    (config : BotConfig) : result StrategyDecision :=
  let drift := driftPct (currentPrice pool)
                 (pos_tickLower position) (pos_tickUpper position) in
  let inRange := isTickInRange (currentTick pool)
                   (pos_tickLower position) (pos_tickUpper position) in
  if negb inRange then
    (range <- computeNewTickRange (currentPrice pool) (priceBandPct config)
                (tickSpacing pool) ;;;
     Ok (mkStrategyDecision true price_out_of_range drift
           (Some (tickLower range)) (Some (tickUpper range))))%result
  else if Rgt_dec (Rabs drift) (driftTriggerPct config) then
    (range <- computeNewTickRange (currentPrice pool) (priceBandPct config)
                (tickSpacing pool) ;;;
     Ok (mkStrategyDecision true drift_exceeded drift
           (Some (tickLower range)) (Some (tickUpper range))))%result
  else
    Ok (mkStrategyDecision false none drift None None).

Record TokenAmounts : Type := mkTokenAmounts { amountA : R; amountB : R }.

Definition computeTokenAmounts (liquidity : Z) (currentPrice : R)
    (tickLower tickUpper : Z) : TokenAmounts :=
  let sqrtCurrent := sqrt currentPrice in
  let sqrtLower := sqrt (tickToPrice tickLower) in
  let sqrtUpper := sqrt (tickToPrice tickUpper) in
  let L := IZR liquidity in
  if Rle_dec currentPrice (tickToPrice tickLower) then
    mkTokenAmounts (L * (1 / sqrtLower - 1 / sqrtUpper)) 0
  else if Rge_dec currentPrice (tickToPrice tickUpper) then
    mkTokenAmounts 0 (L * (sqrtUpper - sqrtLower))
  else
    mkTokenAmounts (L * (1 / sqrtCurrent - 1 / sqrtUpper))
                   (L * (sqrtCurrent - sqrtLower)).

Record SwapPlan : Type := mkSwapPlan { swapAtoB : bool; swapAmount : Z }.

(** [null] is [None]. *)
Definition computeSwapNeeded (balanceA balanceB : Z)
    (targetRatioAtoB currentPrice : R) (slippageBps : Z) : option SwapPlan :=
  let bA := IZR balanceA in
  let bB := IZR balanceB in
  if Rle_dec targetRatioAtoB 0 then None
  else if Req_dec_T (bA + bB) 0 then None
  else
    let x := (bA - targetRatioAtoB * bB) / (1 + targetRatioAtoB * currentPrice) in
    let totalValueInA := bA + bB / currentPrice in
    let tolerance := 5 / 100 in
    if Rlt_dec (Rabs x) (tolerance * totalValueInA) then None
    else if Rgt_dec x 0 then
      let swapAmount := Math_floor x in
      if (swapAmount =? 0)%Z then None
      else Some (mkSwapPlan true swapAmount)
    else
      let bAmount := Rabs x * currentPrice in
      let swapAmount := Math_floor bAmount in
      if (swapAmount =? 0)%Z then None
      else Some (mkSwapPlan false swapAmount).

End Strategy.

(** ** Effectful code: state passing with exceptions *)

(** A computation reads and updates a state [S] and either returns or
    throws; a thrown exception keeps the state reached so far. *)
Definition Eff (S A : Type) : Type := S -> result A * S.

Definition ret {S A : Type} (a : A) : Eff S A := fun s => (Ok a, s).
Definition throw {S A : Type} (e : error) : Eff S A := fun s => (Throw e, s).
Definition ebind {S A B : Type} (m : Eff S A) (k : A -> Eff S B) : Eff S B :=
  fun s =>
    match m s with
    | (Ok a, s') => k a s'
    | (Throw e, s') => (Throw e, s')
    end.
(** [try { body } catch (e) { handler }] *)
Definition try_catch {S A : Type} (body : Eff S A) (handler : error -> Eff S A)
  : Eff S A :=
  fun s =>
    match body s with
    | (Ok a, s') => (Ok a, s')
    | (Throw e, s') => handler e s'
    end.

Declare Scope eff_scope.
Delimit Scope eff_scope with eff.
Notation "x <~ m ;; k" := (ebind m (fun x => k))
  (at level 100, m at next level, right associativity) : eff_scope.
Notation "m ;; k" := (ebind m (fun _ => k))
  (at level 100, right associativity) : eff_scope.

(** ** persistence.ts: the state store *)

Module Persistence.

Record BotState : Type := mkBotState {
  lastRebalanceTime : option Z;
  lastPositionId : option string;
  lastTickLower : option Z;
  lastTickUpper : option Z;
  lastLiquidity : option string;
  totalRebalances : Z;
  lastTxDigest : option string
}.

Definition DEFAULT_STATE : BotState :=
  mkBotState None None None None None 0 None.

(** [Partial<BotState>]: what [JSON.parse] yields for a state file. *)
Record PartialBotState : Type := mkPartialBotState {
  p_lastRebalanceTime : option Z;
  p_lastPositionId : option string;
  p_lastTickLower : option Z;
  p_lastTickUpper : option Z;
  p_lastLiquidity : option string;
  p_totalRebalances : option Z;
  p_lastTxDigest : option string
}.

(** The JSON codec of the platform; [JSON_parse] is [None] where
    [JSON.parse] throws. *)
Class Json : Type := {
  JSON_parse : string -> option PartialBotState;
  JSON_stringify : BotState -> string
}.

(** Files as a map from path to content. *)
Definition FileSystem : Type := gmap string string.

(** [{ ...DEFAULT_STATE, ...parsed }] *)
Definition spread_over_default (p : PartialBotState) : BotState :=
  {| lastRebalanceTime := p_lastRebalanceTime p;
     lastPositionId := p_lastPositionId p;
     lastTickLower := p_lastTickLower p;
     lastTickUpper := p_lastTickUpper p;
     lastLiquidity := p_lastLiquidity p;
     totalRebalances := default (totalRebalances DEFAULT_STATE) (p_totalRebalances p);
     lastTxDigest := p_lastTxDigest p |}.

Definition loadState `{Json} (fs : FileSystem) (statePath : string) : BotState :=
  match fs !! statePath with
  | None => DEFAULT_STATE
  | Some raw =>
      match JSON_parse raw with
      | Some parsed => spread_over_default parsed
      | None => DEFAULT_STATE
      end
  end.

Definition saveState `{Json} (fs : FileSystem) (statePath : string)
    (state : BotState) : FileSystem :=
  <[statePath := JSON_stringify state]> fs.

(** [now] is the value of [Date.now()]; [pretty] prints a [bigint] in
    decimal as [toString()] does. *)
Definition updateStateAfterRebalance (now : Z) (state : BotState)
    (positionId : string) (tickLower tickUpper liquidity : Z)
    (txDigest : string) : BotState :=
  {| lastRebalanceTime := Some now;
     lastPositionId := Some positionId;
     lastTickLower := Some tickLower;
     lastTickUpper := Some tickUpper;
     lastLiquidity := Some (pretty liquidity);
     totalRebalances := totalRebalances state + 1;
     lastTxDigest := Some txDigest |}.

End Persistence.

(** ** riskChecks.ts: the lock file *)

Module RiskChecks.

(** What [process.kill(pid, 0)] does: it returns when the signal could be
    delivered, and throws a system error otherwise. *)
Inductive KillResult : Type :=
  | KillDelivered
  | KillThrows (e : error).

(** The process and the built-ins the guard calls. [parseInt] is [None]
    for [NaN]. *)
Class Platform : Type := {
  process_pid : Z;
  process_kill0 : Z -> KillResult;
  parseInt : string -> option Z;
  String_trim : string -> string;
  String_of_pid : Z -> string
}.

Inductive FsOp : Type :=
  | OpUnlink (path : string)
  | OpWrite (path content : string).

(** The files, and the destructive calls made on them so far. *)
Record Disk : Type := mkDisk {
  files : gmap string string;
  fs_ops : list FsOp
}.

Definition existsSync (path : string) : Eff Disk bool :=
  fun d => (Ok (bool_decide (is_Some (files d !! path))), d).

Definition readFileSync (path : string) : Eff Disk string :=
  fun d =>
    match files d !! path with
    | Some content => (Ok content, d)
    | None => (Throw (ErrnoException "ENOENT"), d)
    end.

Definition unlinkSync (path : string) : Eff Disk unit :=
  fun d =>
    match files d !! path with
    | Some _ => (Ok tt, mkDisk (delete path (files d)) (fs_ops d ++ [OpUnlink path]))
    | None => (Throw (ErrnoException "ENOENT"), d)
    end.

Definition writeFileSync (path content : string) : Eff Disk unit :=
  fun d =>
    (Ok tt, mkDisk (<[path := content]> (files d)) (fs_ops d ++ [OpWrite path content])).

Definition process_kill `{Platform} (pid : Z) : Eff Disk unit :=
  fun d =>
    match process_kill0 pid with
    | KillDelivered => (Ok tt, d)
    | KillThrows e => (Throw e, d)
    end.

(** [e instanceof Error && e.code === "ESRCH"] *)
Definition is_ESRCH (e : error) : bool :=
  match e with
  | ErrnoException code => bool_decide (code = "ESRCH")
  | _ => false
  end.

Definition checkConcurrency `{Platform} (lockPath : string) : Eff Disk unit :=
  (present <~ existsSync lockPath ;;
   if present : bool then
     raw <~ readFileSync lockPath ;;
     let content := String_trim raw in
     match parseInt content with
     | Some pid =>
         if negb (pid =? process_pid) then
           try_catch
             (process_kill pid ;;
              throw (AnotherProcessRunning pid lockPath))
             (fun e =>
                if is_ESRCH e then unlinkSync lockPath
                else throw e)
         else ret tt
     | None => ret tt
     end
   else ret tt)%eff.

Definition acquireLock `{Platform} (lockPath : string) : Eff Disk unit :=
  (checkConcurrency lockPath ;;
   writeFileSync lockPath (String_of_pid process_pid))%eff.

Definition releaseLock (lockPath : string) : Eff Disk unit :=
  (present <~ existsSync lockPath ;;
   if present : bool then unlinkSync lockPath else ret tt)%eff.

End RiskChecks.

(** ** suiWallet.ts: the transaction execution wrapper *)

Module SuiWallet.

Import Utils Config.

(** What [signAndExecuteTransaction] resolves to: the digest, and
    [effects?.status?.status] and [effects?.status?.error] where present. *)
Record ExecResponse : Type := mkExecResponse {
  resp_digest : string;
  resp_status : option string;
  resp_error : option string
}.

(** What the wrapper and the orchestrator ask of the outside world. *)
Inductive Event : Type :=
  | EvDryRun
  | EvBroadcast (attempt : Z) (outcome : result ExecResponse)
  | EvSleep (ms : Z)
  | EvBuildCollectFee (positionId : string)
  | EvBuildRemoveLiquidity (positionId : string) (liquidity slippageBps : Z)
  | EvFetchPoolState
  | EvGetTokenBalances
  | EvBuildSwap (swapAtoB : bool) (amount slippageBps : Z)
  | EvBuildAddLiquidity (positionId : string) (tickLower tickUpper : Z)
      (amountA amountB slippageBps : Z).

(** The outside world [W] (chain, RPC node, clock) and the calls made so far. *)
Record Run (W : Type) : Type := mkRun {
  world : W;
  trace : list Event
}.
Arguments mkRun {W} world trace.
Arguments world {W} r.
Arguments trace {W} r.

(** The RPC client and the transaction object. Each call may change the
    world and may throw. *)
Class SuiClient (W Tx : Type) : Type := {
  setGasBudget : Z -> Tx -> Tx;
  buildAndDryRun : Tx -> W -> result unit * W;
  signAndExecuteTransaction : Tx -> W -> result ExecResponse * W;
  sleep_world : Z -> W -> W
}.

Record ExecReport : Type := mkExecReport {
  digest : string;
  report_dryRun : bool
}.

Section Wrapper.
Context {W Tx : Type} `{SuiClient W Tx}.

(** [tx.build] followed by [client.dryRunTransactionBlock] *)
Definition call_dryRun (tx : Tx) : Eff (Run W) unit :=
  fun r =>
    let '(res, w') := buildAndDryRun tx (world r) in
    (res, mkRun w' (trace r ++ [EvDryRun])).

Definition call_signAndExecute (attempt : Z) (tx : Tx)
  : Eff (Run W) ExecResponse :=
  fun r =>
    let '(res, w') := signAndExecuteTransaction tx (world r) in
    (res, mkRun w' (trace r ++ [EvBroadcast attempt res])).

Definition sleep (ms : Z) : Eff (Run W) unit :=
  fun r => (Ok tt, mkRun (sleep_world ms (world r)) (trace r ++ [EvSleep ms])).

(** [result.effects?.status?.error || "unknown"] *)
Definition failure_reason (resp : ExecResponse) : string :=
  match resp_error resp with
  | Some msg => if bool_decide (msg = "") then "unknown" else msg
  | None => "unknown"
  end.

(** One pass through the body of the [try] block. *)
Definition attemptOnce (attempt : Z) (tx : Tx) : Eff (Run W) ExecReport :=
  (result <~ call_signAndExecute attempt tx ;;
   if negb (bool_decide (resp_status result = Some "success"))
   then throw (TransactionFailed (failure_reason result))
   else ret (mkExecReport (resp_digest result) false))%eff.

(** [for (let attempt = ..; attempt <= maxRetries; attempt++)] with
    [remaining] passes still to make; the [catch] records the error,
    sleeps and goes round again. *)
Fixpoint retryLoop (remaining : nat) (attempt : Z) (lastErr : error) (tx : Tx)
  : Eff (Run W) ExecReport :=
  match remaining with
  | O => throw lastErr
  | S remaining' =>
      try_catch (attemptOnce attempt tx)
        (fun err =>
           (sleep (backoffMs attempt) ;;
            retryLoop remaining' (attempt + 1) err tx)%eff)
  end.

Definition executeTransaction (tx : Tx) (config : BotConfig)
  : Eff (Run W) ExecReport :=
  let tx := setGasBudget (gasBudget config) tx in
  if dryRun config then
    (call_dryRun tx ;;
     ret (mkExecReport "dry-run" true))%eff
  else if negb (confirm config) then
    ret (mkExecReport "aborted-no-confirm" false)
  else
    retryLoop (Z.to_nat (maxRetries config + 1)) 0 UndefinedThrown tx.

End Wrapper.

End SuiWallet.

(** ** index.ts: the rebalance sequence *)

Module Orchestrator.

Import Utils Config Strategy SuiWallet.

(** The data-source and transaction-builder interface of [CetusClient]. *)
Class CetusClient (W Tx : Type) : Type := {
  buildCollectFeeTx : string -> W -> result Tx * W;
  buildRemoveLiquidityTx : string -> Z -> Z -> W -> result Tx * W;
  buildSwapTx : bool -> Z -> Z -> W -> result Tx * W;
  buildAddLiquidityTx : string -> Z -> Z -> Z -> Z -> Z -> W -> result Tx * W;
  fetchPoolState : W -> result PoolState * W;
  getTokenBalances : W -> result (Z * Z) * W
}.

Section Sequence.
Context {W Tx : Type} `{SuiClient W Tx} `{CetusClient W Tx}.

(** A call to a collaborator, recorded in the trace as it is made. *)
Definition external {A : Type} (ev : Event) (call : W -> result A * W)
  : Eff (Run W) A :=
  fun r =>
    let '(res, w') := call (world r) in
    (res, mkRun w' (trace r ++ [ev])).

Definition runRebalance (config : BotConfig) (positionId : string)
    (tickLower tickUpper newTickLower newTickUpper liquidity : Z)
  : Eff (Run W) string :=
  ((* 1. Collect fees *)
   collectTx <~ external (EvBuildCollectFee positionId)
                  (buildCollectFeeTx positionId) ;;
   collectResult <~ executeTransaction collectTx config ;;
   (* 2. Remove liquidity *)
   removeTx <~ external
                 (EvBuildRemoveLiquidity positionId liquidity (slippageBps config))
                 (buildRemoveLiquidityTx positionId liquidity (slippageBps config)) ;;
   removeResult <~ executeTransaction removeTx config ;;
   (* 3. Check if swap is needed *)
   poolState <~ external EvFetchPoolState fetchPoolState ;;
   balances <~ external EvGetTokenBalances getTokenBalances ;;
   let '(balanceA, balanceB) := balances in
   let target := computeTokenAmounts liquidity (currentPrice poolState)
                   newTickLower newTickUpper in
   let targetRatio :=
     if Rgt_dec (amountB target) 0
     then (amountA target / amountB target)%R else 1%R in
   let swapInfo := computeSwapNeeded balanceA balanceB targetRatio
                     (currentPrice poolState) (slippageBps config) in
   lastDigest <~
     match swapInfo with
     | Some plan =>
         swapTx <~ external
                     (EvBuildSwap (swapAtoB plan) (swapAmount plan) (slippageBps config))
                     (buildSwapTx (swapAtoB plan) (swapAmount plan) (slippageBps config)) ;;
         swapResult <~ executeTransaction swapTx config ;;
         ret (digest swapResult)
     | None => ret (digest removeResult)
     end ;;
   (* 4. Add liquidity at new range *)
   newBalances <~ external EvGetTokenBalances getTokenBalances ;;
   let '(newBalA, newBalB) := newBalances in
   addTx <~ external
              (EvBuildAddLiquidity positionId newTickLower newTickUpper
                 newBalA newBalB (slippageBps config))
              (buildAddLiquidityTx positionId newTickLower newTickUpper
                 newBalA newBalB (slippageBps config)) ;;
   addResult <~ executeTransaction addTx config ;;
   ret (digest addResult))%eff.

End Sequence.

End Orchestrator.

(** ** Vocabulary for statements about traces *)

Module Traces.

Import Utils SuiWallet.

(** An attempt succeeds when the call returns with status "success". *)
Definition succeeded (outcome : result ExecResponse) : bool :=
  match outcome with
  | Ok resp => bool_decide (resp_status resp = Some "success")
  | Throw _ => false
  end.

(** The exception a failed attempt leaves in [lastErr]. *)
Definition error_of (outcome : result ExecResponse) : error :=
  match outcome with
  | Ok resp => TransactionFailed (failure_reason resp)
  | Throw e => e
  end.

(** The calls made by a run of failed attempts numbered from [attempt]:
    each broadcast is followed by a sleep of [backoffMs] of its number. *)
Fixpoint failed_attempts (attempt : Z) (outcomes : list (result ExecResponse))
  : list Event :=
  match outcomes with
  | [] => []
  | outcome :: rest =>
      EvBroadcast attempt outcome :: EvSleep (backoffMs attempt)
        :: failed_attempts (attempt + 1) rest
  end.

Definition last_error (init : error) (outcomes : list (result ExecResponse))
  : error :=
  match last outcomes with
  | Some outcome => error_of outcome
  | None => init
  end.

Definition is_broadcast (ev : Event) : bool :=
  match ev with
  | EvBroadcast _ _ => true
  | _ => false
  end.

Definition broadcast_count (evs : list Event) : nat :=
  length (filter (fun ev => is_broadcast ev = true) evs).

(** A computation that may call collaborators but never broadcasts. *)
Definition never_broadcasts {W A : Type} (m : Eff (Run W) A) : Prop :=
  forall r : Run W,
    exists evs : list Event,
      trace (snd (m r)) = trace r ++ evs /\ broadcast_count evs = 0%nat.

End Traces.

(** ** Vocabulary for statements about the rebalance sequence *)

Module Sequences.

Import Utils Config Strategy SuiWallet.

(** The swap [runRebalance] decides on in step 3, from the pool state and
    the balances it has just fetched. *)
Definition planned_swap (config : BotConfig) (liquidity newTickLower newTickUpper : Z)
    (poolState : PoolState) (balanceA balanceB : Z) : option SwapPlan :=
  let target := computeTokenAmounts liquidity (currentPrice poolState)
                  newTickLower newTickUpper in
  let targetRatio :=
    if Rgt_dec (amountB target) 0
    then (amountA target / amountB target)%R else 1%R in
  computeSwapNeeded balanceA balanceB targetRatio
    (currentPrice poolState) (slippageBps config).

Definition swap_events (config : BotConfig) (plan : option SwapPlan) : list Event :=
  match plan with
  | Some p => [EvBuildSwap (swapAtoB p) (swapAmount p) (slippageBps config)]
  | None => []
  end.

End Sequences.

(** ** Vocabulary for statements about the strategy engine *)

Module StrategyTerms.

Import Utils Config Strategy.
Local Open Scope R_scope.

(** The decision taken once a trigger has fired: the new range if it can
    be computed, the exception of [computeNewTickRange] otherwise. *)
Definition rebalance_with (why : RebalanceTrigger) (drift : R)
    (newRange : result TickRange) : result StrategyDecision :=
  match newRange with
  | Ok range =>
      Ok (mkStrategyDecision true why drift
            (Some (tickLower range)) (Some (tickUpper range)))
  | Throw e => Throw e
  end.

(** The signed amount of token A to sell, the portfolio value in token-A
    units, and the amount handed to the swap, as the source computes them. *)
Definition swap_x (balanceA balanceB : Z) (targetRatioAtoB currentPrice : R) : R :=
  (IZR balanceA - targetRatioAtoB * IZR balanceB)
  / (1 + targetRatioAtoB * currentPrice).

Definition totalValueInA (balanceA balanceB : Z) (currentPrice : R) : R :=
  IZR balanceA + IZR balanceB / currentPrice.

Definition floored_amount (x currentPrice : R) : Z :=
  if Rgt_dec x 0 then Math_floor x else Math_floor (Rabs x * currentPrice).

End StrategyTerms.

(** ** The orchestrator's use of the state store *)

Module Store.

Import Persistence.
Local Open Scope Z_scope.

(** One recorded rebalance as index.ts performs it:
    [state = updateStateAfterRebalance(..); saveState(STATE_FILE, state)]. *)
Record Recorded : Type := mkRecorded {
  rec_now : Z;
  rec_positionId : string;
  rec_tickLower : Z;
  rec_tickUpper : Z;
  rec_liquidity : Z;
  rec_txDigest : string
}.

Definition recordRebalance `{Json} (statePath : string)
    (store : BotState * FileSystem) (r : Recorded) : BotState * FileSystem :=
  let state := updateStateAfterRebalance (rec_now r) (fst store)
                 (rec_positionId r) (rec_tickLower r) (rec_tickUpper r)
                 (rec_liquidity r) (rec_txDigest r) in
  (state, saveState (snd store) statePath state).

End Store.

(** ** Fixtures: the inputs of the test suites and small concrete worlds *)

Module Fixtures.

Import Utils Config Strategy RiskChecks SuiWallet Orchestrator.
Local Open Scope Z_scope.

Definition basePool : PoolState := mkPoolState 0 1%R 10 18446744073709551616.
Definition basePosition : PositionState := mkPositionState (-200) 200 1000000 100 200.
Definition baseConfig : BotConfig :=
  mkBotConfig mode_price_band (3 / 2)%R (1 / 2)%R 60 50 500000000 3 true false.

(** Reading a string that is a decimal numeral, as [parseInt] does on the
    content the guard writes. *)
Definition parse_decimal (s : string) : option Z :=
  Z.of_int <$> NilZero.int_of_string s.

(** A process table in which only process 100 and the bot itself, 4242,
    are alive. *)
Definition example_platform : Platform := {|
  process_pid := 4242;
  process_kill0 := fun pid =>
    if (pid =? 100) || (pid =? 4242) then KillDelivered
    else KillThrows (ErrnoException "ESRCH");
  parseInt := parse_decimal;
  String_trim := fun s => s;
  String_of_pid := pretty
|}.

Definition lock_path : string := "bot.lock".

Definition disk_with (content : string) : Disk :=
  mkDisk {[ lock_path := content ]} [].

(** A node that times out on the first call, reports a failed execution
    on the second and succeeds on the third; the world counts the calls. *)
Definition flaky_response (calls : nat) : result ExecResponse :=
  match calls with
  | O => Throw (ExternalError "request timed out")
  | S O => Ok (mkExecResponse "0xbad" (Some "failure") (Some "InsufficientGas"))
  | _ => Ok (mkExecResponse "0xfeed" (Some "success") None)
  end.

Definition flaky_client : SuiClient nat unit := {|
  setGasBudget := fun _ tx => tx;
  buildAndDryRun := fun _ w => (Ok tt, w);
  signAndExecuteTransaction := fun _ calls => (flaky_response calls, S calls);
  sleep_world := fun _ w => w
|}.

Definition live_config (retries : Z) (confirmed : bool) : BotConfig :=
  mkBotConfig mode_price_band (3 / 2)%R (1 / 2)%R 60 50 500000000 retries false confirmed.

(** Builders and a data source that always answer, over an empty wallet;
    the world counts the calls. *)
Definition calm_cetus : CetusClient nat unit := {|
  buildCollectFeeTx := fun _ w => (Ok tt, S w);
  buildRemoveLiquidityTx := fun _ _ _ w => (Ok tt, S w);
  buildSwapTx := fun _ _ _ w => (Ok tt, S w);
  buildAddLiquidityTx := fun _ _ _ _ _ _ w => (Ok tt, S w);
  fetchPoolState := fun w => (Ok basePool, S w);
  getTokenBalances := fun w => (Ok (0, 0), S w)
|}.

End Fixtures.
From Stdlib Require PrimFloat SpecFloat FloatOps.

(** ** strategy.ts: swap sizing as the engine computes it, in binary64

    [computeSwapNeeded] compares and floors the numbers it computes, so
    its outcome can turn on one rounding. Here the function is embedded
    with JavaScript's own arithmetic: a [number] is an IEEE-754 double,
    every operation rounds to nearest, ties to even. *)

Module Doubles.

Import Strategy.
Import PrimFloat SpecFloat FloatOps.
Local Open Scope float_scope.

(** [Number(n)] for a [bigint]: the nearest double, ties to even, and
    [Infinity] beyond the largest double. *)
Definition Number (n : Z) : float :=
  SF2Prim (binary_normalize prec emax n 0 false).

(** [BigInt(Math.floor(x))]: [Math.floor] of a finite double is a double
    with an integer value, which [BigInt] converts exactly; for [NaN] and
    the infinities [BigInt] throws a RangeError. *)
Definition BigInt_of_floor (x : float) : result Z :=
  match Prim2SF x with
  | S754_zero _ => Ok 0%Z
  | S754_finite s m e =>
      let n := if s then Zneg m else Zpos m in
      Ok (if (0 <=? e)%Z then (n * 2 ^ e)%Z else (n / 2 ^ (- e))%Z)
  | S754_infinity _ | S754_nan =>
      Throw (RangeError "The number cannot be converted to a BigInt")
  end.

(** [tolerance = 0.05]: the double nearest to one twentieth. *)
Definition tolerance : float := 0x1.999999999999ap-5.

(** [null] is [None]. *)
Definition computeSwapNeeded (balanceA balanceB : Z)
    (targetRatioAtoB currentPrice : float) (slippageBps : Z)
  : result (option SwapPlan) :=
  let bA := Number balanceA in
  let bB := Number balanceB in
  if ((targetRatioAtoB <=? 0) || (bA + bB =? 0))%bool then Ok None
  else
    let x := (bA - targetRatioAtoB * bB) / (1 + targetRatioAtoB * currentPrice) in
    (* Skip tiny swaps (< 5% of total value in A terms) *)
    let totalValueInA := bA + bB / currentPrice in
    if abs x <? tolerance * totalValueInA then Ok None
    else if 0 <? x then
      (swapAmount <- BigInt_of_floor x ;;;
       if (swapAmount =? 0)%Z then Ok None
       else Ok (Some (mkSwapPlan true swapAmount)))%result
    else
      let bAmount := abs x * currentPrice in
      (swapAmount <- BigInt_of_floor bAmount ;;;
       if (swapAmount =? 0)%Z then Ok None
       else Ok (Some (mkSwapPlan false swapAmount)))%result.

End Doubles.

(** ** Vocabulary for statements about the swap sizing in binary64 *)

Module DoubleTerms.

Import PrimFloat SpecFloat FloatOps.
Import Doubles.
Local Open Scope float_scope.

(** The signed amount of token A to sell, the portfolio value in token-A
    units and the amount that is floored, each as the doubles the source
    computes. *)
Definition x_double (balanceA balanceB : Z) (targetRatioAtoB currentPrice : float)
  : float :=
  (Number balanceA - targetRatioAtoB * Number balanceB)
  / (1 + targetRatioAtoB * currentPrice).

Definition totalValueInA_double (balanceA balanceB : Z) (currentPrice : float)
  : float :=
  Number balanceA + Number balanceB / currentPrice.

Definition amount_to_floor (x currentPrice : float) : float :=
  if 0 <? x then x else abs x * currentPrice.

(** The real number a finite double stands for (0 for the others). *)
Definition real_value (x : float) : R :=
  match Prim2SF x with
  | S754_finite s m e =>
      ((if s then -1 else 1) * IZR (Zpos m) * powerRZ 2 e)%R
  | _ => 0%R
  end.

End DoubleTerms.

(** ** Vocabulary for statements about the retry loop *)

Module AttemptTerms.

Import Utils SuiWallet.
Local Open Scope Z_scope.

Section Attempts.
Context {W Tx : Type} `{SuiClient W Tx}.

(** The world in which attempt number [attempt + k] is made, when the
    attempts numbered [attempt], .., [attempt + k - 1] have failed, the
    first of them made in [w]: each failed attempt leaves the world of
    its call, and is followed by the sleep of its backoff. *)
Fixpoint world_at (tx : Tx) (attempt : Z) (w : W) (k : nat) : W :=
  match k with
  | O => w
  | S k' =>
      world_at tx (attempt + 1)
        (sleep_world (backoffMs attempt) (snd (signAndExecuteTransaction tx w))) k'
  end.

(** What the node answers to these [k] attempts, in order. *)
Fixpoint outcomes (tx : Tx) (attempt : Z) (w : W) (k : nat)
  : list (result ExecResponse) :=
  match k with
  | O => []
  | S k' =>
      fst (signAndExecuteTransaction tx w)
        :: outcomes tx (attempt + 1)
             (sleep_world (backoffMs attempt) (snd (signAndExecuteTransaction tx w))) k'
  end.

End Attempts.

End AttemptTerms.


(** ** Vocabulary for further statements about tick math *)

Module TickTerms.

Import Utils.
Local Open Scope R_scope.

(** The tick [priceToTick] aligns before clamping. *)
Definition aligned_raw (price : R) (s : Z) (round : Rounding) : Z :=
  match round with
  | RoundFloor => (Math_floor (ln price / LOG_TICK_BASE / IZR s) * s)%Z
  | RoundCeil => (Math_ceil (ln price / LOG_TICK_BASE / IZR s) * s)%Z
  | RoundNearest => (Math_round (ln price / LOG_TICK_BASE / IZR s) * s)%Z
  end.

End TickTerms.

(** ** Vocabulary and fixtures for the state store and the lock *)

Module StoreTerms.

Import Persistence RiskChecks Fixtures.
Local Open Scope Z_scope.

(** A state as the object [JSON.parse] gives back for its own
    [JSON.stringify]: every field that is set, and the counter. *)
Definition as_partial (state : BotState) : PartialBotState :=
  {| p_lastRebalanceTime := lastRebalanceTime state;
     p_lastPositionId := lastPositionId state;
     p_lastTickLower := lastTickLower state;
     p_lastTickUpper := lastTickUpper state;
     p_lastLiquidity := lastLiquidity state;
     p_totalRebalances := Some (totalRebalances state);
     p_lastTxDigest := lastTxDigest state |}.

(** A codec for states that hold nothing but the counter, written as a
    decimal numeral. *)
Definition counter_codec : Json := {|
  JSON_stringify := fun state => pretty (totalRebalances state);
  JSON_parse := fun raw =>
    (fun n => mkPartialBotState None None None None None (Some n) None)
      <$> parse_decimal raw
|}.

(** A second bot process, 100, that sees the first one, 4242, alive. *)
Definition second_platform : Platform := {|
  process_pid := 100;
  process_kill0 := fun pid =>
    if (pid =? 100) || (pid =? 4242) then KillDelivered
    else KillThrows (ErrnoException "ESRCH");
  parseInt := parse_decimal;
  String_trim := fun s => s;
  String_of_pid := pretty
|}.

(** A process table in which probing process 77 is not permitted. *)
Definition guarded_platform : Platform := {|
  process_pid := 4242;
  process_kill0 := fun pid =>
    if (pid =? 77) then KillThrows (ErrnoException "EPERM") else KillDelivered;
  parseInt := parse_decimal;
  String_trim := fun s => s;
  String_of_pid := pretty
|}.

End StoreTerms.

(** ** More vocabulary for traces *)

Module TraceTerms.

Import SuiWallet.
Local Open Scope Z_scope.

(** The time slept in a run of calls, in milliseconds. *)
Fixpoint slept (evs : list Event) : Z :=
  match evs with
  | [] => 0
  | EvSleep ms :: rest => ms + slept rest
  | _ :: rest => slept rest
  end.

End TraceTerms.

(** ** notifications.ts: alerts *)

Module Notifications.

Inductive NotificationType : Type :=
  | rebalance_start
  | rebalance_success
  | rebalance_failure
  | info.

Inductive Network : Type := mainnet | testnet.

Record NotificationPayload : Type := mkPayload {
  ntype : NotificationType;
  message : string;
  txDigest : option string;
  network : option Network
}.

(** [sendNotification], the HTTP post to the webhook: it may change the
    world and may throw. Its choice between the Telegram API and a plain
    post is not modelled. *)
Class Notifier (W : Type) : Type := {
  sendNotification : string -> NotificationPayload -> W -> result unit * W
}.

(** A state with a world inside, and the notifications handed to
    [sendNotification] so far. *)
Record Outbox (W : Type) : Type := mkOutbox {
  outside : W;
  sent : list (string * NotificationPayload)
}.
Arguments mkOutbox {W} outside sent.
Arguments outside {W} o.
Arguments sent {W} o.

Definition call_sendNotification {W : Type} `{Notifier W}
    (webhookUrl : string) (payload : NotificationPayload) : Eff (Outbox W) unit :=
  fun o =>
    let '(res, w') := sendNotification webhookUrl payload (outside o) in
    (res, mkOutbox w' (sent o ++ [(webhookUrl, payload)])).

(** [if (!webhookUrl) return;] holds for [undefined] and for the empty
    string; the [catch] only logs. *)
Definition notify {W : Type} `{Notifier W}
    (webhookUrl : option string) (payload : NotificationPayload)
  : Eff (Outbox W) unit :=
  match webhookUrl with
  | None => ret tt
  | Some url =>
      if bool_decide (url = "") then ret tt
      else try_catch (call_sendNotification url payload) (fun _ => ret tt)
  end.

End Notifications.

(** ** config.ts: loading the configuration *)

Module ConfigLoader.

Import Config.

(** What [yaml.load] yields for the config file, read as
    [Partial<BotConfig>]: each key present or not. *)
Record FileConfig : Type := mkFileConfig {
  f_rebalanceMode : option string;
  f_priceBandPct : option R;
  f_driftTriggerPct : option R;
  f_minIntervalSeconds : option Z;
  f_slippageBps : option Z;
  f_gasBudget : option Z;
  f_maxRetries : option Z;
  f_dryRun : option bool;
  f_confirm : option bool
}.

Definition empty_file : FileConfig :=
  mkFileConfig None None None None None None None None None.

(** The built-ins the loader calls. [parseFloat] and [parseIntJs] are
    [None] for [NaN]; [BigInt_of_string] and [yaml_load] may throw;
    [mode_cast] stands for the unchecked cast of a string to the
    rebalance-mode type. *)
Class Builtins : Type := {
  parseFloat : string -> option R;
  parseIntJs : string -> option Z;
  BigInt_of_string : string -> result Z;
  yaml_load : string -> result FileConfig;
  mode_cast : string -> RebalanceMode
}.

(** [a || b] on operands that are strings, numbers or [undefined]: the
    left one unless it is falsy (undefined, "", 0, NaN). *)
Definition truthy_string (o : option string) : option string :=
  match o with
  | Some s => if bool_decide (s = "") then None else Some s
  | None => None
  end.

Definition truthy_Z (o : option Z) : option Z :=
  match o with
  | Some n => if (n =? 0)%Z then None else Some n
  | None => None
  end.

Definition truthy_R (o : option R) : option R :=
  match o with
  | Some x => if Req_dec_T x 0 then None else Some x
  | None => None
  end.

Definition or_else {A : Type} (o : option A) (otherwise : A) : A :=
  match o with
  | Some a => a
  | None => otherwise
  end.

Definition first_of {A : Type} (o1 o2 : option A) : option A :=
  match o1 with
  | Some a => Some a
  | None => o2
  end.

(** [process.env.X || ""] *)
Definition env_or_empty (env : gmap string string) (name : string) : string :=
  or_else (truthy_string (env !! name)) "".

Definition default_config_path : string := "config/config.yaml".

Definition loadYamlConfig `{Builtins} (fs : gmap string string)
    (configPath : string) : result FileConfig :=
  match fs !! configPath with
  | None => Ok empty_file
  | Some raw => yaml_load raw
  end.

Definition loadConfig `{Builtins} (env fs : gmap string string)
    (configFilePath : option string) : result BotConfig :=
  let yamlPath :=
    or_else (first_of (truthy_string configFilePath)
                      (truthy_string (env !! "CONFIG_FILE")))
            default_config_path in
  (file <- loadYamlConfig fs yamlPath ;;;
   let dryRun :=
     bool_decide (env !! "DRY_RUN" = Some "true")
     || bool_decide (f_dryRun file = Some true)
     || true in
   let confirm :=
     bool_decide (env !! "CONFIRM" = Some "true")
     || bool_decide (f_confirm file = Some true)
     || false in
   (* BigInt(env.GAS_BUDGET || String(file.gasBudget || 500_000_000)); for an
      integer the trip through String and BigInt gives the integer back *)
   gasBudget <-
     match truthy_string (env !! "GAS_BUDGET") with
     | Some text => BigInt_of_string text
     | None => Ok (or_else (truthy_Z (f_gasBudget file)) 500000000%Z)
     end ;;;
   Ok {| rebalanceMode :=
           mode_cast
             (or_else (first_of (truthy_string (env !! "REBALANCE_MODE"))
                                (truthy_string (f_rebalanceMode file)))
                      "price_band");
         priceBandPct :=
           or_else (first_of (truthy_R (parseFloat (env_or_empty env "PRICE_BAND_PCT")))
                             (truthy_R (f_priceBandPct file)))
                   (3 / 2)%R;
         driftTriggerPct :=
           or_else (first_of (truthy_R (parseFloat (env_or_empty env "DRIFT_TRIGGER_PCT")))
                             (truthy_R (f_driftTriggerPct file)))
                   (1 / 2)%R;
         minIntervalSeconds :=
           or_else (first_of (truthy_Z (parseIntJs (env_or_empty env "MIN_INTERVAL_SECONDS")))
                             (truthy_Z (f_minIntervalSeconds file)))
                   60%Z;
         slippageBps :=
           or_else (first_of (truthy_Z (parseIntJs (env_or_empty env "SLIPPAGE_BPS")))
                             (truthy_Z (f_slippageBps file)))
                   50%Z;
         Config.gasBudget := gasBudget;
         maxRetries :=
           or_else (first_of (truthy_Z (parseIntJs (env_or_empty env "MAX_RETRIES")))
                             (truthy_Z (f_maxRetries file)))
                   3%Z;
         Config.dryRun := dryRun;
         Config.confirm := confirm |})%result.

End ConfigLoader.

(** ** index.ts: one pass of the polling loop *)

Module MainLoop.

Import Utils Config Strategy Persistence SuiWallet Orchestrator Notifications.
Local Open Scope Z_scope.

(** The rest of the data source, the clock, and the wording of alerts. *)
Class PositionSource (W : Type) : Type := {
  fetchPositionState : W -> result (string * PositionState) * W
}.

Class Clock (W : Type) : Type := {
  Date_now : W -> Z
}.

(** The texts of the three alerts, built from the values they mention
    ([err.message] or [String(err)] for a failure). *)
Class Wording : Type := {
  start_message : RebalanceTrigger -> R -> Z -> Z -> string;
  success_message : Z -> Z -> string;
  failure_message : error -> string
}.

(** [saveState] can fail: [mkdirSync] and [writeFileSync] throw when the
    operating system refuses (EACCES, ENOSPC, ..). Whether the write at a
    path fails is up to the outside world; a write that fails is taken to
    leave the files as they were. *)
Class DiskFaults (W : Type) : Type := {
  write_fault : W -> string -> option error
}.

(** The settings the loop reads besides those of [BotConfig]. *)
Record Settings : Type := mkSettings {
  telegramWebhook : option string;
  suiRpcUrl : string;
  STATE_FILE : string
}.

(** [config.suiRpcUrl.includes("testnet") ? "testnet" : "mainnet"] *)
Definition network_of (rpcUrl : string) : Network :=
  match String.index 0 "testnet" rpcUrl with
  | Some _ => testnet
  | None => mainnet
  end.

(** What one pass works on: the chain and its trace, the files, the
    alerts sent, and the loop's [state] variable. *)
Record Bot (W : Type) : Type := mkBot {
  chain : Run W;
  disk : FileSystem;
  alerts : list (string * NotificationPayload);
  state : BotState
}.
Arguments mkBot {W} chain disk alerts state.
Arguments chain {W} b.
Arguments disk {W} b.
Arguments alerts {W} b.
Arguments state {W} b.

Section Pass.
Context {W Tx : Type} `{SuiClient W Tx} `{CetusClient W Tx}
  `{PositionSource W} `{Clock W} `{Notifier W} `{Wording} `{Json}
  `{DiskFaults W}.

(** Running a computation on the chain inside the bot. *)
Definition on_chain {A : Type} (m : Eff (Run W) A) : Eff (Bot W) A :=
  fun b =>
    let '(res, r') := m (chain b) in
    (res, mkBot r' (disk b) (alerts b) (state b)).

(** Running [notify] inside the bot. *)
Definition alert (webhookUrl : option string) (payload : NotificationPayload)
  : Eff (Bot W) unit :=
  fun b =>
    let '(res, o') := notify webhookUrl payload
                        (mkOutbox (world (chain b)) (alerts b)) in
    (res, mkBot (mkRun (outside o') (trace (chain b))) (disk b) (sent o') (state b)).

Definition now : Eff (Bot W) Z :=
  fun b => (Ok (Date_now (world (chain b))), b).

Definition call_fetchPositionState : Eff (Bot W) (string * PositionState) :=
  fun b =>
    let '(res, w') := fetchPositionState (world (chain b)) in
    (res, mkBot (mkRun w' (trace (chain b))) (disk b) (alerts b) (state b)).

Definition lift_result {A : Type} (r : result A) : Eff (Bot W) A :=
  fun b => (r, b).

Definition read_state : Eff (Bot W) BotState :=
  fun b => (Ok (state b), b).

(** [state = updateStateAfterRebalance(state, ..)], with the clock read
    by [Date.now()] inside it. *)
Definition assign_updated_state (positionId : string)
    (tickLower tickUpper liquidity : Z) (txDigest : string) : Eff (Bot W) unit :=
  fun b =>
    (Ok tt,
     mkBot (chain b) (disk b) (alerts b)
       (updateStateAfterRebalance (Date_now (world (chain b))) (state b)
          positionId tickLower tickUpper liquidity txDigest)).

(** [saveState(STATE_FILE, state)]: it writes the file, or throws the
    error of the refused write. *)
Definition save_current_state (statePath : string) : Eff (Bot W) unit :=
  fun b =>
    match write_fault (world (chain b)) statePath with
    | Some e => (Throw e, b)
    | None =>
        (Ok tt,
         mkBot (chain b) (saveState (disk b) statePath (state b)) (alerts b) (state b))
    end.

(** [state.lastRebalanceTime] read as a condition: set and not 0. *)
Definition truthy_time (t : option Z) : bool :=
  match t with
  | Some n => negb (n =? 0)
  | None => false
  end.

(** The body of the [try] block of the loop. *)
Definition pollAndAct (config : BotConfig) (settings : Settings) (loopStart : Z)
  : Eff (Bot W) unit :=
  (st <~ read_state ;;
   (* Rate-limit by MIN_INTERVAL_SECONDS *)
   let elapsed := loopStart - default 0 (lastRebalanceTime st) in
   let remaining := minIntervalSeconds config * 1000 - elapsed in
   (if (0 <? remaining) && truthy_time (lastRebalanceTime st)
    then on_chain (sleep remaining) else ret tt) ;;
   (* Fetch pool + position state *)
   poolState <~ on_chain (external EvFetchPoolState fetchPoolState) ;;
   positionData <~ call_fetchPositionState ;;
   let '(positionId, position) := positionData in
   (* Evaluate strategy *)
   decision <~ lift_result (evaluateStrategy poolState position config) ;;
   match shouldRebalance decision, newTickLower decision, newTickUpper decision with
   | true, Some newLower, Some newUpper =>
       alert (telegramWebhook settings)
         (mkPayload rebalance_start
            (start_message (trigger decision) (currentDriftPct decision)
               newLower newUpper)
            None (Some (network_of (suiRpcUrl settings)))) ;;
       if dryRun config then ret tt
       else
         txDigest <~ on_chain
                       (runRebalance config positionId
                          (pos_tickLower position) (pos_tickUpper position)
                          newLower newUpper (liquidity position)) ;;
         assign_updated_state positionId newLower newUpper
           (liquidity position) txDigest ;;
         save_current_state (STATE_FILE settings) ;;
         alert (telegramWebhook settings)
           (mkPayload rebalance_success (success_message newLower newUpper)
              (Some txDigest) (Some (network_of (suiRpcUrl settings))))
   | _, _, _ => ret tt
   end)%eff.

(** One pass of [while (true)]: the guarded body, then the sleep until
    the next poll. *)
Definition loopIteration (config : BotConfig) (settings : Settings)
  : Eff (Bot W) unit :=
  (loopStart <~ now ;;
   try_catch (pollAndAct config settings loopStart)
     (fun err =>
        alert (telegramWebhook settings)
          (mkPayload rebalance_failure (failure_message err) None None)) ;;
   finished <~ now ;;
   let elapsed := finished - loopStart in
   let wait := Z.max 0 (minIntervalSeconds config * 1000 - elapsed) in
   on_chain (sleep wait))%eff.

End Pass.

End MainLoop.

(** ** Vocabulary and fixtures for the loop *)

Module LoopTerms.

Import Config Strategy Persistence SuiWallet Orchestrator Notifications
  ConfigLoader MainLoop Traces Fixtures.
Local Open Scope Z_scope.

(** A computation on a chain that only adds calls to the trace. *)
Definition appends_run {W A : Type} (m : Eff (Run W) A) : Prop :=
  forall r : Run W, exists evs : list Event, trace (snd (m r)) = trace r ++ evs.

(** A computation of the bot whose end is related to its start. *)
Definition respects {W A : Type} (R : Bot W -> Bot W -> Prop) (m : Eff (Bot W) A)
  : Prop :=
  forall b : Bot W, R b (snd (m b)).

(** The trace only grows. *)
Definition trace_grows {W : Type} (b b' : Bot W) : Prop :=
  exists evs : list Event, trace (chain b') = trace (chain b) ++ evs.

(** The loop's [state] variable and the files are as before. *)
Definition same_store {W : Type} (b b' : Bot W) : Prop :=
  state b' = state b /\ disk b' = disk b.


Definition is_success (alert : string * NotificationPayload) : bool :=
  match ntype (snd alert) with
  | rebalance_success => true
  | _ => false
  end.

(** The alerts only grow, and by no success alert. *)
Definition no_success_alert {W : Type} (b b' : Bot W) : Prop :=
  exists new : list (string * NotificationPayload),
    alerts b' = alerts b ++ new
    /\ forallb (fun a => negb (is_success a)) new = true.

(** The calls of a pass that only watches: polling the pool and sleeping. *)
Definition is_poll (ev : Event) : bool :=
  match ev with
  | EvFetchPoolState | EvSleep _ => true
  | _ => false
  end.

(** The trace only grows, and by polls. *)
Definition only_polls {W : Type} (b b' : Bot W) : Prop :=
  exists evs : list Event,
    trace (chain b') = trace (chain b) ++ evs /\ forallb is_poll evs = true.

Definition appends {W A : Type} (m : Eff (Bot W) A) : Prop :=
  respects trace_grows m.
Definition steady {W A : Type} (m : Eff (Bot W) A) : Prop :=
  respects same_store m.
Definition never_reports_success {W A : Type} (m : Eff (Bot W) A) : Prop :=
  respects no_success_alert m.
Definition watches {W A : Type} (m : Eff (Bot W) A) : Prop :=
  respects only_polls m.



(** Built-ins that read decimal integers only. *)
Definition decimal_builtins : Builtins := {|
  parseFloat := fun s => IZR <$> parse_decimal s;
  parseIntJs := parse_decimal;
  BigInt_of_string := fun s =>
    match parse_decimal s with
    | Some n => Ok n
    | None => Throw (ExternalError "SyntaxError: Cannot convert to a BigInt")
    end;
  yaml_load := fun _ => Ok empty_file;
  mode_cast := fun s => if bool_decide (s = "drift") then mode_drift else mode_price_band
|}.

(** A world that is a clock in milliseconds: sleeping advances it. *)
Definition clock_client : SuiClient Z unit := {|
  setGasBudget := fun _ tx => tx;
  buildAndDryRun := fun _ w => (Ok tt, w);
  signAndExecuteTransaction := fun _ w =>
    (Ok (mkExecResponse "0xfeed" (Some "success") None), w);
  sleep_world := fun ms w => w + ms
|}.

Definition clock_cetus : CetusClient Z unit := {|
  buildCollectFeeTx := fun _ w => (Ok tt, w);
  buildRemoveLiquidityTx := fun _ _ _ w => (Ok tt, w);
  buildSwapTx := fun _ _ _ w => (Ok tt, w);
  buildAddLiquidityTx := fun _ _ _ _ _ _ w => (Ok tt, w);
  fetchPoolState := fun w => (Ok basePool, w);
  getTokenBalances := fun w => (Ok (0, 0), w)
|}.

Definition clock_position : PositionSource Z := {|
  fetchPositionState := fun w => (Ok ("0xposition", basePosition), w)
|}.

(** A position the pool's tick has left: price 1 is at tick 0. *)
Definition strandedPosition : PositionState :=
  mkPositionState 100 300 1000000 0 0.

Definition stranded_position : PositionSource Z := {|
  fetchPositionState := fun w => (Ok ("0xposition", strandedPosition), w)
|}.

Definition clock_clock : Clock Z := {| Date_now := fun w => w |}.

(** A disk that takes every write, and one that is full. *)
Definition sound_disk : DiskFaults Z := {| write_fault := fun _ _ => None |}.

Definition full_disk : DiskFaults Z := {|
  write_fault := fun _ _ => Some (ErrnoException "ENOSPC")
|}.

(** A webhook that is down. *)
Definition failing_notifier : Notifier Z := {|
  sendNotification := fun _ _ w => (Throw (ExternalError "ECONNREFUSED"), w)
|}.

Definition plain_wording : Wording := {|
  start_message := fun _ _ _ _ => "Rebalance triggered";
  success_message := fun _ _ => "Rebalance complete!";
  failure_message := fun _ => "Bot error"
|}.

Definition example_settings : Settings :=
  mkSettings (Some "https://example.org/hook")
    "https://fullnode.mainnet.sui.io:443" "state.json".

(** A bot whose clock reads [clock] and whose last rebalance, if any, was
    recorded at [last]. *)
Definition bot_at (clock : Z) (last : option Z) : Bot Z :=
  mkBot (mkRun clock []) ∅ []
    (mkBotState last None None None None 0 None).

End LoopTerms.

(** * Properties *)

(** ** Rounding to integers *)

Module UtilsFacts.

Import Utils.
Local Open Scope R_scope.

Lemma Math_floor_bounds (x : R) :
  IZR (Math_floor x) <= x < IZR (Math_floor x) + 1.
Proof.
  unfold Math_floor. destruct (base_Int_part x) as [Hle Hgt]. lra.
Qed.

Lemma Math_floor_unique (x : R) (z : Z) :
  IZR z <= x < IZR z + 1 -> Math_floor x = z.
Proof.
  intros [Hle Hlt]. unfold Math_floor. symmetry.
  apply Int_part_spec. lra.
Qed.

Lemma Math_floor_IZR (z : Z) : Math_floor (IZR z) = z.
Proof. apply Math_floor_unique. lra. Qed.

(** On a quotient of integers [Math.floor] is integer division. *)
Lemma Math_floor_quotient (a b : Z) :
  (0 < b)%Z -> Math_floor (IZR a / IZR b) = (a / b)%Z.
Proof.
  intros Hb. apply Math_floor_unique.
  assert (HbR : 0 < IZR b) by (apply IZR_lt; exact Hb).
  pose proof (Z.div_mod a b ltac:(lia)) as Hdm.
  pose proof (Z.mod_pos_bound a b Hb) as [Hm0 Hm1].
  assert (Ha : IZR a = IZR b * IZR (a / b) + IZR (a mod b)).
  { rewrite <- mult_IZR, <- plus_IZR. f_equal. exact Hdm. }
  apply IZR_le in Hm0. apply IZR_lt in Hm1.
  split.
  - apply Rmult_le_reg_l with (IZR b); [exact HbR|].
    unfold Rdiv. rewrite <- Rmult_assoc, (Rmult_comm (IZR b) (IZR a)).
    rewrite Rmult_assoc, Rinv_r by lra. lra.
  - apply Rmult_lt_reg_l with (IZR b); [exact HbR|].
    unfold Rdiv. rewrite <- Rmult_assoc, (Rmult_comm (IZR b) (IZR a)).
    rewrite Rmult_assoc, Rinv_r by lra. lra.
Qed.

Lemma Math_ceil_quotient (a b : Z) :
  (0 < b)%Z -> Math_ceil (IZR a / IZR b) = (- ((- a) / b))%Z.
Proof.
  intros Hb. unfold Math_ceil. f_equal.
  replace (- (IZR a / IZR b)) with (IZR (- a) / IZR b).
  - apply (Math_floor_quotient (- a) b Hb).
  - rewrite opp_IZR. unfold Rdiv. ring.
Qed.

Lemma minAligned_Z (s : Z) : (0 < s)%Z -> minAligned s = minAlignedZ s.
Proof.
  intros Hs. unfold minAligned, minAlignedZ.
  rewrite Math_ceil_quotient by exact Hs. reflexivity.
Qed.

Lemma maxAligned_Z (s : Z) : (0 < s)%Z -> maxAligned s = maxAlignedZ s.
Proof.
  intros Hs. unfold maxAligned, maxAlignedZ.
  rewrite Math_floor_quotient by exact Hs. reflexivity.
Qed.

(** [clampTick] evaluates by integer arithmetic. *)
Lemma clampTick_Z (tick s : Z) : (0 < s)%Z -> clampTick tick s = clampTickZ tick s.
Proof.
  intros Hs. unfold clampTick, clampTickZ.
  rewrite minAligned_Z, maxAligned_Z by exact Hs. reflexivity.
Qed.

Lemma minAligned_bounds (s : Z) :
  (0 < s)%Z -> (MIN_TICK <= minAligned s <= 0)%Z.
Proof.
  intros Hs. rewrite minAligned_Z by exact Hs. unfold minAlignedZ, MIN_TICK.
  pose proof (Z.mul_div_le 443636 s Hs) as Hle.
  pose proof (Z.div_pos 443636 s ltac:(lia) Hs) as Hq.
  change (- -443636)%Z with 443636%Z. nia.
Qed.

Lemma maxAligned_bounds (s : Z) :
  (0 < s)%Z -> (0 <= maxAligned s <= MAX_TICK)%Z.
Proof.
  intros Hs. rewrite maxAligned_Z by exact Hs. unfold maxAlignedZ, MAX_TICK.
  pose proof (Z.mul_div_le 443636 s Hs) as Hle.
  pose proof (Z.div_pos 443636 s ltac:(lia) Hs) as Hq.
  nia.
Qed.

Lemma minAligned_multiple (s : Z) : (s | minAligned s)%Z.
Proof. unfold minAligned. apply Z.divide_factor_r. Qed.

Lemma maxAligned_multiple (s : Z) : (s | maxAligned s)%Z.
Proof. unfold maxAligned. apply Z.divide_factor_r. Qed.

Lemma clampTick_cases (tick s : Z) :
  clampTick tick s = minAligned s \/ clampTick tick s = maxAligned s
  \/ clampTick tick s = tick.
Proof. unfold clampTick. lia. Qed.

Lemma clampTick_aligned_input (tick s : Z) :
  (s | tick)%Z -> (s | clampTick tick s)%Z.
Proof.
  intros Hd.
  destruct (clampTick_cases tick s) as [-> | [-> | ->]];
    auto using minAligned_multiple, maxAligned_multiple.
Qed.

Lemma clampTick_within (tick s : Z) :
  (0 < s)%Z ->
  (minAligned s <= clampTick tick s <= maxAligned s)%Z.
Proof.
  intros Hs.
  pose proof (minAligned_bounds s Hs). pose proof (maxAligned_bounds s Hs).
  unfold clampTick. lia.
Qed.

End UtilsFacts.

(** ** The tests of utils.test.ts that need no numerics *)

Module UtilsTests.

Import Utils UtilsFacts.
Local Open Scope R_scope.

Example clampTick_keeps_valid_tick : clampTick 100 1 = 100%Z.
Proof. rewrite clampTick_Z by lia. reflexivity. Qed.

Example clampTick_clamps_both_ends :
  (MIN_TICK <= clampTick (MIN_TICK - 1000) 1)%Z
  /\ (clampTick (MAX_TICK + 1000) 1 <= MAX_TICK)%Z.
Proof. rewrite !clampTick_Z by lia. split; vm_compute; discriminate. Qed.

Example isTickInRange_inclusive :
  isTickInRange 50 (-100) 100 = true
  /\ isTickInRange (-100) (-100) 100 = true
  /\ isTickInRange 100 (-100) 100 = true
  /\ isTickInRange 101 (-100) 100 = false
  /\ isTickInRange (-101) (-100) 100 = false.
Proof. repeat split. Qed.

Example backoffMs_doubles_and_caps :
  backoffMs 0 = 1000%Z /\ backoffMs 1 = 2000%Z /\ backoffMs 2 = 4000%Z
  /\ backoffMs 100 = 30000%Z.
Proof. repeat split. Qed.

Example priceToTick_one : priceToTick 1 1 RoundNearest = Ok 0%Z.
Proof.
  unfold priceToTick. destruct (Rle_dec 1 0) as [H | _]; [lra|].
  rewrite ln_1. unfold Math_round.
  replace (0 / LOG_TICK_BASE / 1 + 1 / 2) with (1 / 2) by (unfold Rdiv; ring).
  replace (Int_part (1 / 2)) with 0%Z.
  - rewrite clampTick_Z by lia. reflexivity.
  - apply Int_part_spec. lra.
Qed.

Example priceToTick_rejects_non_positive :
  priceToTick 0 1 RoundNearest = Throw (RangeError "price must be positive")
  /\ priceToTick (-1) 1 RoundNearest = Throw (RangeError "price must be positive").
Proof.
  unfold priceToTick. split.
  - destruct (Rle_dec 0 0); [reflexivity | lra].
  - destruct (Rle_dec (-1) 0); [reflexivity | lra].
Qed.

End UtilsTests.

(** ** Ticks produced by utils.ts *)

Module TickClaims.

Import Utils UtilsFacts.
Local Open Scope R_scope.

(** C6, as the specification words it, fails: [clampTick] only bounds its
    argument, so a tick strictly between the aligned bounds comes back
    unchanged, aligned or not. *)
Lemma clampTick_misaligned_counterexample :
  clampTick 7 10 = 7%Z /\ ~ (10 | clampTick 7 10)%Z.
Proof.
  assert (E : clampTick 7 10 = 7%Z) by (rewrite clampTick_Z by lia; reflexivity).
  split; [exact E|]. rewrite E. intros [q Hq]. lia.
Qed.

(** C6, amended: for every integer tick and positive tickSpacing,
    [clampTick] returns a tick within the spacing-aligned bounds, hence
    within [MIN_TICK, MAX_TICK]; a tick already within the aligned bounds
    is returned unchanged; and the result is a multiple of tickSpacing
    exactly when the given tick is one or lies outside the aligned
    bounds. *)
Theorem clampTick_bounded_and_alignment_preserving (tick s : Z) :
  (0 < s)%Z ->
  (minAligned s <= clampTick tick s <= maxAligned s)%Z
  /\ (MIN_TICK <= clampTick tick s <= MAX_TICK)%Z
  /\ ((minAligned s <= tick <= maxAligned s)%Z -> clampTick tick s = tick)
  /\ ((s | clampTick tick s)%Z <->
      (s | tick)%Z \/ (tick < minAligned s)%Z \/ (maxAligned s < tick)%Z).
Proof.
  intros Hs.
  pose proof (clampTick_within tick s Hs) as Hin.
  pose proof (minAligned_bounds s Hs) as Hmin.
  pose proof (maxAligned_bounds s Hs) as Hmax.
  split; [exact Hin|]. split; [lia|]. split.
  - intros Hrange. unfold clampTick. lia.
  - split.
    + intros Hdiv.
      destruct (Z_lt_dec tick (minAligned s)) as [Hlow | Hlow]; [auto|].
      destruct (Z_lt_dec (maxAligned s) tick) as [Hhigh | Hhigh]; [auto|].
      left. replace tick with (clampTick tick s); [exact Hdiv|].
      unfold clampTick. lia.
    + intros [Hdiv | [Hlow | Hhigh]].
      * apply clampTick_aligned_input. exact Hdiv.
      * replace (clampTick tick s) with (minAligned s)
          by (unfold clampTick; lia).
        apply minAligned_multiple.
      * replace (clampTick tick s) with (maxAligned s)
          by (unfold clampTick; lia).
        apply maxAligned_multiple.
Qed.

Lemma clampTick_bounded_witness :
  (0 < 10)%Z
  /\ (minAligned 10 <= clampTick 7 10 <= maxAligned 10)%Z
  /\ (MIN_TICK <= clampTick 7 10 <= MAX_TICK)%Z
  /\ ((minAligned 10 <= 7 <= maxAligned 10)%Z -> clampTick 7 10 = 7%Z)
  /\ ((10 | clampTick 7 10)%Z <->
      (10 | 7)%Z \/ (7 < minAligned 10)%Z \/ (maxAligned 10 < 7)%Z).
Proof.
  split; [lia | apply (clampTick_bounded_and_alignment_preserving 7 10); lia].
Defined.

(** C5: for every price > 0, positive tickSpacing and rounding mode,
    [priceToTick] returns a tick that is a multiple of tickSpacing and lies
    within [MIN_TICK, MAX_TICK]. *)
Theorem priceToTick_aligned_within_bounds
    (price : R) (s : Z) (round : Rounding) :
  0 < price -> (0 < s)%Z ->
  exists tick : Z,
    priceToTick price s round = Ok tick
    /\ (s | tick)%Z
    /\ (MIN_TICK <= tick <= MAX_TICK)%Z.
Proof.
  intros Hp Hs. unfold priceToTick.
  destruct (Rle_dec price 0) as [Hle | _]; [lra|].
  eexists. split; [reflexivity|].
  pose proof (minAligned_bounds s Hs) as Hmin.
  pose proof (maxAligned_bounds s Hs) as Hmax.
  split.
  - apply clampTick_aligned_input.
    destruct round; apply Z.divide_factor_r.
  - match goal with |- (_ <= clampTick ?t _ <= _)%Z =>
      pose proof (clampTick_within t s Hs) end.
    lia.
Qed.

Lemma priceToTick_aligned_witness :
  0 < 3 / 2 /\ (0 < 60)%Z /\
  exists tick : Z,
    priceToTick (3 / 2) 60 RoundNearest = Ok tick
    /\ (60 | tick)%Z
    /\ (MIN_TICK <= tick <= MAX_TICK)%Z.
Proof.
  split; [lra | split; [lia |]].
  apply (priceToTick_aligned_within_bounds (3 / 2) 60 RoundNearest); [lra | lia].
Defined.

Lemma priceToTick_defined (price : R) (s : Z) (round : Rounding) :
  0 < price -> exists tick, priceToTick price s round = Ok tick.
Proof.
  intros Hp. unfold priceToTick.
  destruct (Rle_dec price 0); [lra | eauto].
Qed.

Lemma priceToTick_Throw_inv (price : R) (s : Z) (round : Rounding) (e : error) :
  priceToTick price s round = Throw e -> e = RangeError "price must be positive".
Proof.
  unfold priceToTick. destruct (Rle_dec price 0); [congruence | discriminate].
Qed.

Lemma priceToTick_Throw_iff (price : R) (s : Z) (round : Rounding) :
  priceToTick price s round = Throw (RangeError "price must be positive")
  <-> price <= 0.
Proof.
  unfold priceToTick. destruct (Rle_dec price 0); split; intros Hx;
    try reflexivity; try assumption; try discriminate; contradiction.
Qed.

(** How [computeNewTickRange] ends, by the outcome of its two conversions. *)
Lemma computeNewTickRange_unfold (currentPrice priceBandPct : R) (s : Z) :
  computeNewTickRange currentPrice priceBandPct s =
  match priceToTick (currentPrice * (1 - priceBandPct / 100)) s RoundFloor with
  | Throw e => Throw e
  | Ok lo =>
      match priceToTick (currentPrice * (1 + priceBandPct / 100)) s RoundCeil with
      | Throw e => Throw e
      | Ok hi =>
          if (lo >=? hi)%Z then Throw (InvalidTickRange lo hi)
          else Ok (mkTickRange lo hi)
      end
  end.
Proof. reflexivity. Qed.

(** C2: [computeNewTickRange] takes its lower bound from
    [priceToTick (currentPrice * (1 - priceBandPct / 100)) tickSpacing floor]
    and its upper bound from
    [priceToTick (currentPrice * (1 + priceBandPct / 100)) tickSpacing ceil];
    given these two aligned bounds it fails with the invalid-range error
    exactly when the lower one is not strictly less than the upper one,
    and returns them otherwise; the invalid-range error arises in no other
    way; a returned range consists of exactly these two bounds and
    satisfies tickLower < tickUpper. The only other outcome is the
    invalid-argument error of [priceToTick], thrown exactly when one of
    the two band prices is not positive. *)
Theorem computeNewTickRange_invalid_iff_not_lt
    (currentPrice priceBandPct : R) (s : Z) :
  let lowerPrice := currentPrice * (1 - priceBandPct / 100) in
  let upperPrice := currentPrice * (1 + priceBandPct / 100) in
  let lower := priceToTick lowerPrice s RoundFloor in
  let upper := priceToTick upperPrice s RoundCeil in
  let outcome := computeNewTickRange currentPrice priceBandPct s in
  (forall lo hi : Z, lower = Ok lo -> upper = Ok hi ->
     (outcome = Throw (InvalidTickRange lo hi) <-> ~ (lo < hi)%Z)
     /\ (outcome = Ok (mkTickRange lo hi) <-> (lo < hi)%Z))
  /\ (forall lo hi : Z, outcome = Throw (InvalidTickRange lo hi) ->
        lower = Ok lo /\ upper = Ok hi /\ ~ (lo < hi)%Z)
  /\ (forall range : TickRange, outcome = Ok range ->
        lower = Ok (tickLower range) /\ upper = Ok (tickUpper range)
        /\ (tickLower range < tickUpper range)%Z)
  /\ (outcome = Throw (RangeError "price must be positive")
      <-> lowerPrice <= 0 \/ upperPrice <= 0).
Proof.
  cbv zeta. rewrite computeNewTickRange_unfold.
  pose proof (priceToTick_Throw_iff (currentPrice * (1 - priceBandPct / 100))
                s RoundFloor) as Hlow.
  pose proof (priceToTick_Throw_iff (currentPrice * (1 + priceBandPct / 100))
                s RoundCeil) as Hup.
  destruct (priceToTick (currentPrice * (1 - priceBandPct / 100)) s RoundFloor)
    as [lo' | e1] eqn:Elo.
  - assert (Hlowpos : ~ currentPrice * (1 - priceBandPct / 100) <= 0).
    { intros Hle. apply Hlow in Hle. discriminate. }
    destruct (priceToTick (currentPrice * (1 + priceBandPct / 100)) s RoundCeil)
      as [hi' | e2] eqn:Ehi.
    + assert (Huppos : ~ currentPrice * (1 + priceBandPct / 100) <= 0).
      { intros Hle. apply Hup in Hle. discriminate. }
      destruct (Z.geb_spec lo' hi') as [Hge | Hlt].
      * split; [|split; [|split]].
        -- intros lo hi [= <-] [= <-]. split; split; intros; try lia; try reflexivity;
             discriminate.
        -- intros lo hi [= <- <-]. repeat split. lia.
        -- intros range [=].
        -- split; [discriminate | tauto].
      * split; [|split; [|split]].
        -- intros lo hi [= <-] [= <-]. split; split; intros; try lia; try reflexivity;
             discriminate.
        -- intros lo hi [=].
        -- intros range [= <-]. simpl. repeat split. exact Hlt.
        -- split; [discriminate | tauto].
    + apply priceToTick_Throw_inv in Ehi. subst e2.
      split; [|split; [|split]]; try (intros; discriminate).
      split; [intros _; right; apply Hup; reflexivity | reflexivity].
  - apply priceToTick_Throw_inv in Elo. subst e1.
    split; [|split; [|split]]; try (intros; discriminate).
    split; [intros _; left; apply Hlow; reflexivity | reflexivity].
Qed.

(** The conversions succeed for a positive price and a band under 100%. *)
Lemma computeNewTickRange_bounds_defined (currentPrice priceBandPct : R) (s : Z) :
  0 < currentPrice -> -100 < priceBandPct < 100 ->
  exists lo hi : Z,
    priceToTick (currentPrice * (1 - priceBandPct / 100)) s RoundFloor = Ok lo
    /\ priceToTick (currentPrice * (1 + priceBandPct / 100)) s RoundCeil = Ok hi.
Proof.
  intros Hp [Hb1 Hb2].
  destruct (priceToTick_defined (currentPrice * (1 - priceBandPct / 100)) s RoundFloor)
    as [lo Hlo]; [apply Rmult_lt_0_compat; lra|].
  destruct (priceToTick_defined (currentPrice * (1 + priceBandPct / 100)) s RoundCeil)
    as [hi Hhi]; [apply Rmult_lt_0_compat; lra|].
  eauto.
Qed.

(** A zero-width band at an exact tick is the degenerate case. *)
Example computeNewTickRange_degenerate :
  computeNewTickRange 1 0 1 = Throw (InvalidTickRange 0 0).
Proof.
  rewrite computeNewTickRange_unfold.
  replace (1 * (1 - 0 / 100)) with 1 by (unfold Rdiv; ring).
  replace (1 * (1 + 0 / 100)) with 1 by (unfold Rdiv; ring).
  unfold priceToTick. destruct (Rle_dec 1 0) as [H | _]; [lra|].
  rewrite ln_1.
  replace (0 / LOG_TICK_BASE / 1) with 0 by (unfold Rdiv; ring).
  unfold Math_ceil. rewrite Ropp_0.
  rewrite (Math_floor_IZR 0). fold (Math_floor 0). rewrite (Math_floor_IZR 0).
  rewrite !clampTick_Z by lia. reflexivity.
Qed.

(** A band of 100% makes the lower price zero, and the conversion throws. *)
Example computeNewTickRange_full_band :
  computeNewTickRange 1 100 1 = Throw (RangeError "price must be positive").
Proof.
  rewrite computeNewTickRange_unfold.
  replace (1 * (1 - 100 / 100)) with 0 by (unfold Rdiv; field).
  unfold priceToTick at 1. destruct (Rle_dec 0 0) as [_ | H]; [reflexivity | lra].
Qed.

End TickClaims.

(** ** The strategy engine *)

Module StrategyClaims.

Import Utils UtilsFacts Config Strategy StrategyTerms.
Local Open Scope R_scope.

Lemma isTickInRange_spec (tick lo hi : Z) :
  isTickInRange tick lo hi = true <-> (lo <= tick <= hi)%Z.
Proof. unfold isTickInRange. rewrite andb_true_iff. lia. Qed.

(** C1: [evaluateStrategy] decides in this order. If currentTick is not
    within [tickLower, tickUpper] (both ends included) the trigger is
    price_out_of_range, whatever the drift; else if
    |driftPct currentPrice tickLower tickUpper| > driftTriggerPct the
    trigger is drift_exceeded; in both cases shouldRebalance is true and
    the new range is the one computed by
    [computeNewTickRange currentPrice priceBandPct tickSpacing]. Otherwise
    shouldRebalance is false, the trigger is none and no range is given. *)
Theorem evaluateStrategy_decision
    (pool : PoolState) (position : PositionState) (config : BotConfig) :
  let drift := driftPct (currentPrice pool)
                 (pos_tickLower position) (pos_tickUpper position) in
  let newRange := computeNewTickRange (currentPrice pool) (priceBandPct config)
                    (tickSpacing pool) in
  let inRange :=
    (pos_tickLower position <= currentTick pool <= pos_tickUpper position)%Z in
  (~ inRange ->
     evaluateStrategy pool position config
     = rebalance_with price_out_of_range drift newRange)
  /\ (inRange -> Rabs drift > driftTriggerPct config ->
      evaluateStrategy pool position config
      = rebalance_with drift_exceeded drift newRange)
  /\ (inRange -> ~ Rabs drift > driftTriggerPct config ->
      evaluateStrategy pool position config
      = Ok (mkStrategyDecision false none drift None None)).
Proof.
  cbv zeta. unfold evaluateStrategy, rebalance_with.
  pose proof (isTickInRange_spec (currentTick pool)
                (pos_tickLower position) (pos_tickUpper position)) as Hspec.
  destruct (isTickInRange (currentTick pool) (pos_tickLower position)
              (pos_tickUpper position)) eqn:Ein; simpl.
  - assert (Hin : (pos_tickLower position <= currentTick pool
                   <= pos_tickUpper position)%Z) by (apply Hspec; reflexivity).
    split; [intros Hout; contradiction|].
    destruct (Rgt_dec _ _) as [Hgt | Hle].
    + split; [reflexivity | intros _ Hn; contradiction].
    + split; [intros _ Hgt; contradiction | reflexivity].
  - assert (Hout : ~ (pos_tickLower position <= currentTick pool
                      <= pos_tickUpper position)%Z).
    { intros Hin. apply Hspec in Hin. discriminate. }
    split; [reflexivity|].
    split; intros Hin; contradiction.
Qed.

(** *** Token split *)

Lemma TICK_BASE_gt_1 : 1 < TICK_BASE.
Proof. unfold TICK_BASE. lra. Qed.

Lemma tickToPrice_pos (tick : Z) : 0 < tickToPrice tick.
Proof. unfold tickToPrice, Rpower. apply exp_pos. Qed.

Lemma tickToPrice_lt (lo hi : Z) :
  (lo < hi)%Z -> tickToPrice lo < tickToPrice hi.
Proof.
  intros Hlt. unfold tickToPrice.
  apply Rpower_lt; [apply TICK_BASE_gt_1 | apply IZR_lt; exact Hlt].
Qed.

Lemma tickToPrice_0 : tickToPrice 0 = 1.
Proof.
  unfold tickToPrice. apply Rpower_O.
  pose proof TICK_BASE_gt_1. lra.
Qed.

Lemma inv_sqrt_antitone (a b : R) :
  0 < a -> a <= b -> 1 / sqrt b <= 1 / sqrt a.
Proof.
  intros Ha Hab.
  assert (Hsa : 0 < sqrt a) by (apply sqrt_lt_R0; exact Ha).
  assert (Hsab : sqrt a <= sqrt b) by (apply sqrt_le_1_alt; exact Hab).
  unfold Rdiv. rewrite !Rmult_1_l.
  apply Rinv_le_contravar; assumption.
Qed.

(** C4: for liquidity L >= 0 and a range tickLower < tickUpper,
    [computeTokenAmounts] returns amountB = 0 when
    currentPrice <= price(tickLower), amountA = 0 when
    currentPrice >= price(tickUpper), and inside the range
    amountA = L (1/sqrt currentPrice - 1/sqrt upperPrice) and
    amountB = L (sqrt currentPrice - sqrt lowerPrice); both outputs are
    non-negative in every case. *)
Theorem computeTokenAmounts_split (L : Z) (price : R) (lo hi : Z) :
  (0 <= L)%Z -> (lo < hi)%Z ->
  let out := computeTokenAmounts L price lo hi in
  let lowerPrice := tickToPrice lo in
  let upperPrice := tickToPrice hi in
  (price <= lowerPrice ->
     amountA out = IZR L * (1 / sqrt lowerPrice - 1 / sqrt upperPrice)
     /\ amountB out = 0)
  /\ (price >= upperPrice ->
      amountA out = 0
      /\ amountB out = IZR L * (sqrt upperPrice - sqrt lowerPrice))
  /\ (lowerPrice < price < upperPrice ->
      amountA out = IZR L * (1 / sqrt price - 1 / sqrt upperPrice)
      /\ amountB out = IZR L * (sqrt price - sqrt lowerPrice))
  /\ 0 <= amountA out /\ 0 <= amountB out.
Proof.
  intros HL Hlohi. cbv zeta.
  pose proof (tickToPrice_pos lo) as Hplo.
  pose proof (tickToPrice_lt lo hi Hlohi) as Hplt.
  assert (HLR : 0 <= IZR L) by (apply IZR_le; exact HL).
  unfold computeTokenAmounts.
  destruct (Rle_dec price (tickToPrice lo)) as [Hbelow | Hnb]; simpl.
  - pose proof (inv_sqrt_antitone (tickToPrice lo) (tickToPrice hi) Hplo
                  ltac:(lra)).
    repeat split; intros; try lra; apply Rmult_le_pos; lra.
  - destruct (Rge_dec price (tickToPrice hi)) as [Habove | Hna]; simpl.
    + pose proof (sqrt_le_1_alt (tickToPrice lo) (tickToPrice hi) ltac:(lra)).
      repeat split; intros; try lra; apply Rmult_le_pos; lra.
    + assert (Hp : 0 < price) by lra.
      pose proof (inv_sqrt_antitone price (tickToPrice hi) Hp ltac:(lra)).
      pose proof (sqrt_le_1_alt (tickToPrice lo) price ltac:(lra)).
      repeat split; intros; try lra; apply Rmult_le_pos; lra.
Qed.

Lemma computeTokenAmounts_split_witness :
  (0 <= 1000000)%Z /\ (-100 < 100)%Z /\
  let out := computeTokenAmounts 1000000 1 (-100) 100 in
  let lowerPrice := tickToPrice (-100) in
  let upperPrice := tickToPrice 100 in
  (1 <= lowerPrice ->
     amountA out = IZR 1000000 * (1 / sqrt lowerPrice - 1 / sqrt upperPrice)
     /\ amountB out = 0)
  /\ (1 >= upperPrice ->
      amountA out = 0
      /\ amountB out = IZR 1000000 * (sqrt upperPrice - sqrt lowerPrice))
  /\ (lowerPrice < 1 < upperPrice ->
      amountA out = IZR 1000000 * (1 / sqrt 1 - 1 / sqrt upperPrice)
      /\ amountB out = IZR 1000000 * (sqrt 1 - sqrt lowerPrice))
  /\ 0 <= amountA out /\ 0 <= amountB out.
Proof.
  split; [lia | split; [lia |]].
  apply (computeTokenAmounts_split 1000000 1 (-100) 100); lia.
Defined.

(** *** Swap sizing *)

Lemma Math_floor_nonneg (x : R) : 0 <= x -> (0 <= Math_floor x)%Z.
Proof.
  intros Hx. destruct (Math_floor_bounds x) as [_ Hlt].
  apply Z.lt_succ_r. apply lt_IZR. rewrite succ_IZR. lra.
Qed.

Lemma balances_sum_zero (balanceA balanceB : Z) :
  (0 <= balanceA)%Z -> (0 <= balanceB)%Z ->
  IZR balanceA + IZR balanceB = 0 <-> balanceA = 0%Z /\ balanceB = 0%Z.
Proof.
  intros HA HB. split.
  - intros Hsum. rewrite <- plus_IZR in Hsum. apply eq_IZR in Hsum. lia.
  - intros [-> ->]. lra.
Qed.

(** The sizing formula read over exact real numbers. For non-negative
    balances and currentPrice > 0, with
    x = (balanceA - targetRatioAtoB * balanceB) / (1 + targetRatioAtoB * currentPrice),
    the exact formula gives no swap exactly when targetRatioAtoB <= 0,
    or both balances are zero, or |x| is below 5% of
    totalValueInA = balanceA + balanceB / currentPrice, or the swap amount
    floors to zero; otherwise it gives swapAtoB = (x > 0) with
    swapAmount = floor x when x > 0 and swapAmount = floor (|x| * currentPrice)
    when x < 0, and that amount is positive. The engine itself computes
    in doubles: see [Doubles.computeSwapNeeded]. *)
Theorem computeSwapNeeded_characterised
    (balanceA balanceB : Z) (targetRatioAtoB currentPrice : R) (slippageBps : Z) :
  (0 <= balanceA)%Z -> (0 <= balanceB)%Z -> 0 < currentPrice ->
  let x := swap_x balanceA balanceB targetRatioAtoB currentPrice in
  let out := computeSwapNeeded balanceA balanceB targetRatioAtoB currentPrice
               slippageBps in
  (out = None <->
     targetRatioAtoB <= 0
     \/ (balanceA = 0%Z /\ balanceB = 0%Z)
     \/ Rabs x < 5 / 100 * totalValueInA balanceA balanceB currentPrice
     \/ floored_amount x currentPrice = 0%Z)
  /\ (forall plan : SwapPlan, out = Some plan ->
        (0 < swapAmount plan)%Z
        /\ ((0 < x /\ plan = mkSwapPlan true (Math_floor x))
            \/ (x < 0 /\ plan = mkSwapPlan false (Math_floor (Rabs x * currentPrice))))).
Proof.
  intros HA HB Hp. cbv zeta.
  unfold computeSwapNeeded, floored_amount.
  fold (swap_x balanceA balanceB targetRatioAtoB currentPrice).
  fold (totalValueInA balanceA balanceB currentPrice).
  set (x := swap_x balanceA balanceB targetRatioAtoB currentPrice).
  set (total := totalValueInA balanceA balanceB currentPrice).
  pose proof (balances_sum_zero balanceA balanceB HA HB) as Hzero.
  destruct (Rle_dec targetRatioAtoB 0) as [Hr | Hr].
  { split; [split; auto | intros plan [=]]. }
  destruct (Req_dec_T (IZR balanceA + IZR balanceB) 0) as [Hs | Hs].
  { split; [split; [intros _; right; left; apply Hzero; exact Hs | reflexivity]
           | intros plan [=]]. }
  destruct (Rlt_dec (Rabs x) (5 / 100 * total)) as [Ht | Ht].
  { split; [split; auto | intros plan [=]]. }
  assert (Hnz : ~ (balanceA = 0%Z /\ balanceB = 0%Z)).
  { intros Hboth. apply Hs. apply Hzero. exact Hboth. }
  destruct (Rgt_dec x 0) as [Hx | Hx].
  - pose proof (Math_floor_nonneg x ltac:(lra)) as Hfl.
    destruct (Z.eqb_spec (Math_floor x) 0) as [E | E].
    + split; [split; auto | intros plan [=]].
    + split.
      * split; [discriminate|].
        intros [H | [H | [H | H]]]; contradiction.
      * intros plan [= <-]. simpl. split; [lia|]. left. split; [lra | reflexivity].
  - assert (Hamt : 0 <= Rabs x * currentPrice).
    { apply Rmult_le_pos; [apply Rabs_pos | lra]. }
    pose proof (Math_floor_nonneg _ Hamt) as Hfl.
    destruct (Z.eqb_spec (Math_floor (Rabs x * currentPrice)) 0) as [E | E].
    + split; [split; auto | intros plan [=]].
    + split.
      * split; [discriminate|].
        intros [H | [H | [H | H]]]; contradiction.
      * intros plan [= <-]. simpl. split; [lia|]. right. split; [|reflexivity].
        destruct (Rtotal_order x 0) as [Hneg | [Hz | Hpos]]; [exact Hneg | | lra].
        exfalso. apply E. rewrite Hz, Rabs_R0, Rmult_0_l. apply (Math_floor_IZR 0).
Qed.

Lemma computeSwapNeeded_characterised_witness :
  (0 <= 10000)%Z /\ (0 <= 100)%Z /\ 0 < 1 /\
  let x := swap_x 10000 100 1 1 in
  let out := computeSwapNeeded 10000 100 1 1 50 in
  (out = None <->
     1 <= 0
     \/ (10000 = 0 /\ 100 = 0)%Z
     \/ Rabs x < 5 / 100 * totalValueInA 10000 100 1
     \/ floored_amount x 1 = 0%Z)
  /\ (forall plan : SwapPlan, out = Some plan ->
        (0 < swapAmount plan)%Z
        /\ ((0 < x /\ plan = mkSwapPlan true (Math_floor x))
            \/ (x < 0 /\ plan = mkSwapPlan false (Math_floor (Rabs x * 1))))).
Proof.
  split; [lia | split; [lia | split; [lra |]]].
  apply (computeSwapNeeded_characterised 10000 100 1 1 50); [lia | lia | lra].
Defined.

End StrategyClaims.

(** ** The tests of strategy.test.ts on exact inputs *)

Module StrategyTests.

Import Utils UtilsFacts Config Strategy StrategyTerms StrategyClaims Fixtures.
Local Open Scope R_scope.

Lemma centerTick_symmetric : centerTick (-200) 200 = 0%Z.
Proof.
  unfold centerTick, Math_round. change (-200 + 200)%Z with 0%Z.
  symmetry. apply Int_part_spec. lra.
Qed.

Lemma driftPct_at_center : driftPct 1 (-200) 200 = 0.
Proof.
  unfold driftPct. rewrite centerTick_symmetric, tickToPrice_0.
  unfold Rdiv. ring.
Qed.

Example evaluateStrategy_no_rebalance :
  exists d, evaluateStrategy basePool basePosition baseConfig = Ok d
            /\ shouldRebalance d = false /\ trigger d = none.
Proof.
  unfold evaluateStrategy, basePool, basePosition, baseConfig. simpl.
  rewrite driftPct_at_center, Rabs_R0.
  destruct (Rgt_dec 0 (1 / 2)) as [H | _]; [lra|].
  eexists. repeat split.
Qed.

Ltac decide_reals :=
  repeat match goal with
         | |- context [Rle_dec ?a ?b] => destruct (Rle_dec a b); try lra
         | |- context [Rlt_dec ?a ?b] => destruct (Rlt_dec a b); try lra
         | |- context [Rgt_dec ?a ?b] => destruct (Rgt_dec a b); try lra
         | |- context [Req_dec_T ?a ?b] => destruct (Req_dec_T a b); try lra
         end.

Example computeSwapNeeded_balanced : computeSwapNeeded 1000 1000 1 1 50 = None.
Proof.
  unfold computeSwapNeeded.
  replace ((IZR 1000 - 1 * IZR 1000) / (1 + 1 * 1)) with 0 by (unfold Rdiv; ring).
  rewrite Rabs_R0. decide_reals. reflexivity.
Qed.

Example computeSwapNeeded_too_much_A :
  computeSwapNeeded 10000 100 1 1 50 = Some (mkSwapPlan true 4950).
Proof.
  unfold computeSwapNeeded.
  replace ((IZR 10000 - 1 * IZR 100) / (1 + 1 * 1)) with (IZR 4950) by lra.
  rewrite Math_floor_IZR, (Rabs_pos_eq (IZR 4950)) by lra.
  decide_reals. reflexivity.
Qed.

Example computeSwapNeeded_too_much_B :
  computeSwapNeeded 100 10000 1 1 50 = Some (mkSwapPlan false 4950).
Proof.
  unfold computeSwapNeeded.
  replace ((IZR 100 - 1 * IZR 10000) / (1 + 1 * 1)) with (- IZR 4950) by lra.
  rewrite Rabs_Ropp, (Rabs_pos_eq (IZR 4950)), Rmult_1_r, Math_floor_IZR by lra.
  decide_reals. reflexivity.
Qed.

Example computeSwapNeeded_zero_balances : computeSwapNeeded 0 0 1 1 50 = None.
Proof.
  unfold computeSwapNeeded.
  destruct (Rle_dec 1 0) as [H | _]; [lra|].
  destruct (Req_dec_T (IZR 0 + IZR 0) 0) as [_ | Hne]; [reflexivity|].
  exfalso. apply Hne. lra.
Qed.

End StrategyTests.

(** ** Swap sizing in binary64 *)

Module SwapDoubleClaims.

Import Utils UtilsFacts Strategy StrategyTerms StrategyClaims Doubles DoubleTerms.
Import PrimFloat SpecFloat FloatOps.

(** The doubles 0.5 and 1 stand for the reals 1/2 and 1. *)
Lemma real_value_half : real_value 0.5%float = (1 / 2)%R.
Proof.
  unfold real_value.
  change (Prim2SF 0.5%float) with (S754_finite false 4503599627370496 (-53)).
  cbv iota. unfold powerRZ.
  rewrite (pow_IZR 2 (Pos.to_nat 53)), positive_nat_Z.
  change (2 ^ 53)%Z with 9007199254740992%Z.
  lra.
Qed.

(** C3: [computeSwapNeeded] works in double arithmetic. With
    bA = Number(balanceA), bB = Number(balanceB) the nearest doubles, and
    x = (bA - targetRatioAtoB * bB) / (1 + targetRatioAtoB * currentPrice),
    totalValueInA = bA + bB / currentPrice, each operation rounded to a
    double, it returns no swap exactly when targetRatioAtoB <= 0, or
    bA + bB is zero, or |x| < 0.05 * totalValueInA as doubles, or the
    amount floors to zero; it returns a plan exactly when none of the
    first three holds and the amount floors to a non-zero integer n, the
    plan being swapAtoB = (x > 0) with swapAmount = n, where the amount is
    x when x > 0 and |x| * currentPrice otherwise; and it throws exactly
    when none of the three holds and the amount is NaN or infinite, the
    RangeError of BigInt. *)
Theorem computeSwapNeeded_in_doubles
    (balanceA balanceB : Z) (targetRatioAtoB currentPrice : float)
    (slippageBps : Z) :
  let x := x_double balanceA balanceB targetRatioAtoB currentPrice in
  let total := totalValueInA_double balanceA balanceB currentPrice in
  let amount := BigInt_of_floor (amount_to_floor x currentPrice) in
  let no_swap :=
    (targetRatioAtoB <=? 0)%float = true
    \/ (Number balanceA + Number balanceB =? 0)%float = true
    \/ (abs x <? tolerance * total)%float = true in
  let out := Doubles.computeSwapNeeded balanceA balanceB targetRatioAtoB
               currentPrice slippageBps in
  (out = Ok None <-> no_swap \/ amount = Ok 0%Z)
  /\ (forall plan : SwapPlan,
        out = Ok (Some plan) <->
        ~ no_swap
        /\ exists n : Z,
             amount = Ok n /\ n <> 0%Z /\ plan = mkSwapPlan (0 <? x)%float n)
  /\ (forall e : error, out = Throw e <-> ~ no_swap /\ amount = Throw e).
Proof.
  cbv zeta. unfold Doubles.computeSwapNeeded, amount_to_floor.
  fold (x_double balanceA balanceB targetRatioAtoB currentPrice).
  fold (totalValueInA_double balanceA balanceB currentPrice).
  set (x := x_double balanceA balanceB targetRatioAtoB currentPrice).
  set (total := totalValueInA_double balanceA balanceB currentPrice).
  destruct (targetRatioAtoB <=? 0)%float eqn:Hratio; cbn [orb].
  { split; [| split]; [split; auto | |]; intros; split;
      first [discriminate | intros [Hno _]; exfalso; apply Hno; auto]. }
  destruct (Number balanceA + Number balanceB =? 0)%float eqn:Hsum.
  { split; [| split]; [split; auto | |]; intros; split;
      first [discriminate | intros [Hno _]; exfalso; apply Hno; auto]. }
  destruct (abs x <? tolerance * total)%float eqn:Htol.
  { split; [| split]; [split; auto | |]; intros; split;
      first [discriminate | intros [Hno _]; exfalso; apply Hno; auto]. }
  assert (Hnone : ~ (false = true \/ false = true \/ false = true)).
  { intros [E | [E | E]]; discriminate. }
  assert (Hbranch :
    forall (sells : bool) (amount : result Z),
      let out := (swapAmount <- amount ;;;
                  if (swapAmount =? 0)%Z then Ok None
                  else Ok (Some (mkSwapPlan sells swapAmount)))%result in
      (out = Ok None <->
         (false = true \/ false = true \/ false = true) \/ amount = Ok 0%Z)
      /\ (forall plan : SwapPlan,
            out = Ok (Some plan) <->
            ~ (false = true \/ false = true \/ false = true)
            /\ exists n : Z,
                 amount = Ok n /\ n <> 0%Z /\ plan = mkSwapPlan sells n)
      /\ (forall e : error,
            out = Throw e <->
            ~ (false = true \/ false = true \/ false = true) /\ amount = Throw e)).
  { intros sells [n | e0]; cbn [rbind].
    - destruct (Z.eqb_spec n 0) as [-> | Hn].
      + split; [| split].
        * split; auto.
        * intros plan. split; [discriminate|].
          intros (_ & n & [= <-] & Hn & _). contradiction.
        * intros e. split; [discriminate | intros [_ [=]]].
      + split; [| split].
        * split; [discriminate|]. intros [Hno | [= E]]; [contradiction | contradiction].
        * intros plan. split.
          -- intros [= <-]. split; [exact Hnone|]. exists n. auto.
          -- intros (_ & n' & [= <-] & _ & ->). reflexivity.
        * intros e. split; [discriminate | intros [_ [=]]].
    - split; [| split].
      + split; [discriminate|]. intros [Hno | [=]]. contradiction.
      + intros plan. split; [discriminate|]. intros (_ & n & [=] & _).
      + intros e. split.
        * intros [= ->]. split; [exact Hnone | reflexivity].
        * intros [_ [= ->]]. reflexivity. }
  destruct (0 <? x)%float; apply Hbranch.
Qed.

(** C3, the claim read over exact numbers fails: for balances 6 and 9,
    target ratio 1/2 and price 1/2, all exactly representable, x is 6/5
    and 5% of the total value 24 is 6/5 as well, so |x| is not below the
    tolerance and the claim asks for a swap of floor(6/5) = 1 of token A;
    the engine computes 0.05 * 24 as 1.2000000000000002, finds |x| below
    it and returns no swap. *)
Theorem computeSwapNeeded_exact_reading_counterexample :
  (0 <= 6)%Z /\ (0 <= 9)%Z
  /\ real_value 0.5%float = (1 / 2)%R
  /\ (0 < 1 / 2)%R
  /\ ~ (1 / 2 <= 0)%R
  /\ ~ (6 = 0 /\ 9 = 0)%Z
  /\ ~ (Rabs (swap_x 6 9 (1 / 2) (1 / 2))
        < 5 / 100 * totalValueInA 6 9 (1 / 2))%R
  /\ floored_amount (swap_x 6 9 (1 / 2) (1 / 2)) (1 / 2) = 1%Z
  /\ Strategy.computeSwapNeeded 6 9 (1 / 2) (1 / 2) 50 = Some (mkSwapPlan true 1)
  /\ Doubles.computeSwapNeeded 6 9 0.5%float 0.5%float 50 = Ok None.
Proof.
  assert (Hx : swap_x 6 9 (1 / 2) (1 / 2) = (6 / 5)%R).
  { unfold swap_x. lra. }
  assert (Htotal : totalValueInA 6 9 (1 / 2) = 24%R).
  { unfold totalValueInA. lra. }
  assert (Habs : Rabs (6 / 5) = (6 / 5)%R) by (apply Rabs_pos_eq; lra).
  assert (Hfloor : Math_floor (6 / 5) = 1%Z).
  { apply Math_floor_unique. change (IZR 1) with 1%R. lra. }
  split; [lia|]. split; [lia|]. split; [exact real_value_half|].
  split; [lra|]. split; [lra|]. split; [lia|]. split; [| split; [| split]].
  - rewrite Hx, Htotal, Habs. lra.
  - unfold floored_amount. rewrite Hx.
    destruct (Rgt_dec (6 / 5) 0) as [_ | Hn]; [exact Hfloor | lra].
  - unfold Strategy.computeSwapNeeded.
    fold (swap_x 6 9 (1 / 2) (1 / 2)). rewrite Hx, Habs.
    destruct (Rle_dec (1 / 2) 0) as [Hn | _]; [lra|].
    destruct (Req_dec_T (IZR 6 + IZR 9) 0) as [Hn | _]; [lra|].
    destruct (Rlt_dec (6 / 5) (5 / 100 * (IZR 6 + IZR 9 / (1 / 2)))) as [Hn | _];
      [lra|].
    destruct (Rgt_dec (6 / 5) 0) as [_ | Hn]; [| lra].
    rewrite Hfloor. reflexivity.
  - vm_compute. reflexivity.
Qed.

(** The tests of strategy.test.ts, run in doubles. *)
Example computeSwapNeeded_double_balanced :
  Doubles.computeSwapNeeded 1000 1000 1%float 1%float 50 = Ok None.
Proof. vm_compute. reflexivity. Qed.

Example computeSwapNeeded_double_too_much_A :
  Doubles.computeSwapNeeded 10000 100 1%float 1%float 50
  = Ok (Some (mkSwapPlan true 4950)).
Proof. vm_compute. reflexivity. Qed.

Example computeSwapNeeded_double_too_much_B :
  Doubles.computeSwapNeeded 100 10000 1%float 1%float 50
  = Ok (Some (mkSwapPlan false 4950)).
Proof. vm_compute. reflexivity. Qed.

Example computeSwapNeeded_double_zero_balances :
  Doubles.computeSwapNeeded 0 0 1%float 1%float 50 = Ok None.
Proof. vm_compute. reflexivity. Qed.

(** Above 2^53 a balance is rounded before anything is computed: half of
    2^54 + 3 floors to 2^53 + 1, the engine plans 2^53 + 2. *)
Example computeSwapNeeded_double_rounds_balance :
  Doubles.computeSwapNeeded (2 ^ 54 + 3) 0 1%float 1%float 50
  = Ok (Some (mkSwapPlan true (2 ^ 53 + 2))).
Proof. vm_compute. reflexivity. Qed.

(** So a plan can ask for more than the wallet holds: with a negligible
    target ratio the engine plans to sell Number(2^53 + 3) = 2^53 + 4. *)
Example computeSwapNeeded_double_overshoots_balance :
  Doubles.computeSwapNeeded (2 ^ 53 + 3) 0 0x1.4484bfeebc2ap-100%float 1%float 50
  = Ok (Some (mkSwapPlan true (2 ^ 53 + 4))).
Proof. vm_compute. reflexivity. Qed.

(** A price of NaN reaches [BigInt]: the call throws. *)
Example computeSwapNeeded_double_nan :
  Doubles.computeSwapNeeded 1 1 1%float nan 50
  = Throw (RangeError "The number cannot be converted to a BigInt").
Proof. vm_compute. reflexivity. Qed.

End SwapDoubleClaims.

(** ** The state store *)

Module PersistenceClaims.

Import Persistence Store.
Local Open Scope Z_scope.

Lemma recordRebalance_total `{Json} (statePath : string)
    (store : BotState * FileSystem) (r : Recorded) :
  totalRebalances (fst (recordRebalance statePath store r))
  = totalRebalances (fst store) + 1.
Proof. reflexivity. Qed.

Lemma recordRebalance_run_total `{Json} (statePath : string)
    (history : list Recorded) (store : BotState * FileSystem) :
  totalRebalances (fst (fold_left (recordRebalance statePath) history store))
  = totalRebalances (fst store) + Z.of_nat (length history).
Proof.
  revert store. induction history as [| r history IH]; intros store.
  - simpl. lia.
  - cbn [fold_left length]. rewrite IH, recordRebalance_total. lia.
Qed.

(** C7: [updateStateAfterRebalance] returns a state whose totalRebalances
    is the given state's plus exactly 1, whose lastPositionId,
    lastTickLower, lastTickUpper, lastLiquidity and lastTxDigest are the
    arguments and whose lastRebalanceTime is the current time. So the
    counter never decreases: not under one update, and not along any
    history of recorded rebalances, each an update followed by a save.
    A state loaded when no state file exists is the default one, its
    counter is 0, and after one recorded rebalance it is 1. *)
Theorem updateStateAfterRebalance_increments `{Json}
    (now : Z) (state : BotState) (positionId : string)
    (lo hi liq : Z) (txDigest : string) :
  let state' := updateStateAfterRebalance now state positionId lo hi liq txDigest in
  totalRebalances state' = totalRebalances state + 1
  /\ lastPositionId state' = Some positionId
  /\ lastTickLower state' = Some lo
  /\ lastTickUpper state' = Some hi
  /\ lastLiquidity state' = Some (pretty liq)
  /\ lastTxDigest state' = Some txDigest
  /\ lastRebalanceTime state' = Some now
  /\ totalRebalances state <= totalRebalances state'
  /\ (forall (statePath : string) (fs : FileSystem) (history : list Recorded),
        totalRebalances state
        <= totalRebalances
             (fst (fold_left (recordRebalance statePath) history (state, fs))))
  /\ (forall (statePath : string) (fs : FileSystem),
        fs !! statePath = None ->
        loadState fs statePath = DEFAULT_STATE
        /\ totalRebalances (loadState fs statePath) = 0
        /\ totalRebalances
             (updateStateAfterRebalance now (loadState fs statePath)
                positionId lo hi liq txDigest) = 1).
Proof.
  cbv zeta.
  do 7 (split; [reflexivity|]).
  split; [simpl; lia|].
  split.
  - intros statePath fs history.
    rewrite recordRebalance_run_total. simpl. lia.
  - intros statePath fs Hnone.
    unfold loadState. rewrite Hnone. repeat split.
Qed.

End PersistenceClaims.

(** ** The lock file *)

Module LockClaims.

Import RiskChecks Fixtures.
Local Open Scope Z_scope.

Section Guard.
Context `{Platform}.

Lemma existsSync_present (path raw : string) (d : Disk) :
  files d !! path = Some raw -> existsSync path d = (Ok true, d).
Proof.
  intros Hraw. unfold existsSync. rewrite Hraw.
  rewrite bool_decide_eq_true_2 by eauto. reflexivity.
Qed.

Lemma existsSync_absent (path : string) (d : Disk) :
  files d !! path = None -> existsSync path d = (Ok false, d).
Proof.
  intros Hnone. unfold existsSync. rewrite Hnone.
  rewrite bool_decide_eq_false_2; [reflexivity|].
  intros [x Hx]. discriminate.
Qed.

(** A successful write leaves the caller's id at the path. *)
Lemma writeFileSync_lookup (path content : string) (d d' : Disk) (u : unit) :
  writeFileSync path content d = (Ok u, d') ->
  files d' !! path = Some content.
Proof.
  unfold writeFileSync. intros [= _ <-]. simpl. apply lookup_insert_eq.
Qed.

(** [checkConcurrency] when the file names another process. *)
Lemma checkConcurrency_other_owner (lockPath raw : string) (pid : Z) (d : Disk) :
  files d !! lockPath = Some raw ->
  parseInt (String_trim raw) = Some pid ->
  pid <> process_pid ->
  checkConcurrency lockPath d =
  match process_kill0 pid with
  | KillDelivered => (Throw (AnotherProcessRunning pid lockPath), d)
  | KillThrows e =>
      if is_ESRCH e
      then (Ok tt, mkDisk (delete lockPath (files d)) (fs_ops d ++ [OpUnlink lockPath]))
      else (Throw e, d)
  end.
Proof.
  intros Hraw Hpid Hother.
  unfold checkConcurrency, ebind.
  rewrite (existsSync_present lockPath raw d Hraw).
  unfold readFileSync. rewrite Hraw, Hpid.
  destruct (Z.eqb_spec pid process_pid) as [Heq | _]; [contradiction|].
  simpl. unfold try_catch, process_kill.
  destruct (process_kill0 pid) as [| e]; [reflexivity|].
  destruct (is_ESRCH e); [|reflexivity].
  unfold unlinkSync. rewrite Hraw. reflexivity.
Qed.

(** C9: acquiring the lock. If the lock file exists and the process id
    stored in it belongs to another process that is verifiably alive
    (the probe signal is delivered), acquisition fails with the
    concurrent-instance error and neither the file nor anything else on
    disk is touched. If that owner is verifiably dead (the probe reports
    ESRCH), the stale file is deleted and then the current process's id
    is written. Whenever acquisition succeeds, the path holds the
    current process's id. *)
Theorem acquireLock_respects_live_owner (lockPath : string) (d : Disk) :
  (forall (raw : string) (pid : Z),
      files d !! lockPath = Some raw ->
      parseInt (String_trim raw) = Some pid ->
      pid <> process_pid ->
      process_kill0 pid = KillDelivered ->
      acquireLock lockPath d = (Throw (AnotherProcessRunning pid lockPath), d))
  /\ (forall (raw : string) (pid : Z),
        files d !! lockPath = Some raw ->
        parseInt (String_trim raw) = Some pid ->
        pid <> process_pid ->
        process_kill0 pid = KillThrows (ErrnoException "ESRCH") ->
        acquireLock lockPath d =
        (Ok tt,
         mkDisk (<[lockPath := String_of_pid process_pid]>
                   (delete lockPath (files d)))
                (fs_ops d ++ [OpUnlink lockPath;
                              OpWrite lockPath (String_of_pid process_pid)])))
  /\ (forall (d' : Disk) (u : unit),
        acquireLock lockPath d = (Ok u, d') ->
        files d' !! lockPath = Some (String_of_pid process_pid)).
Proof.
  split; [|split].
  - intros raw pid Hraw Hpid Hother Halive.
    unfold acquireLock, ebind.
    rewrite (checkConcurrency_other_owner lockPath raw pid d Hraw Hpid Hother).
    rewrite Halive. reflexivity.
  - intros raw pid Hraw Hpid Hother Hdead.
    unfold acquireLock, ebind.
    rewrite (checkConcurrency_other_owner lockPath raw pid d Hraw Hpid Hother).
    rewrite Hdead. simpl. unfold writeFileSync. simpl.
    rewrite <- app_assoc. reflexivity.
  - intros d' u Hacq. unfold acquireLock, ebind in Hacq.
    destruct (checkConcurrency lockPath d) as [[[] | e] d1]; [|discriminate].
    apply writeFileSync_lookup in Hacq. exact Hacq.
Qed.

End Guard.

Lemma disk_with_lookup (content : string) :
  files (disk_with content) !! lock_path = Some content.
Proof. apply lookup_singleton_eq. Qed.

Lemma acquireLock_respects_live_owner_witness :
  acquireLock (H := example_platform) lock_path (disk_with "100")
  = (Throw (AnotherProcessRunning 100 lock_path), disk_with "100").
Proof.
  destruct (acquireLock_respects_live_owner (H := example_platform) lock_path
              (disk_with "100")) as [Hlive _].
  apply (Hlive "100" 100);
    [apply disk_with_lookup | reflexivity | discriminate | reflexivity].
Defined.

Example acquireLock_stale_owner :
  exists d',
    acquireLock (H := example_platform) lock_path (disk_with "77") = (Ok tt, d')
    /\ files d' !! lock_path = Some "4242"
    /\ fs_ops d' = [OpUnlink lock_path; OpWrite lock_path "4242"].
Proof.
  eexists. split.
  - unfold acquireLock, ebind.
    rewrite (checkConcurrency_other_owner (H := example_platform)
               lock_path "77" 77 (disk_with "77") (disk_with_lookup "77")
               eq_refl ltac:(discriminate)).
    reflexivity.
  - split; [|reflexivity]. simpl. apply lookup_insert_eq.
Qed.

Example acquireLock_no_file :
  exists d',
    acquireLock (H := example_platform) lock_path (mkDisk ∅ []) = (Ok tt, d')
    /\ files d' !! lock_path = Some "4242"
    /\ fs_ops d' = [OpWrite lock_path "4242"].
Proof.
  eexists. split.
  - unfold acquireLock, checkConcurrency, ebind.
    rewrite existsSync_absent by apply lookup_empty. reflexivity.
  - split; [|reflexivity]. simpl. apply lookup_insert_eq.
Qed.

End LockClaims.

(** ** The transaction execution wrapper *)

Module ExecutionClaims.

Import Utils Config SuiWallet Traces AttemptTerms Fixtures.
Local Open Scope Z_scope.

Lemma broadcast_count_app (evs1 evs2 : list Event) :
  broadcast_count (evs1 ++ evs2) = (broadcast_count evs1 + broadcast_count evs2)%nat.
Proof. unfold broadcast_count. rewrite filter_app, length_app. reflexivity. Qed.

Lemma broadcast_count_failed_attempts (outcomes : list (result ExecResponse)) :
  forall attempt : Z,
    broadcast_count (failed_attempts attempt outcomes) = length outcomes.
Proof.
  induction outcomes as [| o rest IH]; intros attempt; [reflexivity|].
  change (failed_attempts attempt (o :: rest))
    with ([EvBroadcast attempt o; EvSleep (backoffMs attempt)]
            ++ failed_attempts (attempt + 1) rest).
  rewrite broadcast_count_app, IH. reflexivity.
Qed.

Lemma last_error_cons (init : error) (o : result ExecResponse)
    (rest : list (result ExecResponse)) :
  last_error init (o :: rest) = last_error (error_of o) rest.
Proof.
  unfold last_error. destruct rest as [| o' rest']; [reflexivity|].
  rewrite last_cons_cons. destruct (last (o' :: rest')) eqn:E; [reflexivity|].
  apply last_None in E. discriminate.
Qed.

Section Wrapper.
Context {W Tx : Type} `{SuiClient W Tx}.

(** One pass of the loop: broadcast; on status "success" return the
    digest; otherwise keep the error, sleep [backoffMs attempt] and go on
    with the next attempt. *)
Lemma retryLoop_step (n : nat) (attempt : Z) (lastErr : error) (tx : Tx)
    (r : Run W) :
  retryLoop (S n) attempt lastErr tx r =
  let '(outcome, w') := signAndExecuteTransaction tx (world r) in
  let sent := trace r ++ [EvBroadcast attempt outcome] in
  let after_sleep :=
    mkRun (sleep_world (backoffMs attempt) w')
          (sent ++ [EvSleep (backoffMs attempt)]) in
  match outcome with
  | Ok resp =>
      if bool_decide (resp_status resp = Some "success")
      then (Ok (mkExecReport (resp_digest resp) false), mkRun w' sent)
      else retryLoop n (attempt + 1) (error_of outcome) tx after_sleep
  | Throw e => retryLoop n (attempt + 1) (error_of outcome) tx after_sleep
  end.
Proof.
  cbn [retryLoop]. unfold try_catch, attemptOnce, ebind, call_signAndExecute.
  destruct (signAndExecuteTransaction tx (world r)) as [[resp | e] w'];
    [|reflexivity].
  destruct (bool_decide (resp_status resp = Some "success")); reflexivity.
Qed.

Lemma retryLoop_outcome (remaining : nat) :
  forall (attempt : Z) (lastErr : error) (tx : Tx) (r : Run W),
  exists failures : list (result ExecResponse),
    Forall (fun o => succeeded o = false) failures
    /\ ((exists resp : ExecResponse,
           resp_status resp = Some "success"
           /\ (length failures < remaining)%nat
           /\ fst (retryLoop remaining attempt lastErr tx r)
              = Ok (mkExecReport (resp_digest resp) false)
           /\ trace (snd (retryLoop remaining attempt lastErr tx r))
              = trace r ++ failed_attempts attempt failures
                  ++ [EvBroadcast (attempt + Z.of_nat (length failures)) (Ok resp)])
        \/ (length failures = remaining
            /\ fst (retryLoop remaining attempt lastErr tx r)
               = Throw (last_error lastErr failures)
            /\ trace (snd (retryLoop remaining attempt lastErr tx r))
               = trace r ++ failed_attempts attempt failures)).
Proof.
  induction remaining as [| n IH]; intros attempt lastErr tx r.
  - exists []. split; [constructor|]. right.
    simpl. rewrite app_nil_r. repeat split.
  - rewrite retryLoop_step.
    destruct (signAndExecuteTransaction tx (world r)) as [outcome w'].
    assert (Hfail : succeeded outcome = false ->
      exists failures : list (result ExecResponse),
        Forall (fun o => succeeded o = false) failures
        /\ ((exists resp : ExecResponse,
               resp_status resp = Some "success"
               /\ (length failures < S n)%nat
               /\ fst (retryLoop n (attempt + 1) (error_of outcome) tx
                         (mkRun (sleep_world (backoffMs attempt) w')
                            ((trace r ++ [EvBroadcast attempt outcome])
                               ++ [EvSleep (backoffMs attempt)])))
                  = Ok (mkExecReport (resp_digest resp) false)
               /\ trace (snd (retryLoop n (attempt + 1) (error_of outcome) tx
                         (mkRun (sleep_world (backoffMs attempt) w')
                            ((trace r ++ [EvBroadcast attempt outcome])
                               ++ [EvSleep (backoffMs attempt)]))))
                  = trace r ++ failed_attempts attempt failures
                      ++ [EvBroadcast (attempt + Z.of_nat (length failures)) (Ok resp)])
            \/ (length failures = S n
                /\ fst (retryLoop n (attempt + 1) (error_of outcome) tx
                         (mkRun (sleep_world (backoffMs attempt) w')
                            ((trace r ++ [EvBroadcast attempt outcome])
                               ++ [EvSleep (backoffMs attempt)])))
                   = Throw (last_error lastErr failures)
                /\ trace (snd (retryLoop n (attempt + 1) (error_of outcome) tx
                         (mkRun (sleep_world (backoffMs attempt) w')
                            ((trace r ++ [EvBroadcast attempt outcome])
                               ++ [EvSleep (backoffMs attempt)]))))
                   = trace r ++ failed_attempts attempt failures))).
    { intros Hs.
      destruct (IH (attempt + 1) (error_of outcome) tx
                  (mkRun (sleep_world (backoffMs attempt) w')
                     ((trace r ++ [EvBroadcast attempt outcome])
                        ++ [EvSleep (backoffMs attempt)])))
        as (failures & Hall & Hcases).
      exists (outcome :: failures). split; [constructor; assumption|].
      cbn [trace] in Hcases.
      destruct Hcases as [(resp & Hok & Hlen & Hres & Htr) | (Hlen & Hres & Htr)].
      - left. exists resp. repeat split; [exact Hok | simpl; lia | exact Hres |].
        rewrite Htr. cbn [failed_attempts length].
        replace (attempt + 1 + Z.of_nat (length failures))
          with (attempt + Z.of_nat (S (length failures))) by lia.
        rewrite <- !app_assoc. reflexivity.
      - right. repeat split; [simpl; lia | |].
        + rewrite Hres, last_error_cons. reflexivity.
        + rewrite Htr. rewrite <- !app_assoc. reflexivity. }
    cbv zeta.
    destruct outcome as [resp | e]; [|apply Hfail; reflexivity].
    destruct (bool_decide (resp_status resp = Some "success")) eqn:Hs.
    + exists []. split; [constructor|]. left. exists resp.
      apply bool_decide_eq_true_1 in Hs.
      simpl. rewrite Z.add_0_r. repeat split; [exact Hs | lia].
    + apply Hfail. simpl. exact Hs.
Qed.

(** The attempts fail one after the other until attempt [attempt + k],
    which the node answers with status "success": the loop returns its
    digest, in the world that call left. *)
Lemma retryLoop_first_success (k : nat) :
  forall (n : nat) (attempt : Z) (lastErr : error) (tx : Tx) (r : Run W)
         (resp : ExecResponse) (w' : W),
    (k < n)%nat ->
    Forall (fun o => succeeded o = false) (outcomes tx attempt (world r) k) ->
    signAndExecuteTransaction tx (world_at tx attempt (world r) k) = (Ok resp, w') ->
    resp_status resp = Some "success" ->
    retryLoop n attempt lastErr tx r
    = (Ok (mkExecReport (resp_digest resp) false),
       mkRun w'
         (trace r ++ failed_attempts attempt (outcomes tx attempt (world r) k)
            ++ [EvBroadcast (attempt + Z.of_nat k) (Ok resp)])).
Proof.
  induction k as [| k IH]; intros n attempt lastErr tx r resp w' Hlt Hfail Hcall Hok;
    (destruct n as [| n]; [lia|]); rewrite retryLoop_step.
  - cbn [world_at outcomes failed_attempts] in *. rewrite Hcall.
    rewrite bool_decide_eq_true_2 by exact Hok.
    rewrite Z.add_0_r. reflexivity.
  - cbn [world_at outcomes] in *.
    apply Forall_cons in Hfail as [Hhead Hrest].
    destruct (signAndExecuteTransaction tx (world r)) as [outcome w1].
    cbn [fst snd] in *.
    assert (Hnext :
      retryLoop n (attempt + 1) (error_of outcome) tx
        (mkRun (sleep_world (backoffMs attempt) w1)
           ((trace r ++ [EvBroadcast attempt outcome]) ++ [EvSleep (backoffMs attempt)]))
      = (Ok (mkExecReport (resp_digest resp) false),
         mkRun w'
           (trace r
              ++ failed_attempts attempt
                   (outcome :: outcomes tx (attempt + 1)
                                 (sleep_world (backoffMs attempt) w1) k)
              ++ [EvBroadcast (attempt + Z.of_nat (S k)) (Ok resp)]))).
    { rewrite (IH n (attempt + 1) (error_of outcome) tx _ resp w');
        [| lia | exact Hrest | exact Hcall | exact Hok].
      cbn [trace world failed_attempts].
      replace (attempt + 1 + Z.of_nat k) with (attempt + Z.of_nat (S k)) by lia.
      rewrite <- !app_assoc. reflexivity. }
    cbv zeta. destruct outcome as [resp0 | e]; [| exact Hnext].
    cbn [succeeded] in Hhead. rewrite Hhead. exact Hnext.
Qed.

(** All [n] attempts the loop may make fail: it throws the error of the
    last one (the initial [lastErr] when it may make none), after the
    sleep that follows that attempt. *)
Lemma retryLoop_all_fail (n : nat) :
  forall (attempt : Z) (lastErr : error) (tx : Tx) (r : Run W),
    Forall (fun o => succeeded o = false) (outcomes tx attempt (world r) n) ->
    retryLoop n attempt lastErr tx r
    = (Throw (last_error lastErr (outcomes tx attempt (world r) n)),
       mkRun (world_at tx attempt (world r) n)
         (trace r ++ failed_attempts attempt (outcomes tx attempt (world r) n))).
Proof.
  induction n as [| n IH]; intros attempt lastErr tx r Hfail.
  - destruct r as [w tr]. cbn. rewrite app_nil_r. reflexivity.
  - rewrite retryLoop_step. cbn [world_at outcomes] in *.
    apply Forall_cons in Hfail as [Hhead Hrest].
    destruct (signAndExecuteTransaction tx (world r)) as [outcome w1].
    cbn [fst snd] in *.
    assert (Hnext :
      retryLoop n (attempt + 1) (error_of outcome) tx
        (mkRun (sleep_world (backoffMs attempt) w1)
           ((trace r ++ [EvBroadcast attempt outcome]) ++ [EvSleep (backoffMs attempt)]))
      = (Throw (last_error lastErr
                  (outcome :: outcomes tx (attempt + 1)
                                (sleep_world (backoffMs attempt) w1) n)),
         mkRun (world_at tx (attempt + 1) (sleep_world (backoffMs attempt) w1) n)
           (trace r
              ++ failed_attempts attempt
                   (outcome :: outcomes tx (attempt + 1)
                                 (sleep_world (backoffMs attempt) w1) n)))).
    { rewrite (IH (attempt + 1) (error_of outcome) tx
                 (mkRun (sleep_world (backoffMs attempt) w1)
                    ((trace r ++ [EvBroadcast attempt outcome])
                       ++ [EvSleep (backoffMs attempt)])) Hrest).
      cbn [trace world failed_attempts]. rewrite last_error_cons.
      rewrite <- !app_assoc. reflexivity. }
    cbv zeta. destruct outcome as [resp0 | e]; [| exact Hnext].
    cbn [succeeded] in Hhead. rewrite Hhead. exact Hnext.
Qed.

(** C8: in live mode with the confirmation flag set,
    [executeTransaction] calls [signAndExecuteTransaction] on the
    transaction with its gas budget set, at most maxRetries + 1 times.
    An attempt that throws or returns a status other than "success" has
    failed: the wrapper keeps its error, sleeps [backoffMs] of the
    attempt's number (counted from 0) and tries again in the world the
    sleep leaves. If attempts 0 .. k - 1 fail and attempt k <= maxRetries
    returns status "success", the call returns the digest of attempt k,
    having made exactly these calls and sleeps. If all maxRetries + 1
    attempts fail, it throws the error of the last one, after the sleep
    that follows it; with maxRetries < 0 there is no attempt and the
    never-assigned [lastErr] is thrown. *)
Theorem executeTransaction_retries_with_backoff
    (tx : Tx) (config : BotConfig) (r : Run W) :
  dryRun config = false -> confirm config = true ->
  let tx' := setGasBudget (gasBudget config) tx in
  let budget := Z.to_nat (maxRetries config + 1) in
  (forall (k : nat) (resp : ExecResponse) (w' : W),
     Z.of_nat k <= maxRetries config ->
     Forall (fun o => succeeded o = false) (outcomes tx' 0 (world r) k) ->
     signAndExecuteTransaction tx' (world_at tx' 0 (world r) k) = (Ok resp, w') ->
     resp_status resp = Some "success" ->
     executeTransaction tx config r
     = (Ok (mkExecReport (resp_digest resp) false),
        mkRun w'
          (trace r ++ failed_attempts 0 (outcomes tx' 0 (world r) k)
             ++ [EvBroadcast (Z.of_nat k) (Ok resp)])))
  /\ (Forall (fun o => succeeded o = false) (outcomes tx' 0 (world r) budget) ->
      executeTransaction tx config r
      = (Throw (last_error UndefinedThrown (outcomes tx' 0 (world r) budget)),
         mkRun (world_at tx' 0 (world r) budget)
           (trace r ++ failed_attempts 0 (outcomes tx' 0 (world r) budget))))
  /\ (exists evs : list Event,
        trace (snd (executeTransaction tx config r)) = trace r ++ evs
        /\ Z.of_nat (broadcast_count evs) <= Z.max 0 (maxRetries config + 1)).
Proof.
  intros Hlive Hconfirm. cbv zeta.
  unfold executeTransaction. rewrite Hlive, Hconfirm. cbn [negb].
  set (tx' := setGasBudget (gasBudget config) tx).
  split; [| split].
  - intros k resp w' Hk Hfail Hcall Hok.
    rewrite (retryLoop_first_success k _ 0 UndefinedThrown tx' r resp w');
      [reflexivity | lia | exact Hfail | exact Hcall | exact Hok].
  - intros Hfail. apply retryLoop_all_fail. exact Hfail.
  - destruct (retryLoop_outcome (Z.to_nat (maxRetries config + 1)) 0
                UndefinedThrown tx' r) as (failures & Hall & Hcases).
    destruct Hcases as [(resp & Hok & Hlen & Hres & Htr) | (Hlen & Hres & Htr)].
    + eexists. split; [exact Htr|].
      rewrite broadcast_count_app, broadcast_count_failed_attempts.
      change (broadcast_count
                [EvBroadcast (0 + Z.of_nat (length failures)) (Ok resp)])
        with 1%nat.
      lia.
    + eexists. split; [exact Htr|].
      rewrite broadcast_count_failed_attempts. lia.
Qed.

End Wrapper.

Example executeTransaction_third_attempt :
  executeTransaction (H := flaky_client) tt (live_config 3 true) (mkRun 0%nat [])
  = (Ok (mkExecReport "0xfeed" false),
     mkRun 3%nat
       [EvBroadcast 0 (flaky_response 0); EvSleep 1000;
        EvBroadcast 1 (flaky_response 1); EvSleep 2000;
        EvBroadcast 2 (flaky_response 2)]).
Proof. reflexivity. Qed.

Example executeTransaction_exhausted :
  executeTransaction (H := flaky_client) tt (live_config 1 true) (mkRun 0%nat [])
  = (Throw (TransactionFailed "InsufficientGas"),
     mkRun 2%nat
       [EvBroadcast 0 (flaky_response 0); EvSleep 1000;
        EvBroadcast 1 (flaky_response 1); EvSleep 2000]).
Proof. reflexivity. Qed.

Lemma executeTransaction_retries_witness :
  dryRun (live_config 3 true) = false
  /\ confirm (live_config 3 true) = true
  /\ let tx' := setGasBudget (SuiClient := flaky_client)
                  (gasBudget (live_config 3 true)) tt in
     let budget := Z.to_nat (maxRetries (live_config 3 true) + 1) in
     let r := mkRun 0%nat [] in
     (forall (k : nat) (resp : ExecResponse) (w' : nat),
        Z.of_nat k <= maxRetries (live_config 3 true) ->
        Forall (fun o => succeeded o = false)
          (outcomes (H := flaky_client) tx' 0 (world r) k) ->
        signAndExecuteTransaction (SuiClient := flaky_client) tx'
          (world_at (H := flaky_client) tx' 0 (world r) k) = (Ok resp, w') ->
        resp_status resp = Some "success" ->
        executeTransaction (H := flaky_client) tt (live_config 3 true) r
        = (Ok (mkExecReport (resp_digest resp) false),
           mkRun w'
             (trace r
                ++ failed_attempts 0 (outcomes (H := flaky_client) tx' 0 (world r) k)
                ++ [EvBroadcast (Z.of_nat k) (Ok resp)])))
     /\ (Forall (fun o => succeeded o = false)
           (outcomes (H := flaky_client) tx' 0 (world r) budget) ->
         executeTransaction (H := flaky_client) tt (live_config 3 true) r
         = (Throw (last_error UndefinedThrown
                     (outcomes (H := flaky_client) tx' 0 (world r) budget)),
            mkRun (world_at (H := flaky_client) tx' 0 (world r) budget)
              (trace r
                 ++ failed_attempts 0
                      (outcomes (H := flaky_client) tx' 0 (world r) budget))))
     /\ (exists evs : list Event,
           trace (snd (executeTransaction (H := flaky_client) tt
                         (live_config 3 true) r))
           = trace r ++ evs
           /\ Z.of_nat (broadcast_count evs)
              <= Z.max 0 (maxRetries (live_config 3 true) + 1))
     /\ executeTransaction (H := flaky_client) tt (live_config 3 true) r
        = (Ok (mkExecReport "0xfeed" false),
           mkRun 3%nat
             [EvBroadcast 0 (flaky_response 0); EvSleep 1000;
              EvBroadcast 1 (flaky_response 1); EvSleep 2000;
              EvBroadcast 2 (flaky_response 2)]).
Proof.
  pose proof (executeTransaction_retries_with_backoff (H := flaky_client) tt
                (live_config 3 true) (mkRun 0%nat []) eq_refl eq_refl)
    as Hcontract.
  split; [reflexivity | split; [reflexivity |]].
  cbv zeta in *.
  destruct Hcontract as (Hfirst & Hnone & Hbound).
  split; [exact Hfirst|]. split; [exact Hnone|]. split; [exact Hbound|].
  apply (Hfirst 2%nat (mkExecResponse "0xfeed" (Some "success") None) 3%nat).
  - simpl. lia.
  - repeat constructor.
  - reflexivity.
  - reflexivity.
Defined.

End ExecutionClaims.

(** ** The confirmation gate and the rebalance sequence *)

Module OrchestratorClaims.

Import Utils Config Strategy SuiWallet Orchestrator Traces Sequences Fixtures.
Local Open Scope Z_scope.

Section Gate.
Context {W Tx : Type} `{SuiClient W Tx} `{CetusClient W Tx}.

Lemma executeTransaction_gate (tx : Tx) (config : BotConfig) (r : Run W) :
  dryRun config = false -> confirm config = false ->
  executeTransaction tx config r
  = (Ok (mkExecReport "aborted-no-confirm" false), r).
Proof.
  intros Hlive Hno. unfold executeTransaction. rewrite Hlive, Hno. reflexivity.
Qed.

Lemma never_broadcasts_ret {A : Type} (a : A) :
  never_broadcasts (ret (S := Run W) a).
Proof. intros r. exists []. split; [symmetry; apply app_nil_r | reflexivity]. Qed.

Lemma never_broadcasts_bind {A B : Type}
    (m : Eff (Run W) A) (k : A -> Eff (Run W) B) :
  never_broadcasts m -> (forall a, never_broadcasts (k a)) ->
  never_broadcasts (ebind m k).
Proof.
  intros Hm Hk r. unfold ebind.
  destruct (Hm r) as (evs1 & Htr1 & Hc1).
  destruct (m r) as [[a | e] r1]; cbn [snd] in *.
  - destruct (Hk a r1) as (evs2 & Htr2 & Hc2).
    exists (evs1 ++ evs2). split.
    + rewrite Htr2, Htr1, app_assoc. reflexivity.
    + unfold broadcast_count in *. rewrite filter_app, length_app. lia.
  - exists evs1. split; assumption.
Qed.

Lemma never_broadcasts_external {A : Type} (ev : Event)
    (call : W -> result A * W) :
  is_broadcast ev = false -> never_broadcasts (external ev call).
Proof.
  intros Hev r. unfold external.
  destruct (call (world r)) as [res w']. exists [ev]. split; [reflexivity|].
  unfold broadcast_count. rewrite filter_cons_False by congruence. reflexivity.
Qed.

Lemma never_broadcasts_gate (tx : Tx) (config : BotConfig) :
  dryRun config = false -> confirm config = false ->
  never_broadcasts (executeTransaction tx config).
Proof.
  intros Hlive Hno r. rewrite executeTransaction_gate by assumption.
  exists []. split; [symmetry; apply app_nil_r | reflexivity].
Qed.

Lemma never_broadcasts_runRebalance (config : BotConfig) (positionId : string)
    (tickLower tickUpper newTickLower newTickUpper liquidity : Z) :
  dryRun config = false -> confirm config = false ->
  never_broadcasts
    (runRebalance config positionId tickLower tickUpper
       newTickLower newTickUpper liquidity).
Proof.
  intros Hlive Hno. unfold runRebalance.
  repeat first
    [ apply never_broadcasts_ret
    | apply never_broadcasts_gate; assumption
    | apply never_broadcasts_external; reflexivity
    | apply never_broadcasts_bind; [| intros ?]
    | match goal with
      | |- never_broadcasts (let '(_, _) := ?p in _) => destruct p
      | |- never_broadcasts (match ?o with Some _ => _ | None => _ end) =>
          destruct o
      end ].
Qed.

(** C10: in live mode with the confirmation flag unset,
    [executeTransaction] returns normally with the digest
    "aborted-no-confirm", makes no call and leaves the world as it was.
    So a rebalance sequence run under this gate never broadcasts, and it
    does not stop at an aborted step: when the builders and the data
    source answer, every later step is still taken in order (build
    collect-fee, build remove-liquidity, fetch pool state, fetch
    balances, build the swap if one is planned, fetch balances, build
    add-liquidity) and the sequence returns "aborted-no-confirm". *)
Theorem confirmation_gate_aborts_without_stopping
    (config : BotConfig) (positionId : string)
    (tickLower tickUpper newTickLower newTickUpper liquidity : Z) :
  dryRun config = false -> confirm config = false ->
  (forall (tx : Tx) (r : Run W),
      executeTransaction tx config r
      = (Ok (mkExecReport "aborted-no-confirm" false), r))
  /\ never_broadcasts
       (runRebalance config positionId tickLower tickUpper
          newTickLower newTickUpper liquidity)
  /\ (forall (w0 w1 w2 w3 w4 w5 w6 w7 : W) (tr : list Event)
         (collectTx removeTx addTx : Tx) (poolState : PoolState)
         (balanceA balanceB newBalA newBalB : Z),
        let plan := planned_swap config liquidity newTickLower newTickUpper
                      poolState balanceA balanceB in
        buildCollectFeeTx positionId w0 = (Ok collectTx, w1) ->
        buildRemoveLiquidityTx positionId liquidity (slippageBps config) w1
        = (Ok removeTx, w2) ->
        fetchPoolState w2 = (Ok poolState, w3) ->
        getTokenBalances w3 = (Ok (balanceA, balanceB), w4) ->
        match plan with
        | Some p =>
            exists swapTx : Tx,
              buildSwapTx (swapAtoB p) (swapAmount p) (slippageBps config) w4
              = (Ok swapTx, w5)
        | None => w5 = w4
        end ->
        getTokenBalances w5 = (Ok (newBalA, newBalB), w6) ->
        buildAddLiquidityTx positionId newTickLower newTickUpper
          newBalA newBalB (slippageBps config) w6 = (Ok addTx, w7) ->
        runRebalance config positionId tickLower tickUpper
          newTickLower newTickUpper liquidity (mkRun w0 tr)
        = (Ok "aborted-no-confirm",
           mkRun w7
             (tr ++ [EvBuildCollectFee positionId;
                     EvBuildRemoveLiquidity positionId liquidity (slippageBps config);
                     EvFetchPoolState;
                     EvGetTokenBalances]
                 ++ swap_events config plan
                 ++ [EvGetTokenBalances;
                     EvBuildAddLiquidity positionId newTickLower newTickUpper
                       newBalA newBalB (slippageBps config)]))).
Proof.
  intros Hlive Hno. split; [|split].
  - intros tx r. apply executeTransaction_gate; assumption.
  - apply never_broadcasts_runRebalance; assumption.
  - intros w0 w1 w2 w3 w4 w5 w6 w7 tr collectTx removeTx addTx poolState
      balanceA balanceB newBalA newBalB plan
      Hcollect Hremove Hpool Hbal Hswap Hbal' Hadd.
    unfold runRebalance, ebind, external. cbn [world trace].
    rewrite Hcollect, (executeTransaction_gate collectTx config _ Hlive Hno).
    cbn [world trace].
    rewrite Hremove, (executeTransaction_gate removeTx config _ Hlive Hno).
    cbn [world trace].
    rewrite Hpool. cbn [world trace]. rewrite Hbal.
    fold (planned_swap config liquidity newTickLower newTickUpper
            poolState balanceA balanceB).
    fold plan. destruct plan as [p |]; cbn [world trace swap_events].
    + destruct Hswap as [swapTx Hswap]. rewrite Hswap.
      rewrite (executeTransaction_gate swapTx config _ Hlive Hno).
      unfold ret. cbn [world trace].
      rewrite Hbal'. cbn [world trace]. rewrite Hadd.
      rewrite (executeTransaction_gate addTx config _ Hlive Hno).
      cbn [digest]. rewrite <- !app_assoc. reflexivity.
    + subst w5. unfold ret. cbn [world trace].
      rewrite Hbal'. cbn [world trace]. rewrite Hadd.
      rewrite (executeTransaction_gate addTx config _ Hlive Hno).
      cbn [digest]. rewrite <- !app_assoc. reflexivity.
Qed.

End Gate.

Lemma planned_swap_empty_wallet (config : BotConfig)
    (liquidity newTickLower newTickUpper : Z) (poolState : PoolState) :
  planned_swap config liquidity newTickLower newTickUpper poolState 0 0 = None.
Proof.
  unfold planned_swap, computeSwapNeeded.
  destruct (Rle_dec _ 0) as [_ | _]; [reflexivity|].
  destruct (Req_dec_T (IZR 0 + IZR 0) 0) as [_ | Hne]; [reflexivity|].
  exfalso. apply Hne. lra.
Qed.

Lemma confirmation_gate_witness :
  dryRun (live_config 3 false) = false
  /\ confirm (live_config 3 false) = false
  /\ runRebalance (H := flaky_client) (H0 := calm_cetus) (live_config 3 false)
       "0xposition" (-200) 200 (-150) 160 1000000 (mkRun 0%nat [])
     = (Ok "aborted-no-confirm",
        mkRun 6%nat
          [EvBuildCollectFee "0xposition";
           EvBuildRemoveLiquidity "0xposition" 1000000 50;
           EvFetchPoolState;
           EvGetTokenBalances;
           EvGetTokenBalances;
           EvBuildAddLiquidity "0xposition" (-150) 160 0 0 50]).
Proof.
  split; [reflexivity | split; [reflexivity |]].
  destruct (confirmation_gate_aborts_without_stopping
              (H := flaky_client) (H0 := calm_cetus) (live_config 3 false)
              "0xposition" (-200) 200 (-150) 160 1000000 eq_refl eq_refl)
    as (_ & _ & Hsequence).
  rewrite (Hsequence 0%nat 1%nat 2%nat 3%nat 4%nat 4%nat 5%nat 6%nat []
             tt tt tt basePool 0 0 0 0);
    try reflexivity;
    rewrite planned_swap_empty_wallet; reflexivity.
Defined.

End OrchestratorClaims.

(** ** More on tick math: prices of ticks, round trips, monotonicity *)

Module TickMathFacts.

Import Utils UtilsFacts StrategyClaims TickTerms.
Local Open Scope R_scope.

Lemma LOG_TICK_BASE_pos : 0 < LOG_TICK_BASE.
Proof.
  unfold LOG_TICK_BASE. rewrite <- ln_1.
  apply ln_increasing; [lra | apply TICK_BASE_gt_1].
Qed.

Lemma tickToPrice_exp (tick : Z) :
  tickToPrice tick = exp (IZR tick * LOG_TICK_BASE).
Proof. reflexivity. Qed.

(** The raw tick of a price, [Math.log(price) / LOG_TICK_BASE]. *)
Lemma rawTick_of_tickToPrice (tick : Z) :
  ln (tickToPrice tick) / LOG_TICK_BASE = IZR tick.
Proof.
  rewrite tickToPrice_exp, ln_exp. field.
  pose proof LOG_TICK_BASE_pos. lra.
Qed.

Lemma price_as_exp (price : R) :
  0 < price -> price = exp (ln price / LOG_TICK_BASE * LOG_TICK_BASE).
Proof.
  intros Hp. pose proof LOG_TICK_BASE_pos.
  replace (ln price / LOG_TICK_BASE * LOG_TICK_BASE) with (ln price)
    by (field; lra).
  symmetry. apply exp_ln. exact Hp.
Qed.

Lemma tickToPrice_lt_price (tick : Z) (price : R) :
  0 < price ->
  IZR tick < ln price / LOG_TICK_BASE -> tickToPrice tick < price.
Proof.
  intros Hp Hlt. rewrite tickToPrice_exp, (price_as_exp price Hp) at 1.
  apply exp_increasing. apply Rmult_lt_compat_r; [apply LOG_TICK_BASE_pos | exact Hlt].
Qed.

Lemma price_lt_tickToPrice (tick : Z) (price : R) :
  0 < price ->
  ln price / LOG_TICK_BASE < IZR tick -> price < tickToPrice tick.
Proof.
  intros Hp Hlt. rewrite tickToPrice_exp, (price_as_exp price Hp) at 1.
  apply exp_increasing. apply Rmult_lt_compat_r; [apply LOG_TICK_BASE_pos | exact Hlt].
Qed.

Lemma rawTick_lt (p1 p2 : R) :
  0 < p1 -> p1 < p2 -> ln p1 / LOG_TICK_BASE < ln p2 / LOG_TICK_BASE.
Proof.
  intros H1 H12. pose proof LOG_TICK_BASE_pos.
  unfold Rdiv. apply Rmult_lt_compat_r; [apply Rinv_0_lt_compat; lra|].
  apply ln_increasing; assumption.
Qed.

Lemma rawTick_le (p1 p2 : R) :
  0 < p1 -> p1 <= p2 -> ln p1 / LOG_TICK_BASE <= ln p2 / LOG_TICK_BASE.
Proof.
  intros H1 [Hlt | ->]; [left; apply rawTick_lt; assumption | right; reflexivity].
Qed.

Lemma rawTick_lt_of_tickToPrice (tick : Z) (price : R) :
  0 < price -> tickToPrice tick < price ->
  IZR tick < ln price / LOG_TICK_BASE.
Proof.
  intros Hp Hlt. rewrite <- (rawTick_of_tickToPrice tick).
  apply rawTick_lt; [apply tickToPrice_pos | exact Hlt].
Qed.

Lemma rawTick_gt_of_tickToPrice (tick : Z) (price : R) :
  0 < price -> price < tickToPrice tick ->
  ln price / LOG_TICK_BASE < IZR tick.
Proof.
  intros Hp Hlt. rewrite <- (rawTick_of_tickToPrice tick).
  apply rawTick_lt; assumption.
Qed.

(** [Math.floor], [Math.ceil] and [Math.round] are monotone, and ordered. *)
Lemma Math_floor_le (x y : R) : x <= y -> (Math_floor x <= Math_floor y)%Z.
Proof.
  intros Hxy.
  destruct (Math_floor_bounds x) as [Hx _].
  destruct (Math_floor_bounds y) as [_ Hy].
  apply Z.lt_succ_r. apply lt_IZR. rewrite succ_IZR. lra.
Qed.

Lemma Math_ceil_bounds (x : R) :
  x <= IZR (Math_ceil x) < x + 1.
Proof.
  unfold Math_ceil. rewrite opp_IZR.
  destruct (Math_floor_bounds (- x)) as [H1 H2]. unfold Math_floor in *. lra.
Qed.

Lemma Math_ceil_le (x y : R) : x <= y -> (Math_ceil x <= Math_ceil y)%Z.
Proof.
  intros Hxy. unfold Math_ceil.
  pose proof (Math_floor_le (- y) (- x) ltac:(lra)) as H. unfold Math_floor in H. lia.
Qed.

Lemma Math_round_le (x y : R) : x <= y -> (Math_round x <= Math_round y)%Z.
Proof. intros Hxy. apply (Math_floor_le (x + 1 / 2) (y + 1 / 2)). lra. Qed.

Lemma Math_floor_le_round (x : R) : (Math_floor x <= Math_round x)%Z.
Proof. apply (Math_floor_le x (x + 1 / 2)). lra. Qed.

Lemma Math_round_le_ceil (x : R) : (Math_round x <= Math_ceil x)%Z.
Proof.
  destruct (Math_floor_bounds (x + 1 / 2)) as [Hr _].
  destruct (Math_ceil_bounds x) as [Hc _].
  apply Z.lt_succ_r. apply lt_IZR. rewrite succ_IZR.
  unfold Math_round. unfold Math_floor in Hr. lra.
Qed.

Lemma Math_ceil_IZR (z : Z) : Math_ceil (IZR z) = z.
Proof.
  unfold Math_ceil. rewrite <- opp_IZR.
  change (Int_part (IZR (- z))) with (Math_floor (IZR (- z))).
  rewrite Math_floor_IZR. lia.
Qed.

Lemma Math_round_IZR (z : Z) : Math_round (IZR z) = z.
Proof. apply (Math_floor_unique (IZR z + 1 / 2)). lra. Qed.

Lemma clampTick_mono (t1 t2 s : Z) :
  (t1 <= t2)%Z -> (clampTick t1 s <= clampTick t2 s)%Z.
Proof. unfold clampTick. lia. Qed.

Lemma priceToTick_positive (price : R) (s : Z) (round : Rounding) :
  0 < price ->
  priceToTick price s round = Ok (clampTick (aligned_raw price s round) s).
Proof.
  intros Hp. unfold priceToTick, aligned_raw.
  destruct (Rle_dec price 0); [lra|]. destruct round; reflexivity.
Qed.

Lemma aligned_raw_mono (p1 p2 : R) (s : Z) (round : Rounding) :
  0 < p1 -> p1 <= p2 -> (0 < s)%Z ->
  (aligned_raw p1 s round <= aligned_raw p2 s round)%Z.
Proof.
  intros H1 H12 Hs.
  assert (HsR : 0 < IZR s) by (apply IZR_lt; exact Hs).
  assert (Hq : ln p1 / LOG_TICK_BASE / IZR s <= ln p2 / LOG_TICK_BASE / IZR s).
  { unfold Rdiv at 1 3. apply Rmult_le_compat_r;
      [left; apply Rinv_0_lt_compat; exact HsR | apply rawTick_le; assumption]. }
  unfold aligned_raw. destruct round.
  - apply Z.mul_le_mono_nonneg_r; [lia | apply Math_floor_le; exact Hq].
  - apply Z.mul_le_mono_nonneg_r; [lia | apply Math_ceil_le; exact Hq].
  - apply Z.mul_le_mono_nonneg_r; [lia | apply Math_round_le; exact Hq].
Qed.

(** The floor-aligned tick is at most the raw tick, the ceil-aligned one
    at least. *)
Lemma aligned_floor_le_raw (price : R) (s : Z) :
  (0 < s)%Z ->
  IZR (aligned_raw price s RoundFloor) <= ln price / LOG_TICK_BASE.
Proof.
  intros Hs. assert (HsR : 0 < IZR s) by (apply IZR_lt; exact Hs).
  unfold aligned_raw. rewrite mult_IZR.
  set (raw := ln price / LOG_TICK_BASE).
  destruct (Math_floor_bounds (raw / IZR s)) as [Hle _].
  apply (Rmult_le_compat_r (IZR s)) in Hle; [|lra].
  replace (raw / IZR s * IZR s) with raw in Hle by (field; lra).
  exact Hle.
Qed.

Lemma raw_le_aligned_ceil (price : R) (s : Z) :
  (0 < s)%Z ->
  ln price / LOG_TICK_BASE <= IZR (aligned_raw price s RoundCeil).
Proof.
  intros Hs. assert (HsR : 0 < IZR s) by (apply IZR_lt; exact Hs).
  unfold aligned_raw. rewrite mult_IZR.
  set (raw := ln price / LOG_TICK_BASE).
  destruct (Math_ceil_bounds (raw / IZR s)) as [Hle _].
  apply (Rmult_le_compat_r (IZR s)) in Hle; [|lra].
  replace (raw / IZR s * IZR s) with raw in Hle by (field; lra).
  exact Hle.
Qed.

Lemma aligned_raw_of_tick (k s : Z) (round : Rounding) :
  (0 < s)%Z -> aligned_raw (tickToPrice (k * s)) s round = (k * s)%Z.
Proof.
  intros Hs. assert (HsR : 0 < IZR s) by (apply IZR_lt; exact Hs).
  unfold aligned_raw. rewrite rawTick_of_tickToPrice.
  replace (IZR (k * s) / IZR s) with (IZR k) by (rewrite mult_IZR; field; lra).
  destruct round;
    [rewrite Math_floor_IZR | rewrite Math_ceil_IZR | rewrite Math_round_IZR];
    reflexivity.
Qed.

End TickMathFacts.

Module TickExtras.

Import Utils UtilsFacts TickClaims StrategyClaims TickTerms TickMathFacts.
Local Open Scope R_scope.

(** X1: the price of a tick is positive, and a tick is lower than another
    exactly when its price is lower. *)
Theorem tickToPrice_strictly_increasing (a b : Z) :
  0 < tickToPrice a
  /\ ((a < b)%Z <-> tickToPrice a < tickToPrice b)
  /\ (a = b <-> tickToPrice a = tickToPrice b).
Proof.
  split; [apply tickToPrice_pos|]. split; split.
  - apply tickToPrice_lt.
  - intros Hlt. destruct (Z_lt_le_dec a b) as [Hab | Hba]; [exact Hab|].
    exfalso. destruct (Z.eq_dec a b) as [-> | Hne]; [lra|].
    pose proof (tickToPrice_lt b a ltac:(lia)). lra.
  - intros ->. reflexivity.
  - intros Heq. destruct (Z.lt_trichotomy a b) as [Hlt | [Heq' | Hgt]];
      [| exact Heq' |].
    + pose proof (tickToPrice_lt a b Hlt). lra.
    + pose proof (tickToPrice_lt b a Hgt). lra.
Qed.

(** X2: tick 0 has price 1, one tick up multiplies the price by 1.0001,
    prices of sums of ticks multiply, and the price of the opposite tick
    is the reciprocal. *)
Theorem tickToPrice_multiplicative (a b : Z) :
  tickToPrice 0 = 1
  /\ tickToPrice (a + 1) = TICK_BASE * tickToPrice a
  /\ tickToPrice (a + b) = tickToPrice a * tickToPrice b
  /\ tickToPrice (- a) = / tickToPrice a
  /\ tickToPrice (- a) * tickToPrice a = 1.
Proof.
  pose proof (tickToPrice_pos a) as Hpos.
  assert (Hplus : forall x y, tickToPrice (x + y) = tickToPrice x * tickToPrice y).
  { intros x y. unfold tickToPrice. rewrite plus_IZR. apply Rpower_plus. }
  assert (Hopp : tickToPrice (- a) = / tickToPrice a).
  { unfold tickToPrice. rewrite opp_IZR. apply Rpower_Ropp. }
  split; [apply tickToPrice_0|]. split.
  - rewrite Hplus. unfold tickToPrice at 2.
    rewrite Rpower_1 by (pose proof TICK_BASE_gt_1; lra). ring.
  - split; [apply Hplus|]. split; [exact Hopp|].
    rewrite Hopp. field. lra.
Qed.

(** X3: in nearest mode [priceToTick] snaps the price of a tick to the
    closest multiple of the spacing. For a multiple [tick] of the spacing
    within the aligned bounds and an offset d with 2 * |d| < spacing, the
    price of tick + d is mapped to [tick]; with d = 0 this is the round
    trip priceToTick(tickToPrice(tick), spacing, "nearest") = tick. *)
Theorem priceToTick_of_tickToPrice (tick s d : Z) :
  (0 < s)%Z -> (s | tick)%Z ->
  (minAligned s <= tick <= maxAligned s)%Z ->
  (2 * Z.abs d < s)%Z ->
  priceToTick (tickToPrice (tick + d)) s RoundNearest = Ok tick
  /\ priceToTick (tickToPrice tick) s RoundNearest = Ok tick.
Proof.
  intros Hs [k ->] Hrange Hd.
  assert (HsR : 0 < IZR s) by (apply IZR_lt; exact Hs).
  assert (Hsnap : forall d' : Z, (2 * Z.abs d' < s)%Z ->
            priceToTick (tickToPrice (k * s + d')) s RoundNearest = Ok (k * s)%Z).
  { intros d' Hd'.
    rewrite priceToTick_positive by apply tickToPrice_pos.
    unfold aligned_raw. rewrite rawTick_of_tickToPrice.
    assert (Hlo : - IZR s < 2 * IZR d').
    { rewrite <- opp_IZR, <- mult_IZR. apply IZR_lt. lia. }
    assert (Hhi : 2 * IZR d' < IZR s).
    { rewrite <- mult_IZR. apply IZR_lt. lia. }
    assert (Hq : IZR (k * s + d') / IZR s = IZR k + IZR d' / IZR s).
    { rewrite plus_IZR, mult_IZR. field. lra. }
    assert (Hfrac : - (1 / 2) < IZR d' / IZR s < 1 / 2).
    { split.
      - apply (Rmult_lt_reg_r (IZR s)); [exact HsR|].
        unfold Rdiv at 2. rewrite Rmult_assoc, Rinv_l by lra. lra.
      - apply (Rmult_lt_reg_r (IZR s)); [exact HsR|].
        unfold Rdiv at 1. rewrite Rmult_assoc, Rinv_l by lra. lra. }
    assert (Hround : Math_round (IZR (k * s + d') / IZR s) = k).
    { unfold Math_round. apply (Math_floor_unique _ k). rewrite Hq. lra. }
    rewrite Hround. f_equal. unfold clampTick. lia. }
  split; [apply Hsnap; exact Hd|].
  rewrite <- (Z.add_0_r (k * s)) at 1. apply Hsnap. simpl. lia.
Qed.

Lemma priceToTick_of_tickToPrice_witness :
  (0 < 60)%Z /\ (60 | 120)%Z
  /\ (minAligned 60 <= 120 <= maxAligned 60)%Z
  /\ (2 * Z.abs 7 < 60)%Z
  /\ priceToTick (tickToPrice (120 + 7)) 60 RoundNearest = Ok 120%Z
  /\ priceToTick (tickToPrice 120) 60 RoundNearest = Ok 120%Z.
Proof.
  assert (Hs : (0 < 60)%Z) by lia.
  assert (Hd : (60 | 120)%Z) by (exists 2%Z; reflexivity).
  assert (Hr : (minAligned 60 <= 120 <= maxAligned 60)%Z).
  { rewrite minAligned_Z, maxAligned_Z by lia. vm_compute.
    split; discriminate. }
  assert (Ho : (2 * Z.abs 7 < 60)%Z) by (simpl; lia).
  split; [exact Hs | split; [exact Hd | split; [exact Hr | split; [exact Ho |]]]].
  apply (priceToTick_of_tickToPrice 120 60 7 Hs Hd Hr Ho).
Defined.

(** X4: [priceToTick] is monotone in the price: a higher price never
    gives a lower tick, in any rounding mode. *)
Theorem priceToTick_monotone (p1 p2 : R) (s : Z) (round : Rounding) :
  0 < p1 -> p1 <= p2 -> (0 < s)%Z ->
  exists t1 t2 : Z,
    priceToTick p1 s round = Ok t1
    /\ priceToTick p2 s round = Ok t2
    /\ (t1 <= t2)%Z.
Proof.
  intros H1 H12 Hs.
  exists (clampTick (aligned_raw p1 s round) s),
         (clampTick (aligned_raw p2 s round) s).
  rewrite !priceToTick_positive by lra.
  repeat split. apply clampTick_mono. apply aligned_raw_mono; assumption.
Qed.

Lemma priceToTick_monotone_witness :
  0 < 1 /\ 1 <= 2 /\ (0 < 10)%Z
  /\ exists t1 t2 : Z,
       priceToTick 1 10 RoundNearest = Ok t1
       /\ priceToTick 2 10 RoundNearest = Ok t2
       /\ (t1 <= t2)%Z.
Proof.
  split; [lra | split; [lra | split; [lia |]]].
  apply (priceToTick_monotone 1 2 10 RoundNearest); [lra | lra | lia].
Defined.

(** X5: for one price the three rounding modes are ordered,
    floor <= nearest <= ceil, and floor and ceil differ by at most one
    tick spacing. *)
Theorem priceToTick_modes_ordered (price : R) (s : Z) :
  0 < price -> (0 < s)%Z ->
  exists f n c : Z,
    priceToTick price s RoundFloor = Ok f
    /\ priceToTick price s RoundNearest = Ok n
    /\ priceToTick price s RoundCeil = Ok c
    /\ (f <= n <= c)%Z
    /\ (c - f <= s)%Z.
Proof.
  intros Hp Hs.
  exists (clampTick (aligned_raw price s RoundFloor) s),
         (clampTick (aligned_raw price s RoundNearest) s),
         (clampTick (aligned_raw price s RoundCeil) s).
  rewrite !priceToTick_positive by exact Hp.
  do 3 (split; [reflexivity|]).
  set (q := ln price / LOG_TICK_BASE / IZR s).
  pose proof (Math_floor_le_round q) as Hfn.
  pose proof (Math_round_le_ceil q) as Hnc.
  assert (Hcf : (Math_ceil q - Math_floor q <= 1)%Z).
  { destruct (Math_floor_bounds q) as [_ Hf].
    destruct (Math_ceil_bounds q) as [_ Hc].
    assert (Hlt : IZR (Math_ceil q) < IZR (Math_floor q + 2)).
    { rewrite plus_IZR. lra. }
    apply lt_IZR in Hlt. lia. }
  unfold aligned_raw. fold q. unfold clampTick.
  pose proof (minAligned_bounds s Hs). pose proof (maxAligned_bounds s Hs).
  split; nia.
Qed.

Lemma priceToTick_modes_ordered_witness :
  0 < 3 / 2 /\ (0 < 60)%Z
  /\ exists f n c : Z,
       priceToTick (3 / 2) 60 RoundFloor = Ok f
       /\ priceToTick (3 / 2) 60 RoundNearest = Ok n
       /\ priceToTick (3 / 2) 60 RoundCeil = Ok c
       /\ (f <= n <= c)%Z
       /\ (c - f <= 60)%Z.
Proof.
  split; [lra | split; [lia |]].
  apply (priceToTick_modes_ordered (3 / 2) 60); [lra | lia].
Defined.

(** The two band prices of [computeNewTickRange]. *)
Lemma band_prices (currentPrice priceBandPct : R) :
  0 < currentPrice -> 0 <= priceBandPct < 100 ->
  0 < currentPrice * (1 - priceBandPct / 100)
  /\ currentPrice * (1 - priceBandPct / 100) <= currentPrice
  /\ currentPrice <= currentPrice * (1 + priceBandPct / 100).
Proof. intros Hp [Hb1 Hb2]. repeat split; nra. Qed.

Lemma clampTick_low_cases (t s : Z) :
  clampTick t s = minAligned s \/ (clampTick t s <= t)%Z.
Proof. unfold clampTick. lia. Qed.

Lemma clampTick_high_cases (t s : Z) :
  (0 < s)%Z -> clampTick t s = maxAligned s \/ (t <= clampTick t s)%Z.
Proof.
  intros Hs. pose proof (minAligned_bounds s Hs). pose proof (maxAligned_bounds s Hs).
  unfold clampTick. lia.
Qed.

(** The two ticks [computeNewTickRange] compares lie strictly below and
    strictly above the raw tick of the current price. *)
Lemma band_ticks_bracket (currentPrice priceBandPct : R) (s : Z) :
  (0 < s)%Z -> 0 < priceBandPct < 100 ->
  tickToPrice (minAligned s) < currentPrice < tickToPrice (maxAligned s) ->
  let lo := clampTick (aligned_raw (currentPrice * (1 - priceBandPct / 100))
                         s RoundFloor) s in
  let hi := clampTick (aligned_raw (currentPrice * (1 + priceBandPct / 100))
                         s RoundCeil) s in
  IZR lo < ln currentPrice / LOG_TICK_BASE < IZR hi.
Proof.
  intros Hs [Hb1 Hb2] [Hmin Hmax]. cbv zeta.
  assert (Hp : 0 < currentPrice).
  { pose proof (tickToPrice_pos (minAligned s)). lra. }
  set (lowerPrice := currentPrice * (1 - priceBandPct / 100)).
  set (upperPrice := currentPrice * (1 + priceBandPct / 100)).
  assert (Hlp : 0 < lowerPrice) by (unfold lowerPrice; nra).
  assert (Hlc : lowerPrice < currentPrice) by (unfold lowerPrice; nra).
  assert (Hcu : currentPrice < upperPrice) by (unfold upperPrice; nra).
  set (raw := ln currentPrice / LOG_TICK_BASE).
  assert (Hrmin : IZR (minAligned s) < raw)
    by (apply rawTick_lt_of_tickToPrice; assumption).
  assert (Hrmax : raw < IZR (maxAligned s))
    by (apply rawTick_gt_of_tickToPrice; assumption).
  split.
  - destruct (clampTick_low_cases (aligned_raw lowerPrice s RoundFloor) s)
      as [E | Hle].
    + rewrite E. exact Hrmin.
    + apply IZR_le in Hle.
      pose proof (aligned_floor_le_raw lowerPrice s Hs).
      pose proof (rawTick_lt lowerPrice currentPrice Hlp Hlc). unfold raw. lra.
  - destruct (clampTick_high_cases (aligned_raw upperPrice s RoundCeil) s Hs)
      as [E | Hle].
    + rewrite E. exact Hrmax.
    + apply IZR_le in Hle.
      pose proof (raw_le_aligned_ceil upperPrice s Hs).
      pose proof (rawTick_lt currentPrice upperPrice Hp Hcu). unfold raw. lra.
Qed.

(** X6: for a band of at least a millionth of a percent and under 100%,
    far above the resolution of a double, and a current price strictly
    between the prices of the two aligned bounds, [computeNewTickRange]
    does not fail: it returns a range with tickLower < tickUpper whose
    prices lie strictly below and strictly above the current price, both
    ticks being multiples of the spacing within [MIN_TICK, MAX_TICK]. *)
Theorem computeNewTickRange_brackets_price
    (currentPrice priceBandPct : R) (s : Z) :
  (0 < s)%Z -> 1 / 1000000 <= priceBandPct < 100 ->
  tickToPrice (minAligned s) < currentPrice < tickToPrice (maxAligned s) ->
  exists range : TickRange,
    computeNewTickRange currentPrice priceBandPct s = Ok range
    /\ (tickLower range < tickUpper range)%Z
    /\ tickToPrice (tickLower range) < currentPrice < tickToPrice (tickUpper range)
    /\ (s | tickLower range)%Z /\ (s | tickUpper range)%Z
    /\ (MIN_TICK <= tickLower range)%Z /\ (tickUpper range <= MAX_TICK)%Z.
Proof.
  intros Hs [Hb1 Hb2] Hprice.
  assert (Hband : 0 < priceBandPct < 100) by lra.
  assert (Hp : 0 < currentPrice).
  { pose proof (tickToPrice_pos (minAligned s)). lra. }
  pose proof (band_ticks_bracket currentPrice priceBandPct s Hs Hband Hprice)
    as Hbracket. cbv zeta in Hbracket.
  destruct (band_prices currentPrice priceBandPct Hp ltac:(lra)) as (Hlp & _ & Hup).
  set (lowerPrice := currentPrice * (1 - priceBandPct / 100)) in *.
  set (upperPrice := currentPrice * (1 + priceBandPct / 100)) in *.
  set (lo := clampTick (aligned_raw lowerPrice s RoundFloor) s) in *.
  set (hi := clampTick (aligned_raw upperPrice s RoundCeil) s) in *.
  destruct Hbracket as [Hlo Hhi].
  assert (Hlohi : (lo < hi)%Z) by (apply lt_IZR; lra).
  exists (mkTickRange lo hi). cbn [tickLower tickUpper].
  split.
  - rewrite computeNewTickRange_unfold. fold lowerPrice upperPrice.
    rewrite !priceToTick_positive by lra. fold lo hi.
    destruct (Z.geb_spec lo hi); [lia | reflexivity].
  - split; [exact Hlohi|]. split.
    + split; [apply tickToPrice_lt_price | apply price_lt_tickToPrice]; assumption.
    + pose proof (minAligned_bounds s Hs) as Hmin.
      pose proof (maxAligned_bounds s Hs) as Hmax.
      pose proof (clampTick_within (aligned_raw lowerPrice s RoundFloor) s Hs) as Hwl.
      pose proof (clampTick_within (aligned_raw upperPrice s RoundCeil) s Hs) as Hwu.
      fold lo in Hwl. fold hi in Hwu.
      repeat split; try lia;
        apply clampTick_aligned_input; apply Z.divide_factor_r.
Qed.

Lemma aligned_bounds_bracket_one (s : Z) :
  (0 < s)%Z -> (s <= 443636)%Z ->
  tickToPrice (minAligned s) < 1 < tickToPrice (maxAligned s).
Proof.
  intros Hs Hle. rewrite <- tickToPrice_0.
  rewrite minAligned_Z, maxAligned_Z by exact Hs.
  unfold minAlignedZ, maxAlignedZ, MIN_TICK, MAX_TICK.
  change (- -443636)%Z with 443636%Z.
  assert (Hq : (1 <= 443636 / s)%Z).
  { apply Z.div_le_lower_bound; lia. }
  split; apply tickToPrice_lt; nia.
Qed.

Lemma computeNewTickRange_brackets_price_witness :
  (0 < 10)%Z /\ 1 / 1000000 <= 3 / 2 < 100
  /\ tickToPrice (minAligned 10) < 1 < tickToPrice (maxAligned 10)
  /\ exists range : TickRange,
       computeNewTickRange 1 (3 / 2) 10 = Ok range
       /\ (tickLower range < tickUpper range)%Z
       /\ tickToPrice (tickLower range) < 1 < tickToPrice (tickUpper range)
       /\ (10 | tickLower range)%Z /\ (10 | tickUpper range)%Z
       /\ (MIN_TICK <= tickLower range)%Z /\ (tickUpper range <= MAX_TICK)%Z.
Proof.
  assert (Hs : (0 < 10)%Z) by lia.
  assert (Hb : 1 / 1000000 <= 3 / 2 < 100) by lra.
  pose proof (aligned_bounds_bracket_one 10 Hs ltac:(lia)) as Hone.
  split; [exact Hs | split; [exact Hb | split; [exact Hone |]]].
  apply (computeNewTickRange_brackets_price 1 (3 / 2) 10 Hs Hb Hone).
Defined.

(** X7: a wider band never gives a narrower range. For a positive price
    and bands 0 <= narrow <= wide < 100, whenever the narrow band yields a
    range the wide band yields one too, and it contains the narrow one. *)
Theorem computeNewTickRange_wider_band_contains
    (currentPrice narrow wide : R) (s : Z) :
  0 < currentPrice -> 0 <= narrow -> narrow <= wide -> wide < 100 -> (0 < s)%Z ->
  match computeNewTickRange currentPrice narrow s with
  | Ok inner =>
      exists outer : TickRange,
        computeNewTickRange currentPrice wide s = Ok outer
        /\ (tickLower outer <= tickLower inner)%Z
        /\ (tickUpper inner <= tickUpper outer)%Z
  | Throw _ => True
  end.
Proof.
  intros Hp Hn Hnw Hw Hs.
  destruct (band_prices currentPrice narrow Hp ltac:(lra)) as (Hn1 & Hn2 & Hn3).
  destruct (band_prices currentPrice wide Hp ltac:(lra)) as (Hw1 & Hw2 & Hw3).
  assert (Hlow : currentPrice * (1 - wide / 100) <= currentPrice * (1 - narrow / 100))
    by nra.
  assert (Hup : currentPrice * (1 + narrow / 100) <= currentPrice * (1 + wide / 100))
    by nra.
  assert (Hn4 : 0 < currentPrice * (1 + narrow / 100)) by lra.
  rewrite !computeNewTickRange_unfold.
  rewrite !priceToTick_positive by lra.
  pose proof (clampTick_mono _ _ s
                (aligned_raw_mono _ _ s RoundFloor Hw1 Hlow Hs)) as Hlo.
  pose proof (clampTick_mono _ _ s
                (aligned_raw_mono _ _ s RoundCeil Hn4 Hup Hs)) as Hhi.
  destruct (Z.geb_spec
              (clampTick (aligned_raw (currentPrice * (1 - narrow / 100)) s RoundFloor) s)
              (clampTick (aligned_raw (currentPrice * (1 + narrow / 100)) s RoundCeil) s))
    as [Hge | Hlt]; [exact I|].
  destruct (Z.geb_spec
              (clampTick (aligned_raw (currentPrice * (1 - wide / 100)) s RoundFloor) s)
              (clampTick (aligned_raw (currentPrice * (1 + wide / 100)) s RoundCeil) s))
    as [Hge' | Hlt']; [lia|].
  eexists. split; [reflexivity|]. cbn [tickLower tickUpper]. split; assumption.
Qed.

Lemma computeNewTickRange_wider_band_witness :
  0 < 1 /\ 0 <= 1 / 2 /\ 1 / 2 <= 5 /\ 5 < 100 /\ (0 < 1)%Z
  /\ match computeNewTickRange 1 (1 / 2) 1 with
     | Ok inner =>
         exists outer : TickRange,
           computeNewTickRange 1 5 1 = Ok outer
           /\ (tickLower outer <= tickLower inner)%Z
           /\ (tickUpper inner <= tickUpper outer)%Z
     | Throw _ => True
     end.
Proof.
  repeat (split; [first [lra | lia]|]).
  apply (computeNewTickRange_wider_band_contains 1 (1 / 2) 5 1); first [lra | lia].
Defined.

End TickExtras.

(** ** Center, drift and backoff *)

Module CenterDriftBackoff.

Import Utils UtilsFacts StrategyClaims TickMathFacts.
Local Open Scope R_scope.

Lemma centerTick_Z (lo hi : Z) : centerTick lo hi = ((lo + hi + 1) / 2)%Z.
Proof.
  unfold centerTick, Math_round.
  replace (IZR (lo + hi) / 2 + 1 / 2) with (IZR (lo + hi + 1) / IZR 2)
    by (rewrite (plus_IZR (lo + hi) 1); lra).
  apply (Math_floor_quotient (lo + hi + 1) 2). lia.
Qed.

(** X8: [centerTick] is the midpoint rounded half up: it equals
    floor((lower + upper + 1) / 2), does not depend on the order of the
    two bounds, and lies between them. *)
Theorem centerTick_midpoint (lo hi : Z) :
  centerTick lo hi = ((lo + hi + 1) / 2)%Z
  /\ centerTick lo hi = centerTick hi lo
  /\ (Z.min lo hi <= centerTick lo hi <= Z.max lo hi)%Z
  /\ (2 * centerTick lo hi - 1 <= lo + hi <= 2 * centerTick lo hi)%Z.
Proof.
  rewrite !centerTick_Z.
  replace (hi + lo + 1)%Z with (lo + hi + 1)%Z by lia.
  pose proof (Z.div_mod (lo + hi + 1) 2 ltac:(lia)) as Hdm.
  pose proof (Z.mod_pos_bound (lo + hi + 1) 2 ltac:(lia)) as Hm.
  repeat split; lia.
Qed.

Lemma driftPct_formula (price : R) (lo hi : Z) :
  driftPct price lo hi
  = (price - tickToPrice (centerTick lo hi)) / tickToPrice (centerTick lo hi) * 100.
Proof. reflexivity. Qed.

(** X9: the drift is positive exactly when the price is above the price
    of the center tick, negative exactly when below, zero exactly at it;
    and a price of (1 + d/100) times the center price has drift d. *)
Theorem driftPct_sign (price : R) (lo hi : Z) :
  let centerPrice := tickToPrice (centerTick lo hi) in
  (0 < driftPct price lo hi <-> centerPrice < price)
  /\ (driftPct price lo hi < 0 <-> price < centerPrice)
  /\ (driftPct price lo hi = 0 <-> price = centerPrice)
  /\ (forall d : R, driftPct (centerPrice * (1 + d / 100)) lo hi = d).
Proof.
  cbv zeta. rewrite driftPct_formula.
  pose proof (tickToPrice_pos (centerTick lo hi)) as Hc.
  set (c := tickToPrice (centerTick lo hi)) in *.
  assert (Hform : (price - c) / c * 100 = (price - c) * (100 / c))
    by (field; lra).
  assert (Hk : 0 < 100 / c) by (apply Rdiv_lt_0_compat; lra).
  rewrite Hform.
  split; [|split; [|split]].
  - split; intros Hx; nra.
  - split; intros Hx; nra.
  - split; intros Hx; [nra | subst price; lra].
  - intros d. rewrite driftPct_formula. fold c. field. lra.
Qed.

(** X10: the backoff delay of attempt 0, 1, 2, ... is 1000 ms doubled
    each time up to attempt 4 and 30000 ms from attempt 5 on; it never
    decreases from one attempt to a later one and stays within
    [1000, 30000]. *)
Theorem backoffMs_doubles_then_caps (a b : Z) :
  (0 <= a)%Z -> (a <= b)%Z ->
  (1000 <= backoffMs a <= 30000)%Z
  /\ (backoffMs a <= backoffMs b)%Z
  /\ ((a <= 4)%Z -> backoffMs a = (1000 * 2 ^ a)%Z)
  /\ ((5 <= a)%Z -> backoffMs a = 30000%Z).
Proof.
  intros Ha Hab. unfold backoffMs, backoffMs_with.
  assert (Hpa : (1 <= 2 ^ a)%Z)
    by (pose proof (Z.pow_pos_nonneg 2 a ltac:(lia) Ha); lia).
  assert (Hmono : (2 ^ a <= 2 ^ b)%Z) by (apply Z.pow_le_mono_r; lia).
  assert (Hsmall : (a <= 4 -> 2 ^ a <= 2 ^ 4)%Z)
    by (intros H4; apply Z.pow_le_mono_r; lia).
  assert (Hbig : (5 <= a -> 2 ^ 5 <= 2 ^ a)%Z)
    by (intros H5; apply Z.pow_le_mono_r; lia).
  change (2 ^ 4)%Z with 16%Z in Hsmall. change (2 ^ 5)%Z with 32%Z in Hbig.
  repeat split; try lia.
Qed.

Lemma backoffMs_doubles_then_caps_witness :
  (0 <= 3)%Z /\ (3 <= 7)%Z
  /\ (1000 <= backoffMs 3 <= 30000)%Z
  /\ (backoffMs 3 <= backoffMs 7)%Z
  /\ ((3 <= 4)%Z -> backoffMs 3 = (1000 * 2 ^ 3)%Z)
  /\ ((5 <= 3)%Z -> backoffMs 3 = 30000%Z).
Proof.
  split; [lia | split; [lia |]].
  apply (backoffMs_doubles_then_caps 3 7); lia.
Defined.

End CenterDriftBackoff.

(** ** More on the strategy engine *)

Module StrategyExtras.

Import Utils UtilsFacts TickClaims Config Strategy StrategyTerms StrategyClaims
  TickTerms TickMathFacts.
Local Open Scope R_scope.

(** What a returned range of [computeNewTickRange] is made of. *)
Lemma computeNewTickRange_Ok_inv (currentPrice priceBandPct : R) (s : Z)
    (range : TickRange) :
  computeNewTickRange currentPrice priceBandPct s = Ok range ->
  (tickLower range < tickUpper range)%Z
  /\ ((0 < s)%Z ->
      (s | tickLower range)%Z /\ (s | tickUpper range)%Z
      /\ (MIN_TICK <= tickLower range)%Z /\ (tickUpper range <= MAX_TICK)%Z).
Proof.
  rewrite computeNewTickRange_unfold.
  destruct (priceToTick (currentPrice * (1 - priceBandPct / 100)) s RoundFloor)
    as [lo | e] eqn:Elo; [|discriminate].
  destruct (priceToTick (currentPrice * (1 + priceBandPct / 100)) s RoundCeil)
    as [hi | e] eqn:Ehi; [|discriminate].
  destruct (Z.geb_spec lo hi) as [Hge | Hlt]; [discriminate|].
  intros [= <-]. cbn [tickLower tickUpper]. split; [exact Hlt|].
  intros Hs.
  assert (Hlp : 0 < currentPrice * (1 - priceBandPct / 100)).
  { unfold priceToTick in Elo. destruct (Rle_dec _ 0); [discriminate | lra]. }
  assert (Hup : 0 < currentPrice * (1 + priceBandPct / 100)).
  { unfold priceToTick in Ehi. destruct (Rle_dec _ 0); [discriminate | lra]. }
  rewrite priceToTick_positive in Elo by exact Hlp.
  rewrite priceToTick_positive in Ehi by exact Hup.
  injection Elo as <-. injection Ehi as <-.
  pose proof (minAligned_bounds s Hs). pose proof (maxAligned_bounds s Hs).
  pose proof (clampTick_within
                (aligned_raw (currentPrice * (1 - priceBandPct / 100)) s RoundFloor)
                s Hs).
  pose proof (clampTick_within
                (aligned_raw (currentPrice * (1 + priceBandPct / 100)) s RoundCeil)
                s Hs).
  unfold aligned_raw in *.
  repeat split; try lia;
    apply clampTick_aligned_input; apply Z.divide_factor_r.
Qed.

(** X11: what [evaluateStrategy] hands back. A returned decision carries
    the drift of the current price; it says to rebalance exactly when its
    trigger is not none, and exactly then both new ticks are present, with
    newTickLower < newTickUpper and, for a positive tick spacing, both
    multiples of it within [MIN_TICK, MAX_TICK]. It throws only when a
    trigger has fired and [computeNewTickRange] throws, and then the same
    error. *)
Theorem evaluateStrategy_decision_shape
    (pool : PoolState) (position : PositionState) (config : BotConfig) :
  match evaluateStrategy pool position config with
  | Ok d =>
      currentDriftPct d
      = driftPct (currentPrice pool) (pos_tickLower position) (pos_tickUpper position)
      /\ (shouldRebalance d = true <-> trigger d <> none)
      /\ (shouldRebalance d = false -> newTickLower d = None /\ newTickUpper d = None)
      /\ (shouldRebalance d = true ->
          exists lo hi : Z,
            newTickLower d = Some lo /\ newTickUpper d = Some hi
            /\ (lo < hi)%Z
            /\ ((0 < tickSpacing pool)%Z ->
                (tickSpacing pool | lo)%Z /\ (tickSpacing pool | hi)%Z
                /\ (MIN_TICK <= lo)%Z /\ (hi <= MAX_TICK)%Z))
  | Throw e =>
      computeNewTickRange (currentPrice pool) (priceBandPct config) (tickSpacing pool)
      = Throw e
      /\ (isTickInRange (currentTick pool) (pos_tickLower position)
            (pos_tickUpper position) = false
          \/ Rabs (driftPct (currentPrice pool) (pos_tickLower position)
                     (pos_tickUpper position)) > driftTriggerPct config)
  end.
Proof.
  unfold evaluateStrategy.
  assert (Hshape : forall why : RebalanceTrigger, why <> none ->
    isTickInRange (currentTick pool) (pos_tickLower position)
      (pos_tickUpper position) = false
    \/ Rabs (driftPct (currentPrice pool) (pos_tickLower position)
               (pos_tickUpper position)) > driftTriggerPct config ->
    match
      rbind (computeNewTickRange (currentPrice pool) (priceBandPct config)
               (tickSpacing pool))
        (fun range =>
           Ok (mkStrategyDecision true why
                 (driftPct (currentPrice pool) (pos_tickLower position)
                    (pos_tickUpper position))
                 (Some (tickLower range)) (Some (tickUpper range))))
    with
    | Ok d =>
        currentDriftPct d
        = driftPct (currentPrice pool) (pos_tickLower position) (pos_tickUpper position)
        /\ (shouldRebalance d = true <-> trigger d <> none)
        /\ (shouldRebalance d = false -> newTickLower d = None /\ newTickUpper d = None)
        /\ (shouldRebalance d = true ->
            exists lo hi : Z,
              newTickLower d = Some lo /\ newTickUpper d = Some hi
              /\ (lo < hi)%Z
              /\ ((0 < tickSpacing pool)%Z ->
                  (tickSpacing pool | lo)%Z /\ (tickSpacing pool | hi)%Z
                  /\ (MIN_TICK <= lo)%Z /\ (hi <= MAX_TICK)%Z))
    | Throw e =>
        computeNewTickRange (currentPrice pool) (priceBandPct config) (tickSpacing pool)
        = Throw e
        /\ (isTickInRange (currentTick pool) (pos_tickLower position)
              (pos_tickUpper position) = false
            \/ Rabs (driftPct (currentPrice pool) (pos_tickLower position)
                       (pos_tickUpper position)) > driftTriggerPct config)
    end).
  { intros why Hwhy Hfired.
    destruct (computeNewTickRange (currentPrice pool) (priceBandPct config)
                (tickSpacing pool)) as [range | e] eqn:Erange; cbn [rbind].
    - destruct (computeNewTickRange_Ok_inv _ _ _ _ Erange) as [Hlt Hal].
      cbn. split; [reflexivity|]. split; [split; auto|].
      split; [discriminate|]. intros _.
      exists (tickLower range), (tickUpper range). auto.
    - split; [reflexivity | exact Hfired]. }
  destruct (isTickInRange (currentTick pool) (pos_tickLower position)
              (pos_tickUpper position)) eqn:Ein; cbn [negb].
  - destruct (Rgt_dec _ _) as [Hgt | Hle].
    + apply Hshape; [discriminate | right; exact Hgt].
    + cbn. split; [reflexivity|]. split; [split; [discriminate | congruence]|].
      split; [auto | discriminate].
  - apply Hshape; [discriminate | left; reflexivity].
Qed.

(** *** Token split *)

Lemma sqrt_tick_prices (lo hi : Z) :
  (lo < hi)%Z ->
  0 < sqrt (tickToPrice lo) /\ sqrt (tickToPrice lo) < sqrt (tickToPrice hi).
Proof.
  intros Hlt. pose proof (tickToPrice_pos lo) as Hp.
  pose proof (tickToPrice_lt lo hi Hlt) as Hlh.
  split; [apply sqrt_lt_R0; exact Hp | apply sqrt_lt_1_alt; lra].
Qed.

Lemma inv_lt_of_lt (a b : R) : 0 < a -> a < b -> 1 / b < 1 / a.
Proof.
  intros Ha Hab. unfold Rdiv. rewrite !Rmult_1_l.
  apply Rinv_lt_contravar; [nra | exact Hab].
Qed.

Lemma inv_le_of_le (a b : R) : 0 < a -> a <= b -> 1 / b <= 1 / a.
Proof.
  intros Ha [Hab | ->]; [left; apply inv_lt_of_lt; assumption | right; reflexivity].
Qed.

(** The split written with the square root of the price clamped into the
    range. *)
Lemma computeTokenAmounts_clamped (L : Z) (price : R) (lo hi : Z) :
  (lo < hi)%Z ->
  let sl := sqrt (tickToPrice lo) in
  let su := sqrt (tickToPrice hi) in
  let c := Rmax sl (Rmin su (sqrt price)) in
  computeTokenAmounts L price lo hi
  = mkTokenAmounts (IZR L * (1 / c - 1 / su)) (IZR L * (c - sl)).
Proof.
  intros Hlt. cbv zeta.
  destruct (sqrt_tick_prices lo hi Hlt) as [Hsl Hslu].
  pose proof (tickToPrice_pos lo) as Hplo.
  pose proof (tickToPrice_lt lo hi Hlt) as Hplt.
  unfold computeTokenAmounts.
  destruct (Rle_dec price (tickToPrice lo)) as [Hbelow | Hnb].
  - assert (Hs : sqrt price <= sqrt (tickToPrice lo)) by (apply sqrt_le_1_alt; exact Hbelow).
    rewrite Rmin_right by lra. rewrite Rmax_left by lra.
    f_equal. ring.
  - destruct (Rge_dec price (tickToPrice hi)) as [Habove | Hna].
    + assert (Hs : sqrt (tickToPrice hi) <= sqrt price) by (apply sqrt_le_1_alt; lra).
      rewrite Rmin_left by lra. rewrite Rmax_right by lra.
      f_equal. ring.
    + assert (Hs1 : sqrt (tickToPrice lo) < sqrt price) by (apply sqrt_lt_1_alt; lra).
      assert (Hs2 : sqrt price < sqrt (tickToPrice hi)) by (apply sqrt_lt_1_alt; lra).
      rewrite Rmin_right by lra. rewrite Rmax_right by lra.
      reflexivity.
Qed.

(** X12: with positive liquidity the split is strict away from the
    edges of the range: at or below the lower price the position is token
    A only and that amount is positive, at or above the upper price it is
    token B only and positive, and for a price at least one tick inside
    the range on both sides both amounts are positive. *)
Theorem computeTokenAmounts_strictly_positive (L : Z) (price : R) (lo hi : Z) :
  (0 < L)%Z -> (lo < hi)%Z ->
  let out := computeTokenAmounts L price lo hi in
  (price <= tickToPrice lo -> 0 < amountA out /\ amountB out = 0)
  /\ (price >= tickToPrice hi -> amountA out = 0 /\ 0 < amountB out)
  /\ (tickToPrice (lo + 1) <= price <= tickToPrice (hi - 1) ->
      0 < amountA out /\ 0 < amountB out).
Proof.
  intros HL Hlt. cbv zeta.
  assert (HLR : 0 < IZR L) by (apply IZR_lt; exact HL).
  destruct (sqrt_tick_prices lo hi Hlt) as [Hsl Hslu].
  pose proof (tickToPrice_pos lo) as Hplo.
  pose proof (tickToPrice_lt lo hi Hlt) as Hplt.
  pose proof (tickToPrice_lt lo (lo + 1) ltac:(lia)) as Hstep_lo.
  pose proof (tickToPrice_lt (hi - 1) hi ltac:(lia)) as Hstep_hi.
  pose proof (inv_lt_of_lt _ _ Hsl Hslu) as Hinv.
  unfold computeTokenAmounts.
  destruct (Rle_dec price (tickToPrice lo)) as [Hbelow | Hnb]; cbn [amountA amountB].
  - split; [|split]; intros Hcase; try lra.
    split; [apply Rmult_lt_0_compat; lra | reflexivity].
  - destruct (Rge_dec price (tickToPrice hi)) as [Habove | Hna]; cbn [amountA amountB].
    + split; [|split]; intros Hcase; try lra.
      split; [reflexivity | apply Rmult_lt_0_compat; lra].
    + assert (Hs1 : sqrt (tickToPrice lo) < sqrt price) by (apply sqrt_lt_1_alt; lra).
      assert (Hs2 : sqrt price < sqrt (tickToPrice hi)) by (apply sqrt_lt_1_alt; lra).
      pose proof (inv_lt_of_lt (sqrt price) (sqrt (tickToPrice hi)) ltac:(lra) Hs2)
        as Hinv2.
      split; [|split]; intros Hcase; try lra.
      split; apply Rmult_lt_0_compat; lra.
Qed.

Lemma computeTokenAmounts_strictly_positive_witness :
  (0 < 1000000)%Z /\ (-100 < 100)%Z /\
  let out := computeTokenAmounts 1000000 1 (-100) 100 in
  (1 <= tickToPrice (-100) -> 0 < amountA out /\ amountB out = 0)
  /\ (1 >= tickToPrice 100 -> amountA out = 0 /\ 0 < amountB out)
  /\ (tickToPrice (-100 + 1) <= 1 <= tickToPrice (100 - 1) ->
      0 < amountA out /\ 0 < amountB out).
Proof.
  split; [lia | split; [lia |]].
  apply (computeTokenAmounts_strictly_positive 1000000 1 (-100) 100); lia.
Defined.

(** X13: as the price rises the split moves from token A to token B:
    for fixed liquidity and range, a higher price never needs more token A
    and never needs less token B. *)
Theorem computeTokenAmounts_monotone_in_price
    (L : Z) (p1 p2 : R) (lo hi : Z) :
  (0 <= L)%Z -> (lo < hi)%Z -> p1 <= p2 ->
  amountA (computeTokenAmounts L p2 lo hi) <= amountA (computeTokenAmounts L p1 lo hi)
  /\ amountB (computeTokenAmounts L p1 lo hi) <= amountB (computeTokenAmounts L p2 lo hi).
Proof.
  intros HL Hlt Hp.
  assert (HLR : 0 <= IZR L) by (apply IZR_le; exact HL).
  destruct (sqrt_tick_prices lo hi Hlt) as [Hsl Hslu].
  rewrite !(computeTokenAmounts_clamped L _ lo hi Hlt). cbn [amountA amountB].
  set (sl := sqrt (tickToPrice lo)) in *. set (su := sqrt (tickToPrice hi)) in *.
  assert (Hs : sqrt p1 <= sqrt p2) by (apply sqrt_le_1_alt; exact Hp).
  assert (Hc : Rmax sl (Rmin su (sqrt p1)) <= Rmax sl (Rmin su (sqrt p2))).
  { apply Rle_max_compat_l. apply Rle_min_compat_l. exact Hs. }
  assert (Hc1 : 0 < Rmax sl (Rmin su (sqrt p1))).
  { pose proof (Rmax_l sl (Rmin su (sqrt p1))). lra. }
  pose proof (inv_le_of_le _ _ Hc1 Hc) as Hinv.
  split; apply Rmult_le_compat_l; lra.
Qed.

Lemma computeTokenAmounts_monotone_witness :
  (0 <= 1000000)%Z /\ (-100 < 100)%Z /\ 1 <= 2
  /\ amountA (computeTokenAmounts 1000000 2 (-100) 100)
     <= amountA (computeTokenAmounts 1000000 1 (-100) 100)
  /\ amountB (computeTokenAmounts 1000000 1 (-100) 100)
     <= amountB (computeTokenAmounts 1000000 2 (-100) 100).
Proof.
  split; [lia | split; [lia | split; [lra |]]].
  apply (computeTokenAmounts_monotone_in_price 1000000 1 2 (-100) 100); [lia | lia | lra].
Defined.

(** *** Swap sizing *)

(** The plan [computeSwapNeeded] returns, read off its branches. *)
Lemma computeSwapNeeded_Some_inv (balanceA balanceB : Z)
    (targetRatioAtoB currentPrice : R) (slippageBps : Z) (plan : SwapPlan) :
  computeSwapNeeded balanceA balanceB targetRatioAtoB currentPrice slippageBps
  = Some plan ->
  let x := swap_x balanceA balanceB targetRatioAtoB currentPrice in
  0 < targetRatioAtoB
  /\ swapAmount plan <> 0%Z
  /\ ((0 < x /\ plan = mkSwapPlan true (Math_floor x))
      \/ (x <= 0 /\ plan = mkSwapPlan false (Math_floor (Rabs x * currentPrice)))).
Proof.
  cbv zeta. unfold computeSwapNeeded.
  fold (swap_x balanceA balanceB targetRatioAtoB currentPrice).
  set (x := swap_x balanceA balanceB targetRatioAtoB currentPrice).
  destruct (Rle_dec targetRatioAtoB 0) as [Hr | Hr]; [discriminate|].
  destruct (Req_dec_T _ 0); [discriminate|].
  destruct (Rlt_dec _ _); [discriminate|].
  destruct (Rgt_dec x 0) as [Hx | Hx].
  - destruct (Z.eqb_spec (Math_floor x) 0) as [E | E]; [discriminate|].
    intros [= <-]. cbn. split; [lra|]. split; [exact E|]. left. split; [lra | reflexivity].
  - destruct (Z.eqb_spec (Math_floor (Rabs x * currentPrice)) 0) as [E | E];
      [discriminate|].
    intros [= <-]. cbn. split; [lra|]. split; [exact E|]. right. split; [lra | reflexivity].
Qed.

(** X15: the direction of a planned swap follows the imbalance, and the
    amount x the plan is built from restores the target ratio. For
    non-negative balances, a positive target ratio and a positive price:
    selling x of token A at the current price leaves
    (balanceA - x) = targetRatioAtoB * (balanceB + x * currentPrice); and a
    returned plan sells token A exactly when balanceA exceeds
    targetRatioAtoB * balanceB. *)
Theorem computeSwapNeeded_restores_ratio (balanceA balanceB : Z)
    (targetRatioAtoB currentPrice : R) (slippageBps : Z) :
  (0 <= balanceA)%Z -> (0 <= balanceB)%Z ->
  0 < targetRatioAtoB -> 0 < currentPrice ->
  let x := swap_x balanceA balanceB targetRatioAtoB currentPrice in
  IZR balanceA - x = targetRatioAtoB * (IZR balanceB + x * currentPrice)
  /\ (0 < x <-> targetRatioAtoB * IZR balanceB < IZR balanceA)
  /\ match computeSwapNeeded balanceA balanceB targetRatioAtoB currentPrice
             slippageBps with
     | Some plan =>
         (swapAtoB plan = true <-> targetRatioAtoB * IZR balanceB < IZR balanceA)
         /\ (swapAtoB plan = false <-> IZR balanceA < targetRatioAtoB * IZR balanceB)
     | None => True
     end.
Proof.
  intros HA HB Hr Hp. cbv zeta.
  assert (Hrp : 0 < targetRatioAtoB * currentPrice)
    by (apply Rmult_lt_0_compat; assumption).
  assert (Hd : 0 < 1 + targetRatioAtoB * currentPrice) by lra.
  assert (Hsign : forall n : R, (0 < n / (1 + targetRatioAtoB * currentPrice) <-> 0 < n)
                           /\ (n / (1 + targetRatioAtoB * currentPrice) = 0 <-> n = 0)).
  { intros n. split; split; intros Hn.
    - apply (Rmult_lt_compat_r _ _ _ Hd) in Hn.
      unfold Rdiv in Hn. rewrite Rmult_assoc, Rinv_l, Rmult_0_l in Hn by lra. lra.
    - apply Rdiv_lt_0_compat; assumption.
    - apply (f_equal (fun v => v * (1 + targetRatioAtoB * currentPrice))) in Hn.
      unfold Rdiv in Hn. rewrite Rmult_assoc, Rinv_l, Rmult_0_l in Hn by lra. lra.
    - subst n. unfold Rdiv. ring. }
  assert (Hpos : 0 < swap_x balanceA balanceB targetRatioAtoB currentPrice
                 <-> targetRatioAtoB * IZR balanceB < IZR balanceA).
  { unfold swap_x. rewrite (proj1 (Hsign _)). split; lra. }
  assert (Hzero : swap_x balanceA balanceB targetRatioAtoB currentPrice = 0
                  <-> IZR balanceA = targetRatioAtoB * IZR balanceB).
  { unfold swap_x. rewrite (proj2 (Hsign _)). split; lra. }
  split; [unfold swap_x; field; lra|].
  split; [exact Hpos|].
  destruct (computeSwapNeeded balanceA balanceB targetRatioAtoB currentPrice
              slippageBps) as [plan |] eqn:Eplan; [|exact I].
  destruct (computeSwapNeeded_Some_inv _ _ _ _ _ _ Eplan) as (_ & Hnz & Hcases).
  set (x := swap_x balanceA balanceB targetRatioAtoB currentPrice) in *.
  destruct Hcases as [[Hx ->] | [Hx ->]]; cbn [swapAtoB swapAmount] in *.
  - split; split; intros Hc; try reflexivity; try discriminate.
    + apply Hpos. exact Hx.
    + apply Hpos in Hx. lra.
  - assert (Hxneg : x < 0).
    { destruct Hx as [Hlt | Heq]; [exact Hlt|].
      exfalso. apply Hnz. rewrite Heq, Rabs_R0, Rmult_0_l. apply (Math_floor_IZR 0). }
    split; split; intros Hc; try reflexivity; try discriminate.
    + apply Hpos in Hc. lra.
    + destruct (Rtotal_order (IZR balanceA) (targetRatioAtoB * IZR balanceB))
        as [Hlt | [Heq | Hgt]]; [exact Hlt | |].
      * apply Hzero in Heq. lra.
      * apply Hpos in Hgt. lra.
Qed.

Lemma computeSwapNeeded_restores_ratio_witness :
  (0 <= 10000)%Z /\ (0 <= 100)%Z /\ 0 < 1 /\ 0 < 1 /\
  let x := swap_x 10000 100 1 1 in
  IZR 10000 - x = 1 * (IZR 100 + x * 1)
  /\ (0 < x <-> 1 * IZR 100 < IZR 10000)
  /\ match computeSwapNeeded 10000 100 1 1 50 with
     | Some plan =>
         (swapAtoB plan = true <-> 1 * IZR 100 < IZR 10000)
         /\ (swapAtoB plan = false <-> IZR 10000 < 1 * IZR 100)
     | None => True
     end.
Proof.
  split; [lia | split; [lia | split; [lra | split; [lra |]]]].
  apply (computeSwapNeeded_restores_ratio 10000 100 1 1 50); [lia | lia | lra | lra].
Defined.

End StrategyExtras.

(** ** More on the state store *)

Module PersistenceExtras.

Import Persistence Store StoreTerms.
Local Open Scope Z_scope.

Lemma spread_as_partial (state : BotState) :
  spread_over_default (as_partial state) = state.
Proof. destruct state. reflexivity. Qed.

(** X16: a state file that is missing or cannot be parsed never blocks
    the bot: [loadState] gives the default state with counter 0. A parsed
    file that lacks totalRebalances gets counter 0 and keeps its other
    fields; one that has it keeps it. *)
Theorem loadState_falls_back_to_default `{Json}
    (fs : FileSystem) (statePath : string) :
  (fs !! statePath = None -> loadState fs statePath = DEFAULT_STATE)
  /\ (forall raw : string,
        fs !! statePath = Some raw -> JSON_parse raw = None ->
        loadState fs statePath = DEFAULT_STATE)
  /\ (forall (raw : string) (parsed : PartialBotState),
        fs !! statePath = Some raw -> JSON_parse raw = Some parsed ->
        totalRebalances (loadState fs statePath)
        = match p_totalRebalances parsed with Some n => n | None => 0 end
        /\ lastRebalanceTime (loadState fs statePath) = p_lastRebalanceTime parsed
        /\ lastPositionId (loadState fs statePath) = p_lastPositionId parsed
        /\ lastTickLower (loadState fs statePath) = p_lastTickLower parsed
        /\ lastTickUpper (loadState fs statePath) = p_lastTickUpper parsed
        /\ lastLiquidity (loadState fs statePath) = p_lastLiquidity parsed
        /\ lastTxDigest (loadState fs statePath) = p_lastTxDigest parsed)
  /\ totalRebalances DEFAULT_STATE = 0.
Proof.
  unfold loadState. split; [|split; [|split]].
  - intros ->. reflexivity.
  - intros raw -> ->. reflexivity.
  - intros raw parsed -> ->. destruct parsed as [? ? ? ? ? [n|] ?]; repeat split.
  - reflexivity.
Qed.

(** X17: save then load. If the JSON codec gives a state back from its
    own text, then [loadState] after [saveState] at the same path returns
    the saved state, whatever the file held before; and saving touches no
    other path. *)
Theorem saveState_then_loadState `{Json}
    (fs : FileSystem) (statePath : string) (state : BotState) :
  JSON_parse (JSON_stringify state) = Some (as_partial state) ->
  loadState (saveState fs statePath state) statePath = state
  /\ (forall other : string,
        other <> statePath ->
        saveState fs statePath state !! other = fs !! other
        /\ loadState (saveState fs statePath state) other = loadState fs other).
Proof.
  intros Hcodec. unfold loadState, saveState, FileSystem in *. split.
  - rewrite lookup_insert_eq, Hcodec. apply spread_as_partial.
  - intros other Hother.
    rewrite lookup_insert_ne by congruence. split; reflexivity.
Qed.

Lemma saveState_then_loadState_witness :
  JSON_parse (Json := counter_codec)
    (JSON_stringify (Json := counter_codec) (mkBotState None None None None None 7 None))
  = Some (as_partial (mkBotState None None None None None 7 None))
  /\ loadState (H := counter_codec)
       (saveState (H := counter_codec) ∅ "state.json"
          (mkBotState None None None None None 7 None))
       "state.json"
     = mkBotState None None None None None 7 None.
Proof.
  assert (Hcodec :
    JSON_parse (Json := counter_codec)
      (JSON_stringify (Json := counter_codec)
         (mkBotState None None None None None 7 None))
    = Some (as_partial (mkBotState None None None None None 7 None)))
    by reflexivity.
  split; [exact Hcodec|].
  apply (saveState_then_loadState (H := counter_codec) ∅ "state.json"
           (mkBotState None None None None None 7 None) Hcodec).
Defined.

End PersistenceExtras.

(** ** More on the lock file *)

Module LockExtras.

Import RiskChecks Fixtures StoreTerms LockClaims.
Local Open Scope Z_scope.

Lemma releaseLock_present (lockPath raw : string) (d : Disk) :
  files d !! lockPath = Some raw ->
  releaseLock lockPath d
  = (Ok tt, mkDisk (delete lockPath (files d)) (fs_ops d ++ [OpUnlink lockPath])).
Proof.
  intros Hraw. unfold releaseLock, ebind.
  rewrite (existsSync_present lockPath raw d Hraw).
  unfold unlinkSync. rewrite Hraw. reflexivity.
Qed.

Lemma releaseLock_absent (lockPath : string) (d : Disk) :
  files d !! lockPath = None -> releaseLock lockPath d = (Ok tt, d).
Proof.
  intros Hnone. unfold releaseLock, ebind.
  rewrite (existsSync_absent lockPath d Hnone). reflexivity.
Qed.

(** X18: [releaseLock] never throws, leaves no file at the lock path,
    touches no other path, and is idempotent: a second release changes
    nothing at all. *)
Theorem releaseLock_idempotent (lockPath : string) (d : Disk) :
  let d' := snd (releaseLock lockPath d) in
  fst (releaseLock lockPath d) = Ok tt
  /\ files d' !! lockPath = None
  /\ (forall other : string, other <> lockPath -> files d' !! other = files d !! other)
  /\ releaseLock lockPath d' = (Ok tt, d').
Proof.
  cbv zeta.
  destruct (files d !! lockPath) as [raw |] eqn:Hfile.
  - rewrite (releaseLock_present lockPath raw d Hfile). cbn [fst snd].
    assert (Hgone : files (mkDisk (delete lockPath (files d))
                             (fs_ops d ++ [OpUnlink lockPath])) !! lockPath = None)
      by (cbn [files]; apply lookup_delete_eq).
    repeat split.
    + exact Hgone.
    + intros other Hother. cbn [files]. apply lookup_delete_ne. congruence.
    + apply releaseLock_absent. exact Hgone.
  - rewrite (releaseLock_absent lockPath d Hfile). cbn [fst snd].
    repeat split; [exact Hfile | apply releaseLock_absent; exact Hfile].
Qed.

Section Guard.
Context `{Platform}.

(** [checkConcurrency] when nothing on disk names another process. *)
Lemma checkConcurrency_unowned (lockPath : string) (d : Disk) :
  files d !! lockPath = None
  \/ (exists raw : string,
        files d !! lockPath = Some raw
        /\ (parseInt (String_trim raw) = None
            \/ parseInt (String_trim raw) = Some process_pid)) ->
  checkConcurrency lockPath d = (Ok tt, d).
Proof.
  intros [Hnone | (raw & Hraw & Hcontent)]; unfold checkConcurrency, ebind.
  - rewrite (existsSync_absent lockPath d Hnone). reflexivity.
  - rewrite (existsSync_present lockPath raw d Hraw).
    unfold readFileSync. rewrite Hraw.
    destruct Hcontent as [-> | ->]; [reflexivity|].
    rewrite Z.eqb_refl. reflexivity.
Qed.

(** X19: when there is no lock file, or its content is not a number, or
    it holds the caller's own id, [acquireLock] succeeds without probing
    any process and without deleting anything: it just (over)writes the
    path with the caller's id. *)
Theorem acquireLock_unowned (lockPath : string) (d : Disk) :
  files d !! lockPath = None
  \/ (exists raw : string,
        files d !! lockPath = Some raw
        /\ (parseInt (String_trim raw) = None
            \/ parseInt (String_trim raw) = Some process_pid)) ->
  acquireLock lockPath d
  = (Ok tt,
     mkDisk (<[lockPath := String_of_pid process_pid]> (files d))
            (fs_ops d ++ [OpWrite lockPath (String_of_pid process_pid)])).
Proof.
  intros Hunowned. unfold acquireLock, ebind.
  rewrite (checkConcurrency_unowned lockPath d Hunowned). reflexivity.
Qed.

(** X20: when the liveness probe of another owner fails with an error
    other than ESRCH (for instance EPERM), [acquireLock] throws that error
    and leaves the disk as it was: the lock is neither deleted nor
    overwritten. *)
Theorem acquireLock_probe_error (lockPath raw : string) (pid : Z) (e : error)
    (d : Disk) :
  files d !! lockPath = Some raw ->
  parseInt (String_trim raw) = Some pid ->
  pid <> process_pid ->
  process_kill0 pid = KillThrows e ->
  is_ESRCH e = false ->
  acquireLock lockPath d = (Throw e, d).
Proof.
  intros Hraw Hpid Hother Hkill Hcode. unfold acquireLock, ebind.
  rewrite (checkConcurrency_other_owner lockPath raw pid d Hraw Hpid Hother).
  rewrite Hkill, Hcode. reflexivity.
Qed.

End Guard.

Lemma acquireLock_unowned_witness :
  (files (disk_with "not a pid") !! lock_path = None
   \/ (exists raw : string,
         files (disk_with "not a pid") !! lock_path = Some raw
         /\ (parseInt (Platform := example_platform)
               (String_trim (Platform := example_platform) raw) = None
             \/ parseInt (Platform := example_platform)
                  (String_trim (Platform := example_platform) raw)
                = Some (process_pid (Platform := example_platform)))))
  /\ acquireLock (H := example_platform) lock_path (disk_with "not a pid")
     = (Ok tt,
        mkDisk (<[lock_path := "4242"]> (files (disk_with "not a pid")))
               [OpWrite lock_path "4242"]).
Proof.
  assert (Hpre :
    files (disk_with "not a pid") !! lock_path = None
    \/ (exists raw : string,
          files (disk_with "not a pid") !! lock_path = Some raw
          /\ (parseInt (Platform := example_platform)
                (String_trim (Platform := example_platform) raw) = None
              \/ parseInt (Platform := example_platform)
                   (String_trim (Platform := example_platform) raw)
                 = Some (process_pid (Platform := example_platform))))).
  { right. exists "not a pid". split; [apply disk_with_lookup | left; reflexivity]. }
  split; [exact Hpre|].
  apply (acquireLock_unowned (H := example_platform) lock_path
           (disk_with "not a pid") Hpre).
Defined.

Lemma acquireLock_probe_error_witness :
  files (disk_with "77") !! lock_path = Some "77"
  /\ parseInt (Platform := guarded_platform)
       (String_trim (Platform := guarded_platform) "77") = Some 77
  /\ 77 <> process_pid (Platform := guarded_platform)
  /\ process_kill0 (Platform := guarded_platform) 77
     = KillThrows (ErrnoException "EPERM")
  /\ is_ESRCH (ErrnoException "EPERM") = false
  /\ acquireLock (H := guarded_platform) lock_path (disk_with "77")
     = (Throw (ErrnoException "EPERM"), disk_with "77").
Proof.
  assert (H1 : files (disk_with "77") !! lock_path = Some "77")
    by apply disk_with_lookup.
  assert (H3 : 77 <> process_pid (Platform := guarded_platform)) by discriminate.
  split; [exact H1 | split; [reflexivity | split; [exact H3 |
    split; [reflexivity | split; [reflexivity |]]]]].
  apply (acquireLock_probe_error (H := guarded_platform) lock_path "77" 77
           (ErrnoException "EPERM") (disk_with "77") H1 eq_refl H3 eq_refl eq_refl).
Defined.

Lemma acquireLock_Ok_lookup `{Platform} (lockPath : string) (d d' : Disk) (u : unit) :
  acquireLock lockPath d = (Ok u, d') ->
  files d' !! lockPath = Some (String_of_pid process_pid).
Proof.
  unfold acquireLock, ebind.
  destruct (checkConcurrency lockPath d) as [[[] | e] d1]; [|discriminate].
  apply writeFileSync_lookup.
Qed.

(** X21: the lock keeps a second instance out. Once one process has
    acquired the lock, a different process that reads the stored id back
    and finds its owner alive cannot acquire it: its [acquireLock] throws
    the concurrent-instance error naming the owner and leaves the disk
    untouched. After the owner's [releaseLock] the second process
    acquires the lock. *)
Theorem lock_excludes_second_process (first second : Platform)
    (lockPath : string) (d d' : Disk) :
  process_pid (Platform := first) <> process_pid (Platform := second) ->
  parseInt (Platform := second)
    (String_trim (Platform := second)
       (String_of_pid (Platform := first) (process_pid (Platform := first))))
  = Some (process_pid (Platform := first)) ->
  process_kill0 (Platform := second) (process_pid (Platform := first))
  = KillDelivered ->
  acquireLock (H := first) lockPath d = (Ok tt, d') ->
  acquireLock (H := second) lockPath d'
  = (Throw (AnotherProcessRunning (process_pid (Platform := first)) lockPath), d')
  /\ fst (acquireLock (H := second) lockPath (snd (releaseLock lockPath d')))
     = Ok tt.
Proof.
  intros Hdiff Hread Halive Hfirst.
  pose proof (acquireLock_Ok_lookup (H := first) lockPath d d' tt Hfirst) as Hheld.
  split.
  - unfold acquireLock, ebind.
    rewrite (checkConcurrency_other_owner (H := second) lockPath _ _ d'
               Hheld Hread Hdiff).
    rewrite Halive. reflexivity.
  - rewrite (releaseLock_present lockPath _ d' Hheld). cbn [snd].
    unfold acquireLock, ebind.
    rewrite (checkConcurrency_unowned (H := second)); [reflexivity|].
    left. cbn [files]. apply lookup_delete_eq.
Qed.

Lemma lock_excludes_second_process_witness :
  process_pid (Platform := example_platform)
  <> process_pid (Platform := second_platform)
  /\ parseInt (Platform := second_platform)
       (String_trim (Platform := second_platform)
          (String_of_pid (Platform := example_platform)
             (process_pid (Platform := example_platform))))
     = Some (process_pid (Platform := example_platform))
  /\ process_kill0 (Platform := second_platform)
       (process_pid (Platform := example_platform)) = KillDelivered
  /\ acquireLock (H := example_platform) lock_path (mkDisk ∅ [])
     = (Ok tt, mkDisk (<[lock_path := "4242"]> ∅) [OpWrite lock_path "4242"])
  /\ acquireLock (H := second_platform) lock_path
       (mkDisk (<[lock_path := "4242"]> ∅) [OpWrite lock_path "4242"])
     = (Throw (AnotherProcessRunning 4242 lock_path),
        mkDisk (<[lock_path := "4242"]> ∅) [OpWrite lock_path "4242"]).
Proof.
  assert (H1 : process_pid (Platform := example_platform)
               <> process_pid (Platform := second_platform)) by discriminate.
  assert (H4 : acquireLock (H := example_platform) lock_path (mkDisk ∅ [])
               = (Ok tt, mkDisk (<[lock_path := "4242"]> ∅)
                           [OpWrite lock_path "4242"])).
  { unfold acquireLock, checkConcurrency, ebind.
    rewrite existsSync_absent by apply lookup_empty. reflexivity. }
  split; [exact H1 | split; [reflexivity | split; [reflexivity | split; [exact H4 |]]]].
  apply (lock_excludes_second_process example_platform second_platform lock_path
           (mkDisk ∅ []) _ H1 eq_refl eq_refl H4).
Defined.

End LockExtras.

(** ** More on the transaction execution wrapper *)

Module ExecutionExtras.

Import Utils Config SuiWallet Traces TraceTerms Fixtures ExecutionClaims.
Local Open Scope Z_scope.

Lemma slept_app (evs1 evs2 : list Event) :
  slept (evs1 ++ evs2) = slept evs1 + slept evs2.
Proof.
  induction evs1 as [| ev rest IH]; [reflexivity|].
  destruct ev; cbn [app slept]; rewrite IH; lia.
Qed.

Lemma backoffMs_range (attempt : Z) : 0 <= backoffMs attempt <= 30000.
Proof.
  unfold backoffMs, backoffMs_with.
  pose proof (Z.pow_nonneg 2 attempt ltac:(lia)). lia.
Qed.

Section Wrapper.
Context {W Tx : Type} `{SuiClient W Tx}.

(** X22: in dry-run mode [executeTransaction] asks for one simulation and
    nothing else, whatever the confirmation flag and the retry budget: no
    broadcast, no sleep, no retry. It returns the digest "dry-run" when
    the simulation call returns, and throws the simulation's error when it
    throws. *)
Theorem executeTransaction_dry_run (tx : Tx) (config : BotConfig) (r : Run W) :
  dryRun config = true ->
  trace (snd (executeTransaction tx config r)) = trace r ++ [EvDryRun]
  /\ world (snd (executeTransaction tx config r))
     = snd (buildAndDryRun (setGasBudget (gasBudget config) tx) (world r))
  /\ fst (executeTransaction tx config r)
     = match fst (buildAndDryRun (setGasBudget (gasBudget config) tx) (world r)) with
       | Ok _ => Ok (mkExecReport "dry-run" true)
       | Throw e => Throw e
       end.
Proof.
  intros Hdry. unfold executeTransaction. rewrite Hdry.
  unfold ebind, call_dryRun.
  destruct (buildAndDryRun (setGasBudget (gasBudget config) tx) (world r))
    as [[[] | e] w']; repeat split.
Qed.

(** X23: with a negative retry budget the live, confirmed wrapper makes
    no attempt at all: it throws the never-assigned lastErr (undefined)
    and leaves world and trace as they were. *)
Theorem executeTransaction_negative_budget (tx : Tx) (config : BotConfig)
    (r : Run W) :
  dryRun config = false -> confirm config = true -> maxRetries config < 0 ->
  executeTransaction tx config r = (Throw UndefinedThrown, r).
Proof.
  intros Hlive Hconfirm Hneg. unfold executeTransaction.
  rewrite Hlive, Hconfirm. cbn [negb].
  replace (Z.to_nat (maxRetries config + 1)) with 0%nat by lia.
  reflexivity.
Qed.

Lemma retryLoop_sleep_budget (remaining : nat) :
  forall (attempt : Z) (lastErr : error) (tx : Tx) (r : Run W),
  exists evs : list Event,
    trace (snd (retryLoop remaining attempt lastErr tx r)) = trace r ++ evs
    /\ 0 <= slept evs <= 30000 * Z.of_nat remaining
    /\ (forall report, fst (retryLoop remaining attempt lastErr tx r) = Ok report ->
        slept evs <= 30000 * (Z.of_nat remaining - 1)).
Proof.
  induction remaining as [| n IH]; intros attempt lastErr tx r.
  - exists []. cbn. rewrite app_nil_r. repeat split; try lia. discriminate.
  - rewrite retryLoop_step.
    destruct (signAndExecuteTransaction tx (world r)) as [outcome w'].
    cbv zeta.
    pose proof (backoffMs_range attempt) as Hb.
    assert (Hretry :
      exists evs : list Event,
        trace (snd (retryLoop n (attempt + 1) (error_of outcome) tx
                      (mkRun (sleep_world (backoffMs attempt) w')
                         ((trace r ++ [EvBroadcast attempt outcome])
                            ++ [EvSleep (backoffMs attempt)]))))
        = trace r ++ evs
        /\ 0 <= slept evs <= 30000 * Z.of_nat (S n)
        /\ (forall report,
              fst (retryLoop n (attempt + 1) (error_of outcome) tx
                     (mkRun (sleep_world (backoffMs attempt) w')
                        ((trace r ++ [EvBroadcast attempt outcome])
                           ++ [EvSleep (backoffMs attempt)]))) = Ok report ->
              slept evs <= 30000 * (Z.of_nat (S n) - 1))).
    { destruct (IH (attempt + 1) (error_of outcome) tx
                  (mkRun (sleep_world (backoffMs attempt) w')
                     ((trace r ++ [EvBroadcast attempt outcome])
                        ++ [EvSleep (backoffMs attempt)])))
        as (evs & Htr & Hsl & Hok).
      exists ([EvBroadcast attempt outcome; EvSleep (backoffMs attempt)] ++ evs).
      cbn [trace] in Htr. split.
      - rewrite Htr, <- !app_assoc. reflexivity.
      - rewrite slept_app. cbn [slept]. split; [lia|].
        intros report Hrep. specialize (Hok report Hrep). lia. }
    destruct outcome as [resp | e]; [|exact Hretry].
    destruct (bool_decide (resp_status resp = Some "success")); [|exact Hretry].
    exists [EvBroadcast attempt (Ok resp)]. cbn. repeat split; lia.
Qed.

(** X24: the wrapper's waiting is bounded. In live mode with the
    confirmation flag set and a retry budget maxRetries >= 0, the sleeps
    of one call add up to at most 30000 ms times (maxRetries + 1), and to
    at most 30000 ms times maxRetries when the call returns a digest. *)
Theorem executeTransaction_sleep_budget (tx : Tx) (config : BotConfig) (r : Run W) :
  dryRun config = false -> confirm config = true -> 0 <= maxRetries config ->
  exists evs : list Event,
    trace (snd (executeTransaction tx config r)) = trace r ++ evs
    /\ 0 <= slept evs <= 30000 * (maxRetries config + 1)
    /\ (forall report, fst (executeTransaction tx config r) = Ok report ->
        slept evs <= 30000 * maxRetries config).
Proof.
  intros Hlive Hconfirm Hretries. unfold executeTransaction.
  rewrite Hlive, Hconfirm. cbn [negb].
  destruct (retryLoop_sleep_budget (Z.to_nat (maxRetries config + 1)) 0
              UndefinedThrown (setGasBudget (gasBudget config) tx) r)
    as (evs & Htr & Hsl & Hok).
  exists evs. split; [exact Htr|]. split; [lia|].
  intros report Hrep. specialize (Hok report Hrep). lia.
Qed.

End Wrapper.

Lemma executeTransaction_dry_run_witness :
  dryRun baseConfig = true
  /\ trace (snd (executeTransaction (H := flaky_client) tt baseConfig (mkRun 0%nat [])))
     = trace (mkRun 0%nat []) ++ [EvDryRun]
  /\ world (snd (executeTransaction (H := flaky_client) tt baseConfig (mkRun 0%nat [])))
     = snd (buildAndDryRun (SuiClient := flaky_client)
              (setGasBudget (SuiClient := flaky_client) (gasBudget baseConfig) tt)
              (world (mkRun 0%nat [])))
  /\ fst (executeTransaction (H := flaky_client) tt baseConfig (mkRun 0%nat []))
     = match fst (buildAndDryRun (SuiClient := flaky_client)
                    (setGasBudget (SuiClient := flaky_client) (gasBudget baseConfig) tt)
                    (world (mkRun 0%nat []))) with
       | Ok _ => Ok (mkExecReport "dry-run" true)
       | Throw e => Throw e
       end.
Proof.
  split; [reflexivity|].
  apply (executeTransaction_dry_run (H := flaky_client) tt baseConfig
           (mkRun 0%nat []) eq_refl).
Defined.

Lemma executeTransaction_negative_budget_witness :
  dryRun (live_config (-1) true) = false
  /\ confirm (live_config (-1) true) = true
  /\ maxRetries (live_config (-1) true) < 0
  /\ executeTransaction (H := flaky_client) tt (live_config (-1) true) (mkRun 0%nat [])
     = (Throw UndefinedThrown, mkRun 0%nat []).
Proof.
  split; [reflexivity | split; [reflexivity | split; [reflexivity |]]].
  apply (executeTransaction_negative_budget (H := flaky_client) tt
           (live_config (-1) true) (mkRun 0%nat []) eq_refl eq_refl);
    reflexivity.
Defined.

Lemma executeTransaction_sleep_budget_witness :
  dryRun (live_config 3 true) = false
  /\ confirm (live_config 3 true) = true
  /\ 0 <= maxRetries (live_config 3 true)
  /\ exists evs : list Event,
       trace (snd (executeTransaction (H := flaky_client) tt (live_config 3 true)
                     (mkRun 0%nat [])))
       = trace (mkRun 0%nat []) ++ evs
       /\ 0 <= slept evs <= 30000 * (maxRetries (live_config 3 true) + 1)
       /\ (forall report,
             fst (executeTransaction (H := flaky_client) tt (live_config 3 true)
                    (mkRun 0%nat [])) = Ok report ->
             slept evs <= 30000 * maxRetries (live_config 3 true)).
Proof.
  split; [reflexivity | split; [reflexivity | split; [simpl; lia |]]].
  apply (executeTransaction_sleep_budget (H := flaky_client) tt
           (live_config 3 true) (mkRun 0%nat []));
    [reflexivity | reflexivity | simpl; lia].
Defined.

End ExecutionExtras.

(** ** Alerts *)

Module NotificationExtras.

Import Notifications LoopTerms.

Section Alerts.
Context {W : Type} `{Notifier W}.

Lemma notify_outcome (webhookUrl : option string) (payload : NotificationPayload)
    (o : Outbox W) :
  fst (notify webhookUrl payload o) = Ok tt
  /\ exists new : list (string * NotificationPayload),
       sent (snd (notify webhookUrl payload o)) = sent o ++ new
       /\ (forall a, In a new -> snd a = payload).
Proof.
  unfold notify. destruct webhookUrl as [url |].
  - destruct (bool_decide (url = "")).
    + split; [reflexivity|]. exists []. cbn. rewrite app_nil_r. split; [reflexivity|].
      intros a [].
    + unfold try_catch, call_sendNotification.
      destruct (sendNotification url payload (outside o)) as [[[] | e] w'];
        (split; [reflexivity|]); exists [(url, payload)];
        (split; [reflexivity|]); intros a [<- | []]; reflexivity.
  - split; [reflexivity|]. exists []. cbn. rewrite app_nil_r. split; [reflexivity|].
    intros a [].
Qed.

(** X25: [notify] never throws. Without a webhook (none, or the empty
    string) it does nothing at all; with one it hands the payload to
    [sendNotification] exactly once, and an error of that call is
    swallowed. *)
Theorem notify_never_throws (webhookUrl : option string)
    (payload : NotificationPayload) (o : Outbox W) :
  fst (notify webhookUrl payload o) = Ok tt
  /\ (webhookUrl = None \/ webhookUrl = Some "" -> notify webhookUrl payload o = (Ok tt, o))
  /\ (forall url : string,
        webhookUrl = Some url -> url <> "" ->
        sent (snd (notify webhookUrl payload o)) = sent o ++ [(url, payload)]
        /\ outside (snd (notify webhookUrl payload o))
           = snd (sendNotification url payload (outside o))).
Proof.
  split; [apply notify_outcome|]. split.
  - intros [-> | ->]; reflexivity.
  - intros url -> Hurl. unfold notify.
    rewrite bool_decide_eq_false_2 by exact Hurl.
    unfold try_catch, call_sendNotification.
    destruct (sendNotification url payload (outside o)) as [[[] | e] w'];
      split; reflexivity.
Qed.

End Alerts.

End NotificationExtras.

(** ** Loading the configuration *)

Module ConfigExtras.

Import Config ConfigLoader LoopTerms Fixtures.
Local Open Scope Z_scope.

Lemma truthy_Z_nonzero (o : option Z) (n : Z) : truthy_Z o = Some n -> n <> 0.
Proof.
  destruct o as [m |]; [|discriminate]. cbn.
  destruct (Z.eqb_spec m 0); [discriminate | congruence].
Qed.

Lemma truthy_R_nonzero (o : option R) (x : R) : truthy_R o = Some x -> x <> 0%R.
Proof.
  destruct o as [y |]; [|discriminate]. cbn.
  destruct (Req_dec_T y 0); [discriminate | congruence].
Qed.

Lemma picked_Z_nonzero (o1 o2 : option Z) (dflt : Z) :
  dflt <> 0 -> or_else (first_of (truthy_Z o1) (truthy_Z o2)) dflt <> 0.
Proof.
  intros Hd. destruct (truthy_Z o1) as [n |] eqn:E1; cbn.
  - eapply truthy_Z_nonzero; eassumption.
  - destruct (truthy_Z o2) as [n |] eqn:E2; cbn; [|exact Hd].
    eapply truthy_Z_nonzero; eassumption.
Qed.

Lemma picked_R_nonzero (o1 o2 : option R) (dflt : R) :
  dflt <> 0%R -> or_else (first_of (truthy_R o1) (truthy_R o2)) dflt <> 0%R.
Proof.
  intros Hd. destruct (truthy_R o1) as [n |] eqn:E1; cbn.
  - eapply truthy_R_nonzero; eassumption.
  - destruct (truthy_R o2) as [n |] eqn:E2; cbn; [|exact Hd].
    eapply truthy_R_nonzero; eassumption.
Qed.

Lemma picked_Z_env_first (o1 o2 : option Z) (dflt n : Z) :
  o1 = Some n -> n <> 0 -> or_else (first_of (truthy_Z o1) (truthy_Z o2)) dflt = n.
Proof.
  intros -> Hn. cbn. destruct (Z.eqb_spec n 0); [contradiction | reflexivity].
Qed.

Lemma picked_Z_zero_ignored (o2 : option Z) (dflt : Z) :
  or_else (first_of (truthy_Z (Some 0)) (truthy_Z o2)) dflt
  = or_else (truthy_Z o2) dflt.
Proof. reflexivity. Qed.

Section Loader.
Context `{Builtins}.

(** The config [loadConfig] returns, once the file is parsed. *)
Lemma loadConfig_Ok_inv (env fs : gmap string string)
    (configFilePath : option string) (config : BotConfig) :
  loadConfig env fs configFilePath = Ok config ->
  exists file : FileConfig,
    dryRun config = true
    /\ confirm config
       = bool_decide (env !! "CONFIRM" = Some "true")
         || bool_decide (f_confirm file = Some true)
    /\ maxRetries config
       = or_else (first_of (truthy_Z (parseIntJs (env_or_empty env "MAX_RETRIES")))
                           (truthy_Z (f_maxRetries file))) 3
    /\ minIntervalSeconds config
       = or_else (first_of (truthy_Z (parseIntJs (env_or_empty env "MIN_INTERVAL_SECONDS")))
                           (truthy_Z (f_minIntervalSeconds file))) 60
    /\ slippageBps config
       = or_else (first_of (truthy_Z (parseIntJs (env_or_empty env "SLIPPAGE_BPS")))
                           (truthy_Z (f_slippageBps file))) 50
    /\ priceBandPct config
       = or_else (first_of (truthy_R (parseFloat (env_or_empty env "PRICE_BAND_PCT")))
                           (truthy_R (f_priceBandPct file))) (3 / 2)%R
    /\ driftTriggerPct config
       = or_else (first_of (truthy_R (parseFloat (env_or_empty env "DRIFT_TRIGGER_PCT")))
                           (truthy_R (f_driftTriggerPct file))) (1 / 2)%R.
Proof.
  unfold loadConfig.
  destruct (loadYamlConfig fs _) as [file | e]; [|discriminate]. cbn [rbind].
  destruct (match truthy_string (env !! "GAS_BUDGET") with
            | Some text => BigInt_of_string text
            | None => Ok (or_else (truthy_Z (f_gasBudget file)) 500000000)
            end) as [gas | e]; [|discriminate]. cbn [rbind].
  intros [= <-]. exists file. cbn.
  rewrite orb_true_r, orb_false_r. repeat split.
Qed.

(** X26: a loaded configuration is always in dry-run mode. Whatever the
    environment and the config file say (DRY_RUN=false included),
    every configuration [loadConfig] returns has dryRun = true. *)
Theorem loadConfig_always_dry_run (env fs : gmap string string)
    (configFilePath : option string) :
  match loadConfig env fs configFilePath with
  | Ok config => dryRun config = true
  | Throw _ => True
  end
  /\ match loadConfig (<["DRY_RUN" := "false"]> env) fs configFilePath with
     | Ok config => dryRun config = true
     | Throw _ => True
     end.
Proof.
  split.
  - destruct (loadConfig env fs configFilePath) as [config | e] eqn:E; [|exact I].
    destruct (loadConfig_Ok_inv _ _ _ _ E) as (file & Hdry & _). exact Hdry.
  - destruct (loadConfig (<["DRY_RUN" := "false"]> env) fs configFilePath)
      as [config | e] eqn:E; [|exact I].
    destruct (loadConfig_Ok_inv _ _ _ _ E) as (file & Hdry & _). exact Hdry.
Qed.

(** X27: zero cannot be configured, and the environment wins. In every
    configuration [loadConfig] returns, maxRetries, minIntervalSeconds,
    slippageBps, priceBandPct and driftTriggerPct are all non-zero: a 0 in
    the environment or the file counts as absent. A non-zero number read
    from MAX_RETRIES is the maxRetries of the result whatever the file
    says, and CONFIRM=true sets confirm. *)
Theorem loadConfig_zero_is_absent (env fs : gmap string string)
    (configFilePath : option string) :
  match loadConfig env fs configFilePath with
  | Ok config =>
      maxRetries config <> 0
      /\ minIntervalSeconds config <> 0
      /\ slippageBps config <> 0
      /\ priceBandPct config <> 0%R
      /\ driftTriggerPct config <> 0%R
      /\ (forall n : Z,
            parseIntJs (env_or_empty env "MAX_RETRIES") = Some n -> n <> 0 ->
            maxRetries config = n)
      /\ (env !! "CONFIRM" = Some "true" -> confirm config = true)
  | Throw _ => True
  end.
Proof.
  destruct (loadConfig env fs configFilePath) as [config | e] eqn:E; [|exact I].
  destruct (loadConfig_Ok_inv _ _ _ _ E)
    as (file & _ & Hconfirm & Hretries & Hinterval & Hslip & Hband & Hdrift).
  rewrite Hretries, Hinterval, Hslip, Hband, Hdrift, Hconfirm.
  split; [apply picked_Z_nonzero; lia|].
  split; [apply picked_Z_nonzero; lia|].
  split; [apply picked_Z_nonzero; lia|].
  split; [apply picked_R_nonzero; lra|].
  split; [apply picked_R_nonzero; lra|].
  split.
  - intros n Hn Hnz. apply picked_Z_env_first; assumption.
  - intros Henv. rewrite bool_decide_eq_true_2 by exact Henv. reflexivity.
Qed.

End Loader.

End ConfigExtras.

(** ** One pass of the polling loop *)

Module LoopFacts.

Import Utils UtilsFacts Config Strategy Persistence SuiWallet Orchestrator
  Notifications ConfigLoader MainLoop Traces TraceTerms TickTerms LoopTerms
  Fixtures TickClaims TickMathFacts TickExtras
  ExecutionClaims ExecutionExtras OrchestratorClaims NotificationExtras.
Local Open Scope Z_scope.

(** *** The four relations are preorders *)

Lemma trace_grows_refl {W : Type} (b : Bot W) : trace_grows b b.
Proof. exists []. symmetry. apply app_nil_r. Qed.

Lemma trace_grows_trans {W : Type} (b1 b2 b3 : Bot W) :
  trace_grows b1 b2 -> trace_grows b2 b3 -> trace_grows b1 b3.
Proof.
  intros [evs1 H1] [evs2 H2]. exists (evs1 ++ evs2).
  rewrite H2, H1, app_assoc. reflexivity.
Qed.

Lemma same_store_refl {W : Type} (b : Bot W) : same_store b b.
Proof. split; reflexivity. Qed.

Lemma same_store_trans {W : Type} (b1 b2 b3 : Bot W) :
  same_store b1 b2 -> same_store b2 b3 -> same_store b1 b3.
Proof. intros [H1 H2] [H3 H4]. split; congruence. Qed.



Lemma no_success_alert_refl {W : Type} (b : Bot W) : no_success_alert b b.
Proof. exists []. split; [symmetry; apply app_nil_r | reflexivity]. Qed.

Lemma no_success_alert_trans {W : Type} (b1 b2 b3 : Bot W) :
  no_success_alert b1 b2 -> no_success_alert b2 b3 -> no_success_alert b1 b3.
Proof.
  intros (n1 & H1 & C1) (n2 & H2 & C2). exists (n1 ++ n2). split.
  - rewrite H2, H1, app_assoc. reflexivity.
  - rewrite forallb_app, C1, C2. reflexivity.
Qed.

(** *** Sequencing keeps a preorder *)

Section Generic.
Context {W : Type} (R : Bot W -> Bot W -> Prop).
Hypothesis R_refl : forall b, R b b.
Hypothesis R_trans : forall b1 b2 b3, R b1 b2 -> R b2 b3 -> R b1 b3.

Lemma respects_ret {A : Type} (a : A) : respects R (ret a).
Proof. intros b. apply R_refl. Qed.

Lemma respects_lift_result {A : Type} (r : result A) : respects R (lift_result r).
Proof. intros b. apply R_refl. Qed.

Lemma respects_read_state : respects R (read_state (W := W)).
Proof. intros b. apply R_refl. Qed.

Lemma respects_now `{Clock W} : respects R now.
Proof. intros b. apply R_refl. Qed.

Lemma respects_bind {A B : Type} (m : Eff (Bot W) A) (k : A -> Eff (Bot W) B) :
  respects R m -> (forall a, respects R (k a)) -> respects R (ebind m k).
Proof.
  intros Hm Hk b. unfold ebind. specialize (Hm b).
  destruct (m b) as [[a | e] b1]; cbn [snd] in *.
  - eapply R_trans; [exact Hm | apply Hk].
  - exact Hm.
Qed.

Lemma respects_try_catch {A : Type} (body : Eff (Bot W) A)
    (handler : error -> Eff (Bot W) A) :
  respects R body -> (forall e, respects R (handler e)) ->
  respects R (try_catch body handler).
Proof.
  intros Hm Hk b. unfold try_catch. specialize (Hm b).
  destruct (body b) as [[a | e] b1]; cbn [snd] in *.
  - exact Hm.
  - eapply R_trans; [exact Hm | apply Hk].
Qed.

End Generic.

(** *** Chain computations only add to the trace *)

Section Chain.
Context {W Tx : Type} `{SuiClient W Tx} `{CetusClient W Tx}.

Lemma appends_run_ret {A : Type} (a : A) : appends_run (ret (S := Run W) a).
Proof. intros r. exists []. symmetry. apply app_nil_r. Qed.

Lemma appends_run_bind {A B : Type} (m : Eff (Run W) A) (k : A -> Eff (Run W) B) :
  appends_run m -> (forall a, appends_run (k a)) -> appends_run (ebind m k).
Proof.
  intros Hm Hk r. unfold ebind. destruct (Hm r) as [evs1 H1].
  destruct (m r) as [[a | e] r1]; cbn [snd] in *.
  - destruct (Hk a r1) as [evs2 H2]. exists (evs1 ++ evs2).
    rewrite H2, H1, app_assoc. reflexivity.
  - exists evs1. exact H1.
Qed.

Lemma appends_run_external {A : Type} (ev : Event) (call : W -> result A * W) :
  appends_run (external ev call).
Proof.
  intros r. unfold external. destruct (call (world r)) as [res w'].
  exists [ev]. reflexivity.
Qed.

Lemma appends_run_sleep (ms : Z) : appends_run (sleep ms).
Proof. intros r. exists [EvSleep ms]. reflexivity. Qed.


Lemma appends_run_executeTransaction (tx : Tx) (config : BotConfig) :
  appends_run (executeTransaction tx config).
Proof.
  intros r. unfold executeTransaction.
  destruct (dryRun config).
  - unfold ebind, call_dryRun.
    destruct (buildAndDryRun (setGasBudget (gasBudget config) tx) (world r))
      as [[[] | e] w']; exists [EvDryRun]; reflexivity.
  - destruct (confirm config); cbn [negb].
    + destruct (retryLoop_sleep_budget (Z.to_nat (maxRetries config + 1)) 0
                  UndefinedThrown (setGasBudget (gasBudget config) tx) r)
        as (evs & Htr & _).
      exists evs. exact Htr.
    + exists []. symmetry. apply app_nil_r.
Qed.

Lemma never_broadcasts_dry_run (tx : Tx) (config : BotConfig) :
  dryRun config = true -> never_broadcasts (executeTransaction tx config).
Proof.
  intros Hdry r. unfold executeTransaction. rewrite Hdry.
  unfold ebind, call_dryRun.
  destruct (buildAndDryRun (setGasBudget (gasBudget config) tx) (world r))
    as [[[] | e] w']; exists [EvDryRun]; split; reflexivity.
Qed.

Lemma appends_run_runRebalance (config : BotConfig) (positionId : string)
    (tickLower tickUpper newTickLower newTickUpper liquidity : Z) :
  appends_run
    (runRebalance config positionId tickLower tickUpper
       newTickLower newTickUpper liquidity).
Proof.
  unfold runRebalance.
  repeat first
    [ apply appends_run_ret
    | apply appends_run_executeTransaction
    | apply appends_run_external
    | apply appends_run_bind; [| intros ?]
    | match goal with
      | |- appends_run (let '(_, _) := ?p in _) => destruct p
      | |- appends_run (match ?o with Some _ => _ | None => _ end) => destruct o
      end ].
Qed.

End Chain.

(** *** The steps of a pass *)

Section Pass.
Context {W Tx : Type} `{SuiClient W Tx} `{CetusClient W Tx}
  `{PositionSource W} `{Clock W} `{Notifier W} `{Wording} `{Json}
  `{DiskFaults W}.

Lemma on_chain_grows {A : Type} (m : Eff (Run W) A) :
  appends_run m -> appends (on_chain m).
Proof.
  intros Hm b. unfold on_chain. destruct (Hm (chain b)) as [evs Hevs].
  destruct (m (chain b)) as [res r']. exists evs. exact Hevs.
Qed.


Lemma on_chain_steady {A : Type} (m : Eff (Run W) A) : steady (on_chain m).
Proof.
  intros b. unfold on_chain. destruct (m (chain b)) as [res r']. split; reflexivity.
Qed.

Lemma on_chain_no_success {A : Type} (m : Eff (Run W) A) :
  never_reports_success (on_chain m).
Proof.
  intros b. unfold on_chain. destruct (m (chain b)) as [res r'].
  exists []. split; [symmetry; apply app_nil_r | reflexivity].
Qed.


Lemma alert_frame (webhookUrl : option string) (payload : NotificationPayload)
    (b : Bot W) :
  trace (chain (snd (alert webhookUrl payload b))) = trace (chain b)
  /\ state (snd (alert webhookUrl payload b)) = state b
  /\ disk (snd (alert webhookUrl payload b)) = disk b
  /\ exists new : list (string * NotificationPayload),
       alerts (snd (alert webhookUrl payload b)) = alerts b ++ new
       /\ (forall a, In a new -> snd a = payload).
Proof.
  unfold alert.
  pose proof (notify_outcome webhookUrl payload
                (mkOutbox (world (chain b)) (alerts b))) as [_ Hnew].
  destruct (notify webhookUrl payload (mkOutbox (world (chain b)) (alerts b)))
    as [res o']. cbn in *. repeat split. exact Hnew.
Qed.

Lemma alert_grows (webhookUrl : option string) (payload : NotificationPayload) :
  appends (alert webhookUrl payload).
Proof.
  intros b. destruct (alert_frame webhookUrl payload b) as (Htr & _).
  exists []. rewrite Htr. symmetry. apply app_nil_r.
Qed.


Lemma alert_steady (webhookUrl : option string) (payload : NotificationPayload) :
  steady (alert webhookUrl payload).
Proof.
  intros b. destruct (alert_frame webhookUrl payload b) as (_ & Hs & Hd & _).
  split; assumption.
Qed.

Lemma alert_no_success (webhookUrl : option string) (payload : NotificationPayload) :
  ntype payload <> rebalance_success ->
  never_reports_success (alert webhookUrl payload).
Proof.
  intros Hty b. destruct (alert_frame webhookUrl payload b)
    as (_ & _ & _ & new & Hnew & Hall).
  exists new. split; [exact Hnew|].
  apply forallb_forall. intros a Ha. apply Hall in Ha.
  unfold is_success. rewrite Ha. destruct (ntype payload); try reflexivity.
  contradiction.
Qed.

Lemma fetchPosition_frame (b : Bot W) :
  trace (chain (snd (call_fetchPositionState b))) = trace (chain b)
  /\ state (snd (call_fetchPositionState b)) = state b
  /\ disk (snd (call_fetchPositionState b)) = disk b
  /\ alerts (snd (call_fetchPositionState b)) = alerts b.
Proof.
  unfold call_fetchPositionState.
  destruct (fetchPositionState (world (chain b))) as [res w']. repeat split.
Qed.

Lemma fetchPosition_grows : appends call_fetchPositionState.
Proof.
  intros b. destruct (fetchPosition_frame b) as (Htr & _).
  exists []. rewrite Htr. symmetry. apply app_nil_r.
Qed.


Lemma fetchPosition_steady : steady call_fetchPositionState.
Proof. intros b. destruct (fetchPosition_frame b) as (_ & Hs & Hd & _). split; assumption. Qed.

Lemma fetchPosition_no_success : never_reports_success call_fetchPositionState.
Proof.
  intros b. destruct (fetchPosition_frame b) as (_ & _ & _ & Ha).
  exists []. rewrite Ha. split; [symmetry; apply app_nil_r | reflexivity].
Qed.

Lemma assign_grows (positionId : string) (lo hi liq : Z) (txDigest : string) :
  appends (assign_updated_state positionId lo hi liq txDigest).
Proof. intros b. exists []. symmetry. apply app_nil_r. Qed.


Lemma save_grows (statePath : string) : appends (save_current_state (W := W) statePath).
Proof.
  intros b. unfold save_current_state.
  destruct (write_fault (world (chain b)) statePath);
    exists []; symmetry; apply app_nil_r.
Qed.



(** *** Watching: polls only *)

Lemma only_polls_refl (b : Bot W) : only_polls b b.
Proof. exists []. split; [symmetry; apply app_nil_r | reflexivity]. Qed.

Lemma only_polls_trans (b1 b2 b3 : Bot W) :
  only_polls b1 b2 -> only_polls b2 b3 -> only_polls b1 b3.
Proof.
  intros (evs1 & Htr1 & C1) (evs2 & Htr2 & C2). exists (evs1 ++ evs2). split.
  - rewrite Htr2, Htr1, app_assoc. reflexivity.
  - rewrite forallb_app, C1, C2. reflexivity.
Qed.

Lemma polls_are_no_broadcasts (evs : list Event) :
  forallb is_poll evs = true -> broadcast_count evs = 0%nat.
Proof.
  unfold broadcast_count. induction evs as [| ev evs IH]; intros Hall.
  - reflexivity.
  - cbn [forallb] in Hall. apply andb_prop in Hall as [Hev Hrest].
    rewrite filter_cons_False.
    + apply IH, Hrest.
    + destruct ev; cbn in *; congruence.
Qed.

Lemma sleep_watches (ms : Z) : watches (on_chain (sleep ms)).
Proof. intros b. exists [EvSleep ms]. split; reflexivity. Qed.

Lemma fetchPool_watches :
  watches (on_chain (external EvFetchPoolState fetchPoolState)).
Proof.
  intros b. unfold on_chain, external.
  destruct (fetchPoolState (world (chain b))) as [res w'].
  exists [EvFetchPoolState]. split; reflexivity.
Qed.

Lemma alert_watches (webhookUrl : option string) (payload : NotificationPayload) :
  watches (alert webhookUrl payload).
Proof.
  intros b. destruct (alert_frame webhookUrl payload b) as (Htr & _).
  exists []. rewrite Htr. split; [symmetry; apply app_nil_r | reflexivity].
Qed.

Lemma fetchPosition_watches : watches call_fetchPositionState.
Proof.
  intros b. destruct (fetchPosition_frame b) as (Htr & _).
  exists []. rewrite Htr. split; [symmetry; apply app_nil_r | reflexivity].
Qed.

(** *** Walking through a pass *)

(** Splits a computation of the pass at its sequencing, its branches and
    its destructuring, and closes the steps with [prim]. *)
Ltac pass_steps R Rrefl Rtrans prim :=
  repeat first
    [ apply (respects_ret R Rrefl)
    | apply (respects_lift_result R Rrefl)
    | apply (respects_read_state R Rrefl)
    | apply (respects_now R Rrefl)
    | prim
    | apply (respects_bind R Rtrans); [| intros ?]
    | apply (respects_try_catch R Rtrans); [| intros ?]
    | progress cbv beta iota zeta
    | match goal with
      | |- respects _ (if ?c then _ else _) => destruct c
      | |- respects _ (let '(_, _) := ?p in _) => destruct p
      | |- respects _ (match ?o with Some _ => _ | None => _ end) => destruct o
      end ].


Lemma pollAndAct_grows (config : BotConfig) (settings : Settings) (loopStart : Z) :
  appends (pollAndAct config settings loopStart).
Proof.
  unfold appends, pollAndAct.
  pass_steps (@trace_grows W) (@trace_grows_refl W) (@trace_grows_trans W)
    ltac:(first
      [ apply alert_grows
      | apply fetchPosition_grows
      | apply assign_grows
      | apply save_grows
      | apply on_chain_grows;
        first [ apply appends_run_sleep
              | apply appends_run_external
              | apply appends_run_runRebalance ] ]).
Qed.




(** *** Recording a rebalance *)









(** *** What the sequence returns behind the confirmation gate *)




(** *** The pass as a whole *)


(** X29: in dry-run mode a pass only watches. It leaves the loop's state
    and the files as they were; the only calls it adds are polls of the
    pool and sleeps, so it builds no transaction, simulates none and
    broadcasts none; and it sends no success alert. *)
Theorem loopIteration_dry_run_only_watches (config : BotConfig)
    (settings : Settings) (b : Bot W) :
  dryRun config = true ->
  state (snd (loopIteration config settings b)) = state b
  /\ disk (snd (loopIteration config settings b)) = disk b
  /\ (exists evs : list Event,
        trace (chain (snd (loopIteration config settings b)))
        = trace (chain b) ++ evs
        /\ forallb is_poll evs = true
        /\ broadcast_count evs = 0%nat)
  /\ (exists new : list (string * NotificationPayload),
        alerts (snd (loopIteration config settings b)) = alerts b ++ new
        /\ forallb (fun a => negb (is_success a)) new = true).
Proof.
  intros Hdry.
  assert (Hsteady : steady (loopIteration config settings)).
  { unfold steady, loopIteration, pollAndAct. rewrite Hdry.
    pass_steps (@same_store W) (@same_store_refl W) (@same_store_trans W)
      ltac:(first [ apply on_chain_steady | apply alert_steady
                  | apply fetchPosition_steady ]). }
  assert (Hwatch : watches (loopIteration config settings)).
  { unfold watches, loopIteration, pollAndAct. rewrite Hdry.
    pass_steps (@only_polls W) only_polls_refl only_polls_trans
      ltac:(first [ apply sleep_watches | apply fetchPool_watches
                  | apply alert_watches | apply fetchPosition_watches ]). }
  assert (Hquiet : never_reports_success (loopIteration config settings)).
  { unfold never_reports_success, loopIteration, pollAndAct. rewrite Hdry.
    pass_steps (@no_success_alert W) (@no_success_alert_refl W)
      (@no_success_alert_trans W)
      ltac:(first [ apply on_chain_no_success
                  | apply fetchPosition_no_success
                  | apply alert_no_success; discriminate ]). }
  destruct (Hsteady b) as [Hs Hd].
  destruct (Hwatch b) as (evs & Hevs & Hpolls).
  split; [exact Hs|]. split; [exact Hd|]. split; [| exact (Hquiet b)].
  exists evs. split; [exact Hevs|]. split; [exact Hpolls|].
  apply polls_are_no_broadcasts, Hpolls.
Qed.


End Pass.


(** *** Passes on a clock, with a position the price has left *)

(** The pool of the fixtures is at tick 0 and the stranded position
    spans [100, 300]: the out-of-range trigger fires and a new range is
    computed, whatever the band. *)
Lemma stranded_decision (config : BotConfig) :
  (0 < priceBandPct config < 100)%R ->
  exists lo hi : Z,
    (lo < hi)%Z
    /\ evaluateStrategy basePool strandedPosition config
       = Ok (mkStrategyDecision true price_out_of_range
               (driftPct 1 100 300) (Some lo) (Some hi)).
Proof.
  intros Hband.
  pose proof (band_ticks_bracket 1 (priceBandPct config) 10 ltac:(lia) Hband
                (aligned_bounds_bracket_one 10 ltac:(lia) ltac:(lia))) as Hb.
  cbv zeta in Hb.
  unfold evaluateStrategy.
  cbn [basePool strandedPosition currentPrice currentTick tickSpacing
       pos_tickLower pos_tickUpper].
  change (negb (isTickInRange 0 100 300)) with true. cbv iota.
  rewrite computeNewTickRange_unfold.
  rewrite !priceToTick_positive by lra.
  set (lo := clampTick _ 10) in *.
  set (hi := clampTick (aligned_raw (1 * (1 + _ / 100)) _ _) 10) in *.
  assert (Hlt : (lo < hi)%Z) by (apply lt_IZR; lra).
  exists lo, hi. split; [exact Hlt|].
  cbn. destruct (Z.geb_spec lo hi); [lia | reflexivity].
Qed.

Lemma computeSwapNeeded_empty_wallet (r p : R) (s : Z) :
  computeSwapNeeded 0 0 r p s = None.
Proof.
  unfold computeSwapNeeded.
  destruct (Rle_dec r 0) as [_ | _]; [reflexivity|].
  destruct (Req_dec_T (IZR 0 + IZR 0) 0) as [_ | Hne]; [reflexivity|].
  exfalso. apply Hne. lra.
Qed.

(** Runs a pass on concrete collaborators up to the decisions taken over
    real numbers. *)
Ltac run_pass :=
  unfold loopIteration, pollAndAct, runRebalance, executeTransaction;
  unfold ebind, try_catch, read_state, on_chain, sleep, ret, now, external,
    call_fetchPositionState, lift_result, alert, notify, call_sendNotification,
    assign_updated_state, save_current_state, bot_at;
  cbn -[evaluateStrategy computeTokenAmounts computeSwapNeeded].

Section OnAClock.

#[local] Existing Instance clock_client.
#[local] Existing Instance clock_cetus.
#[local] Existing Instance stranded_position.
#[local] Existing Instance clock_clock.
#[local] Existing Instance failing_notifier.
#[local] Existing Instance plain_wording.
#[local] Existing Instance StoreTerms.counter_codec.
#[local] Existing Instance sound_disk.

(** A dry-run pass that finds the position out of range: it waits out
    the rate limit, polls, announces the rebalance and stops there. *)
Example loopIteration_dry_run_triggered :
  loopIteration baseConfig example_settings (bot_at 1000 (Some 500))
  = (Ok tt,
     mkBot (mkRun 61000 [EvSleep 59500; EvFetchPoolState; EvSleep 500]) ∅
       [("https://example.org/hook",
         mkPayload rebalance_start "Rebalance triggered" None (Some mainnet))]
       (state (bot_at 1000 (Some 500)))).
Proof.
  destruct (stranded_decision baseConfig ltac:(cbn; lra))
    as (lo & hi & Hlt & Heval).
  run_pass. rewrite Heval. vm_compute. reflexivity.
Qed.

(** A live pass without the confirmation flag that finds the position
    out of range: every step of the sequence is built, nothing is
    broadcast, and the aborted sequence is recorded and announced as a
    rebalance. *)
Example loopIteration_gate_triggered :
  exists lo hi : Z,
    (lo < hi)%Z
    /\ loopIteration (live_config 3 false) example_settings (bot_at 1000 None)
       = (Ok tt,
          mkBot
            (mkRun 61000
               [EvFetchPoolState; EvBuildCollectFee "0xposition";
                EvBuildRemoveLiquidity "0xposition" 1000000 50; EvFetchPoolState;
                EvGetTokenBalances; EvGetTokenBalances;
                EvBuildAddLiquidity "0xposition" lo hi 0 0 50;
                EvSleep 60000])
            {["state.json" := "1"]}
            [("https://example.org/hook",
              mkPayload rebalance_start "Rebalance triggered" None (Some mainnet));
             ("https://example.org/hook",
              mkPayload rebalance_success "Rebalance complete!"
                (Some "aborted-no-confirm") (Some mainnet))]
            (mkBotState (Some 1000) (Some "0xposition") (Some lo) (Some hi)
               (Some "1000000") 1 (Some "aborted-no-confirm"))).
Proof.
  destruct (stranded_decision (live_config 3 false) ltac:(cbn; lra))
    as (lo & hi & Hlt & Heval).
  exists lo, hi. split; [exact Hlt|].
  run_pass. rewrite Heval.
  cbn -[evaluateStrategy computeTokenAmounts computeSwapNeeded].
  rewrite computeSwapNeeded_empty_wallet. vm_compute. reflexivity.
Qed.

Lemma loopIteration_dry_run_witness :
  dryRun baseConfig = true
  /\ state (snd (loopIteration baseConfig example_settings (bot_at 1000 (Some 500))))
     = state (bot_at 1000 (Some 500))
  /\ disk (snd (loopIteration baseConfig example_settings (bot_at 1000 (Some 500))))
     = disk (bot_at 1000 (Some 500))
  /\ (exists evs : list Event,
        trace (chain (snd (loopIteration baseConfig example_settings
                             (bot_at 1000 (Some 500)))))
        = trace (chain (bot_at 1000 (Some 500))) ++ evs
        /\ forallb is_poll evs = true
        /\ broadcast_count evs = 0%nat)
  /\ (exists new : list (string * NotificationPayload),
        alerts (snd (loopIteration baseConfig example_settings
                       (bot_at 1000 (Some 500))))
        = alerts (bot_at 1000 (Some 500)) ++ new
        /\ forallb (fun a => negb (is_success a)) new = true).
Proof.
  split; [reflexivity|].
  apply (loopIteration_dry_run_only_watches baseConfig example_settings
           (bot_at 1000 (Some 500)) eq_refl).
Defined.


End OnAClock.

Section OnAFullDisk.

#[local] Existing Instance clock_client.
#[local] Existing Instance clock_cetus.
#[local] Existing Instance stranded_position.
#[local] Existing Instance clock_clock.
#[local] Existing Instance failing_notifier.
#[local] Existing Instance plain_wording.
#[local] Existing Instance StoreTerms.counter_codec.
#[local] Existing Instance full_disk.

(** The same pass when the disk refuses the write: the rebalance is
    counted in the state variable, no state file is written, and the
    pass ends with the failure alert and no success alert. *)
Example loopIteration_gate_write_refused :
  exists lo hi : Z,
    (lo < hi)%Z
    /\ loopIteration (live_config 3 false) example_settings (bot_at 1000 None)
       = (Ok tt,
          mkBot
            (mkRun 61000
               [EvFetchPoolState; EvBuildCollectFee "0xposition";
                EvBuildRemoveLiquidity "0xposition" 1000000 50; EvFetchPoolState;
                EvGetTokenBalances; EvGetTokenBalances;
                EvBuildAddLiquidity "0xposition" lo hi 0 0 50;
                EvSleep 60000])
            ∅
            [("https://example.org/hook",
              mkPayload rebalance_start "Rebalance triggered" None (Some mainnet));
             ("https://example.org/hook",
              mkPayload rebalance_failure "Bot error" None None)]
            (mkBotState (Some 1000) (Some "0xposition") (Some lo) (Some hi)
               (Some "1000000") 1 (Some "aborted-no-confirm"))).
Proof.
  destruct (stranded_decision (live_config 3 false) ltac:(cbn; lra))
    as (lo & hi & Hlt & Heval).
  exists lo, hi. split; [exact Hlt|].
  run_pass. rewrite Heval.
  cbn -[evaluateStrategy computeTokenAmounts computeSwapNeeded].
  rewrite computeSwapNeeded_empty_wallet. vm_compute. reflexivity.
Qed.

End OnAFullDisk.

End LoopFacts.
